(** * SteamNameCheck: a model of [main.py] and the properties of its probing engine

    The development follows the source file top to bottom:

    - [PyStr]: the few operations of Python's [str] the program relies on
      (substring test [in], [splitlines]);
    - [Json]: [json.dump] of a list of strings, the only value the program
      writes, and [json.load] of any document;
    - [PyFloat]: the arithmetic of [int((i + 1) / total * 100)] on IEEE
      binary64, built on the standard library's [SpecFloat];
    - the helper functions [generate_username], [load_checked_usernames],
      [save_checked_usernames];
    - [CheckerThread]: the worker thread, as a small-step machine; a step
      is what the thread does between two places where it tests its flag
      or waits for the network or the timer (file accesses are immediate);
    - [MainWindow]: the slots of the window that create and stop workers,
      and the process as a whole: the window, its threads, and the actions
      (clicks, scheduling of a thread) that make it move.

    Elapsed-time measurements and the text of the log lines are not
    modelled: a log line is a structured [message]. *)

From Stdlib Require Import String Ascii List Bool Arith ZArith Lia.
From Stdlib Require Import Floats.SpecFloat.
Import ListNotations.

Local Open Scope list_scope.
Local Open Scope string_scope.

(** A computation that may raise: [Raise e] carries [str(e)]. *)
Inductive result (A : Type) : Type :=
| Ok (a : A)
| Raise (e : string).
Arguments Ok {A} a.
Arguments Raise {A} e.

(* ===================================================================== *)
(** ** Python strings *)
(* ===================================================================== *)

(** A [str] is modelled by [string]; a character stands for the code point
    of the same number (0..255).  Text with larger code points is outside
    the model. *)

Module PyStr.

(** [sub in s] for strings. *)
Fixpoint contains (sub s : string) : bool :=
  if String.prefix sub s then true
  else match s with
       | EmptyString => false
       | String _ s' => contains sub s'
       end.

(** [x in l] for a list of strings. *)
Definition mem (x : string) (l : list string) : bool :=
  existsb (String.eqb x) l.

(** The line boundaries of [str.splitlines] among the code points below
    256, carriage return apart: LF, VT, FF, FS, GS, RS, NEL. *)
Definition is_linebreak (c : ascii) : bool :=
  match nat_of_ascii c with
  | 10 | 11 | 12 | 28 | 29 | 30 | 133 => true
  | _ => false
  end.

Definition CR : ascii := ascii_of_nat 13.
Definition LF : ascii := ascii_of_nat 10.

(** [splitlines_from cur s]: [cur] is the line read so far. *)
Fixpoint splitlines_from (cur s : string) : list string :=
  match s with
  | EmptyString => if String.eqb cur "" then [] else [cur]
  | String c s' =>
      if Ascii.eqb c CR then
        match s' with
        | String c' s'' =>
            if Ascii.eqb c' LF then cur :: splitlines_from "" s''
            else cur :: splitlines_from "" s'
        | EmptyString => cur :: splitlines_from "" s'
        end
      else if is_linebreak c then cur :: splitlines_from "" s'
      else splitlines_from (cur ++ String c "") s'
  end.

(** [s.splitlines()] *)
Definition splitlines (s : string) : list string := splitlines_from "" s.

(** [bool(s)]: a string is truthy when it is not empty. *)
Definition truthy (s : string) : bool := negb (String.eqb s "").

End PyStr.

(* ===================================================================== *)
(** ** Python values and JSON *)
(* ===================================================================== *)

(** What [json.load] can return, as far as the program tells values
    apart: the only operations it applies to the value are [in] against a
    generated name, [append] and [json.dump].  A list is kept as the list
    of its items that are strings; its other items (numbers, nested
    lists and so on) never compare equal to a name and are left out, so
    that after such a list was loaded the text a save writes lacks these
    items, which the program would write back.  A dict is kept as the
    list of its keys. *)
Inductive pyvalue : Type :=
| PyList (items : list string)   (* a list *)
| PyDict (keys : list string)    (* a dict *)
| PyString (s : string)          (* a str *)
| PyScalar.                      (* an int, a float, a bool or None *)

Module PyValue.

(** The strings a value holds as items or as keys. *)
Definition names (v : pyvalue) : list string :=
  match v with
  | PyList items => items
  | PyDict keys => keys
  | PyString _ | PyScalar => []
  end.

(** [x in v], for a string [x]. *)
Definition contains (x : string) (v : pyvalue) : result bool :=
  match v with
  | PyList items => Ok (PyStr.mem x items)
  | PyDict keys => Ok (PyStr.mem x keys)
  | PyString s => Ok (PyStr.contains x s)
  | PyScalar => Raise "TypeError: argument is not iterable"
  end.

(** [v.append(x)]: the list after the call. *)
Definition append (v : pyvalue) (x : string) : result (list string) :=
  match v with
  | PyList items => Ok (items ++ [x])%list
  | PyDict _ | PyString _ | PyScalar =>
      Raise "AttributeError: object has no attribute 'append'"
  end.

End PyValue.

Module Json.

(** The double quote. *)
Definition dquote : ascii := ascii_of_nat 34.

Definition hexdigit (n : nat) : ascii :=
  match n with
  | 0 => "0" | 1 => "1" | 2 => "2" | 3 => "3" | 4 => "4" | 5 => "5"
  | 6 => "6" | 7 => "7" | 8 => "8" | 9 => "9" | 10 => "a" | 11 => "b"
  | 12 => "c" | 13 => "d" | 14 => "e" | _ => "f"
  end%char.

(** One character of a string under [ensure_ascii=True]: backslash and
    double quote are escaped, the five short escapes are used, and every
    other character outside [' '..'~'] becomes [\u00XX]. *)
Definition encode_char (c : ascii) : string :=
  let n := nat_of_ascii c in
  match n with
  | 34 => String "\" (String dquote "")
  | 92 => "\\"
  | 8 => "\b"
  | 9 => "\t"
  | 10 => "\n"
  | 12 => "\f"
  | 13 => "\r"
  | _ =>
      if ((n <? 32) || (126 <? n))%nat then
        String "\" (String "u" (String "0" (String "0"
          (String (hexdigit (n / 16)) (String (hexdigit (n mod 16)) "")))))
      else String c ""
  end.

Fixpoint encode_chars (s : string) : string :=
  match s with
  | EmptyString => ""
  | String c s' => encode_char c ++ encode_chars s'
  end.

Definition encode_string (s : string) : string :=
  String dquote (encode_chars s ++ String dquote "").

Fixpoint encode_items (l : list string) : string :=
  match l with
  | [] => ""
  | [x] => encode_string x
  | x :: l' => encode_string x ++ ", " ++ encode_items l'
  end.

(** [json.dumps(l)] for a list of strings. *)
Definition dumps (l : list string) : string :=
  "[" ++ encode_items l ++ "]".

Definition unhex (c : ascii) : option nat :=
  let n := nat_of_ascii c in
  if ((48 <=? n) && (n <=? 57))%nat then Some (n - 48)
  else if ((97 <=? n) && (n <=? 102))%nat then Some (n - 87)
  else if ((65 <=? n) && (n <=? 70))%nat then Some (n - 55)
  else None.

(** The value of [\uXXXX]; [None] when a digit is not hexadecimal.  A
    code point above 255 has no character in the model and is read as
    U+0000: neither occurs in a name the program generates. *)
Definition unhex4 (a b c d : ascii) : option ascii :=
  match unhex a, unhex b, unhex c, unhex d with
  | Some 0, Some 0, Some x, Some y => Some (ascii_of_nat (16 * x + y))
  | Some _, Some _, Some _, Some _ => Some zero
  | _, _, _, _ => None
  end.

Definition cons_char (c : ascii) (r : option (string * string)) :
  option (string * string) :=
  match r with
  | Some (v, rest) => Some (String c v, rest)
  | None => None
  end.

(** The scanner of string literals, entered after the opening quote:
    returns the decoded string and the text after the closing quote.
    Control characters are refused (strict mode). *)
Fixpoint scanstring (s : string) : option (string * string) :=
  match s with
  | EmptyString => None
  | String c s1 =>
      match nat_of_ascii c with
      | 34 => Some ("", s1)
      | 92 =>
          match s1 with
          | EmptyString => None
          | String e s2 =>
              match nat_of_ascii e with
              | 34 => cons_char dquote (scanstring s2)
              | 92 => cons_char "\" (scanstring s2)
              | 47 => cons_char "/" (scanstring s2)
              | 98 => cons_char (ascii_of_nat 8) (scanstring s2)
              | 102 => cons_char (ascii_of_nat 12) (scanstring s2)
              | 110 => cons_char (ascii_of_nat 10) (scanstring s2)
              | 114 => cons_char (ascii_of_nat 13) (scanstring s2)
              | 116 => cons_char (ascii_of_nat 9) (scanstring s2)
              | 117 =>
                  match s2 with
                  | String h1 (String h2 (String h3 (String h4 s3))) =>
                      match unhex4 h1 h2 h3 h4 with
                      | Some ch => cons_char ch (scanstring s3)
                      | None => None
                      end
                  | _ => None
                  end
              | _ => None
              end
          end
      | n => if (n <? 32)%nat then None else cons_char c (scanstring s1)
      end
  end.

Definition is_ws (c : ascii) : bool :=
  match nat_of_ascii c with
  | 32 | 9 | 10 | 13 => true
  | _ => false
  end.

Fixpoint skip_ws (s : string) : string :=
  match s with
  | String c s' => if is_ws c then skip_ws s' else s
  | EmptyString => s
  end.

(** [s] without the prefix [p], when it starts with it. *)
Fixpoint strip (p s : string) : option string :=
  match p with
  | EmptyString => Some s
  | String a p' =>
      match s with
      | String b s' => if Ascii.eqb a b then strip p' s' else None
      | EmptyString => None
      end
  end.

Definition is_digit (c : ascii) : bool :=
  ((48 <=? nat_of_ascii c) && (nat_of_ascii c <=? 57))%nat.

Fixpoint skip_digits (s : string) : string :=
  match s with
  | String c s' => if is_digit c then skip_digits s' else s
  | EmptyString => s
  end.

(** One digit or more. *)
Definition digits1 (s : string) : option string :=
  match s with
  | String c s' => if is_digit c then Some (skip_digits s') else None
  | EmptyString => None
  end.

(** The number pattern of the decoder: an optional minus sign, then 0
    or a digit from 1 to 9 followed by digits; then, if they are there in
    full, a point with one digit or more, and an exponent made of e or E,
    an optional sign and one digit or more.  Each function returns the
    text after the longest match. *)
Definition scan_int (s : string) : option string :=
  match s with
  | String c s' =>
      if Ascii.eqb c "0" then Some s'
      else if is_digit c then Some (skip_digits s')
      else None
  | EmptyString => None
  end.

Definition scan_frac (s : string) : string :=
  match s with
  | String c s' =>
      if Ascii.eqb c "." then
        match digits1 s' with
        | Some r => r
        | None => s
        end
      else s
  | EmptyString => s
  end.

Definition scan_exp (s : string) : string :=
  match s with
  | String c s' =>
      if Ascii.eqb c "e" || Ascii.eqb c "E" then
        let s'' := match s' with
                   | String d r =>
                       if Ascii.eqb d "+" || Ascii.eqb d "-" then r else s'
                   | EmptyString => s'
                   end in
        match digits1 s'' with
        | Some r => r
        | None => s
        end
      else s
  | EmptyString => s
  end.

Definition scan_number (s : string) : option string :=
  let s1 := match s with
            | String c s' => if Ascii.eqb c "-" then s' else s
            | EmptyString => s
            end in
  match scan_int s1 with
  | Some r => Some (scan_exp (scan_frac r))
  | None => None
  end.

Definition or_else {A : Type} (x y : option A) : option A :=
  match x with
  | Some _ => x
  | None => y
  end.

(** A value that is neither a string, an array nor an object: the three
    names, a number, or one of the constants the decoder accepts beside
    the standard. *)
Definition scan_atom (s : string) : option string :=
  or_else (strip "null" s)
    (or_else (strip "true" s)
       (or_else (strip "false" s)
          (or_else (scan_number s)
             (or_else (strip "NaN" s)
                (or_else (strip "Infinity" s) (strip "-Infinity" s)))))).

(** The decoder inside a value whose content the program never looks at:
    the open brackets, and what must come next. *)
Inductive frame : Type := InArray | InObject.

Inductive expect : Type :=
| Value           (* a value *)
| ValueOrClose    (* after [[]: a value or []] *)
| KeyOrClose      (* after [{]: a key or [}] *)
| Key             (* after a comma in an object *)
| Colon           (* after a key *)
| CommaOrClose.   (* after a value inside brackets *)

(** The text after the value being read; [None] where the decoder
    raises.  Each call consumes a character, so the length of the text is
    fuel enough. *)
Fixpoint walk (fuel : nat) (e : expect) (stack : list frame) (s : string) :
  option string :=
  match fuel with
  | 0 => None
  | S fuel' =>
      let after (st : list frame) (r : string) :=
        match st with
        | [] => Some r
        | _ => walk fuel' CommaOrClose st r
        end in
      let value (c : ascii) (r s0 : string) :=
        if Ascii.eqb c dquote then
          match scanstring r with
          | Some (_, r') => after stack r'
          | None => None
          end
        else if Ascii.eqb c "[" then walk fuel' ValueOrClose (InArray :: stack) r
        else if Ascii.eqb c "{" then walk fuel' KeyOrClose (InObject :: stack) r
        else match scan_atom s0 with
             | Some r' => after stack r'
             | None => None
             end in
      let key (c : ascii) (r : string) :=
        if Ascii.eqb c dquote then
          match scanstring r with
          | Some (_, r') => walk fuel' Colon stack r'
          | None => None
          end
        else None in
      match skip_ws s with
      | EmptyString => None
      | String c r =>
          match e with
          | Value => value c r (String c r)
          | ValueOrClose =>
              if Ascii.eqb c "]" then
                match stack with
                | InArray :: st => after st r
                | _ => None
                end
              else value c r (String c r)
          | KeyOrClose =>
              if Ascii.eqb c "}" then
                match stack with
                | InObject :: st => after st r
                | _ => None
                end
              else key c r
          | Key => key c r
          | Colon => if Ascii.eqb c ":" then walk fuel' Value stack r else None
          | CommaOrClose =>
              match stack with
              | InArray :: st =>
                  if Ascii.eqb c "," then walk fuel' Value stack r
                  else if Ascii.eqb c "]" then after st r
                  else None
              | InObject :: st =>
                  if Ascii.eqb c "," then walk fuel' Key stack r
                  else if Ascii.eqb c "}" then after st r
                  else None
              | [] => None
              end
          end
      end
  end.

(** One value of any shape: the text after it. *)
Definition skip_value (s : string) : option string :=
  walk (S (String.length s)) Value [] s.

(** The items of an array after [[] and white space, when the array is
    not empty: the items that are strings, and the text after []].
    [fuel] bounds the number of items. *)
Fixpoint parse_items (fuel : nat) (s : string) :
  option (list string * string) :=
  match fuel with
  | 0 => None
  | S fuel' =>
      match s with
      | String q s1 =>
          if Ascii.eqb q dquote then
            match scanstring s1 with
            | Some (v, rest) =>
                match skip_ws rest with
                | String d rest' =>
                    if Ascii.eqb d "]" then Some ([v], rest')
                    else if Ascii.eqb d "," then
                      match parse_items fuel' (skip_ws rest') with
                      | Some (vs, r) => Some (v :: vs, r)
                      | None => None
                      end
                    else None
                | EmptyString => None
                end
            | None => None
            end
          else
            match skip_value s with
            | Some rest =>
                match skip_ws rest with
                | String d rest' =>
                    if Ascii.eqb d "]" then Some ([], rest')
                    else if Ascii.eqb d "," then
                      parse_items fuel' (skip_ws rest')
                    else None
                | EmptyString => None
                end
            | None => None
            end
      | EmptyString => None
      end
  end.

(** The keys of an object after [{] and white space, when the object is
    not empty, and the text after [}]. *)
Fixpoint parse_members (fuel : nat) (s : string) :
  option (list string * string) :=
  match fuel with
  | 0 => None
  | S fuel' =>
      match s with
      | String q s1 =>
          if Ascii.eqb q dquote then
            match scanstring s1 with
            | Some (k, rest) =>
                match skip_ws rest with
                | String c rest1 =>
                    if Ascii.eqb c ":" then
                      match skip_value rest1 with
                      | Some rest2 =>
                          match skip_ws rest2 with
                          | String d rest3 =>
                              if Ascii.eqb d "}" then Some ([k], rest3)
                              else if Ascii.eqb d "," then
                                match parse_members fuel' (skip_ws rest3) with
                                | Some (ks, r) => Some (k :: ks, r)
                                | None => None
                                end
                              else None
                          | EmptyString => None
                          end
                      | None => None
                      end
                    else None
                | EmptyString => None
                end
            | None => None
            end
          else None
      | EmptyString => None
      end
  end.

(** The end of the document: only white space may follow the value. *)
Definition finish (v : pyvalue) (rest : string) : result pyvalue :=
  match skip_ws rest with
  | EmptyString => Ok v
  | _ => Raise "JSONDecodeError"
  end.

(** [json.loads(text)]: the value, or [Raise] where the decoder raises
    (the text of its message is not modelled).  Not modelled: the limits
    of the interpreter on the depth of nesting and on the number of
    digits of an integer. *)
Definition loads (text : string) : result pyvalue :=
  match skip_ws text with
  | String b s1 =>
      if Ascii.eqb b "[" then
        match skip_ws s1 with
        | String c s2 =>
            if Ascii.eqb c "]" then finish (PyList []) s2
            else
              match parse_items (String.length s1) (skip_ws s1) with
              | Some (l, rest) => finish (PyList l) rest
              | None => Raise "JSONDecodeError"
              end
        | EmptyString => Raise "JSONDecodeError"
        end
      else if Ascii.eqb b "{" then
        match skip_ws s1 with
        | String c s2 =>
            if Ascii.eqb c "}" then finish (PyDict []) s2
            else
              match parse_members (String.length s1) (skip_ws s1) with
              | Some (l, rest) => finish (PyDict l) rest
              | None => Raise "JSONDecodeError"
              end
        | EmptyString => Raise "JSONDecodeError"
        end
      else if Ascii.eqb b dquote then
        match scanstring s1 with
        | Some (v, rest) => finish (PyString v) rest
        | None => Raise "JSONDecodeError"
        end
      else
        match scan_atom (String b s1) with
        | Some rest => finish PyScalar rest
        | None => Raise "JSONDecodeError"
        end
  | EmptyString => Raise "JSONDecodeError"
  end.

End Json.

(* ===================================================================== *)
(** ** The arithmetic of the progress value *)
(* ===================================================================== *)

Module PyFloat.

(** binary64 *)
Definition prec : Z := 53.
Definition emax : Z := 1024.

(** An integer as an exact, not yet rounded, floating-point datum. *)
Definition exact (n : Z) : spec_float :=
  match n with
  | Z0 => S754_zero false
  | Zpos p => S754_finite false p 0
  | Zneg p => S754_finite true p 0
  end.

(** [a / b] on integers: the correctly rounded quotient. *)
Definition truediv (a b : Z) : result spec_float :=
  if (b =? 0)%Z then Raise "division by zero"
  else match SFdiv prec emax (exact a) (exact b) with
       | S754_infinity _ | S754_nan =>
           Raise "integer division result too large for a float"
       | q => Ok q
       end.

(** [float(n)] *)
Definition of_int (n : Z) : spec_float :=
  binary_normalize prec emax n 0 false.

(** [x * y] on floats *)
Definition mul (x y : spec_float) : spec_float := SFmul prec emax x y.

(** [int(x)]: truncation towards zero. *)
Definition to_int (x : spec_float) : result Z :=
  match x with
  | S754_zero _ => Ok 0%Z
  | S754_finite s m e => Ok (cond_Zopp s (Z.shiftl (Zpos m) e))
  | S754_infinity _ => Raise "cannot convert float infinity to integer"
  | S754_nan => Raise "cannot convert float NaN to integer"
  end.

(** [int((i + 1) / total * 100)] *)
Definition percent (i total : nat) : result Z :=
  match truediv (Z.of_nat (i + 1)) (Z.of_nat total) with
  | Ok q => to_int (mul q (of_int 100))
  | Raise e => Raise e
  end.

End PyFloat.

(* ===================================================================== *)
(** ** Files, signals and effects *)
(* ===================================================================== *)

(** What opening [checked_usernames.json] for reading finds. *)
Inductive store_file : Type :=
| NoFile                      (* FileNotFoundError *)
| Unreadable (e : string)     (* any other failure of open/read *)
| Content (text : string).

(** The files the program touches.  [checked_open_w] and
    [available_open_a] say whether opening for writing / appending
    succeeds; [read_text path] is what
    [open(path, 'r', encoding='UTF-8', errors='replace').read()] returns. *)
Record FileSystem : Type := {
  CHECKED_USERNAMES_FILE : store_file;
  checked_open_w : result unit;
  AVAILABLE_USERNAMES_FILE : string;
  available_open_a : result unit;
  read_text : string -> result string
}.

Definition set_checked_file (fs : FileSystem) (c : store_file) : FileSystem :=
  {| CHECKED_USERNAMES_FILE := c;
     checked_open_w := checked_open_w fs;
     AVAILABLE_USERNAMES_FILE := AVAILABLE_USERNAMES_FILE fs;
     available_open_a := available_open_a fs;
     read_text := read_text fs |}.

Definition set_available_file (fs : FileSystem) (c : string) : FileSystem :=
  {| CHECKED_USERNAMES_FILE := CHECKED_USERNAMES_FILE fs;
     checked_open_w := checked_open_w fs;
     AVAILABLE_USERNAMES_FILE := c;
     available_open_a := available_open_a fs;
     read_text := read_text fs |}.

(** The lines written to the two log panes. *)
Inductive message : Type :=
| Available (username : string)       (* the name is free *)
| Taken (username : string)           (* the name is in use *)
| Failed (username e : string)        (* the probe raised [e] *)
| NoUsernames                         (* the file holds no names *)
| ReadFailed (e : string).            (* reading the file raised [e] *)

(** The four signals of [CheckerThread]. *)
Inductive signal : Type :=
| signal_update_taken_log (m : message)
| signal_update_available_log (m : message)
| signal_update_progress (v : Z)
| signal_finished.

Inductive warning : Type :=
| LoadWarning (e : string)   (* printed by load_checked_usernames *)
| SaveWarning (e : string)   (* printed by save_checked_usernames *)
| RunWarning (e : string).   (* printed by the except clause of run *)

(** What a thread does to the outside, in the order it does it. *)
Inductive effect : Type :=
| Emit (s : signal)
| Get (username : string)         (* the GET request is issued *)
| Write (username : string)       (* a line is appended to available.txt *)
| Save (l : list string)          (* save_checked_usernames is called *)
| Print (x : warning)             (* a line on standard output *)
| Sleep.                          (* asyncio.sleep is entered *)

(** State shared by the threads of the process: the files and the position
    in the stream of the [random] module. *)
Record World : Type := {
  fs : FileSystem;
  rng : nat
}.

(** What the process cannot control: the answers of the server and the
    draws of the random generator.  [http_get username] is the text of the
    response to [GET https://steamcommunity.com/id/{username}], or the
    exception raised by the request. *)
Record Env : Type := {
  http_get : string -> result string;
  random : nat -> nat
}.

(* ===================================================================== *)
(** ** Helper functions *)
(* ===================================================================== *)

Definition ascii_lowercase : string := "abcdefghijklmnopqrstuvwxyz".
Definition digits : string := "0123456789".

(** [random.choice(characters)] on the raw draw [r]. *)
Definition choice (characters : string) (r : nat) : ascii :=
  match String.get (r mod String.length characters) characters with
  | Some c => c
  | None => "a"%char
  end.

Fixpoint choices (characters : string) (random : nat -> nat) (pos n : nat) :
  string :=
  match n with
  | 0 => ""
  | S n' => String (choice characters (random pos))
              (choices characters random (S pos) n')
  end.

(** [generate_username(length, use_digits, use_underscore)], reading the
    random stream from position [pos]; returns the name and the new
    position.  The [except] branch of the source cannot be reached:
    [characters] is never empty. *)
Definition generate_username (random : nat -> nat) (pos : nat)
  (length : nat) (use_digits use_underscore : bool) : string * nat :=
  let characters := ascii_lowercase in
  let characters := if use_digits then characters ++ digits else characters in
  let characters := if use_underscore then characters ++ "_" else characters in
  (choices characters random pos length, pos + length).

(** [load_checked_usernames()]: the value returned and what was printed.
    What [json.load] returns is passed on as it is, a list or not. *)
Definition load_checked_usernames (fs : FileSystem) :
  pyvalue * list effect :=
  match CHECKED_USERNAMES_FILE fs with
  | NoFile => (PyList [], [])
  | Unreadable e => (PyList [], [Print (LoadWarning e)])
  | Content text =>
      match Json.loads text with
      | Ok v => (v, [])
      | Raise e => (PyList [], [Print (LoadWarning e)])
      end
  end.

(** [save_checked_usernames(checked_usernames)] *)
Definition save_checked_usernames (fs : FileSystem)
  (checked_usernames : list string) : FileSystem * list effect :=
  match checked_open_w fs with
  | Ok _ => (set_checked_file fs (Content (Json.dumps checked_usernames)), [])
  | Raise e => (fs, [Print (SaveWarning e)])
  end.

(** The marker of the error page. *)
Definition error_ctn : string :=
  "<div class=" ++ String Json.dquote "error_ctn" ++ String Json.dquote ">".

Local Open Scope list_scope.

(* ===================================================================== *)
(** ** The worker thread *)
(* ===================================================================== *)

Inductive mode : Type :=
| file        (* "file" *)
| generate.   (* "generate" *)

(** The loop a thread is in: the [for] of [check_usernames_from_file],
    with the list read and the index of the next item, or the [while] of
    [generate_and_check_usernames]. *)
Inductive loop : Type :=
| FileLoop (usernames : list string) (i : nat)
| GenerateLoop.

(** Program points of [run].  Between two of them the thread does not
    wait for anything. *)
Inductive pc : Type :=
| Started                               (* start() was called *)
| LoopHead (l : loop)                   (* about to test the loop condition *)
| Calling (l : loop) (username : string) (* check_username is entered *)
| Waiting (l : loop) (username : string) (* the request is in flight *)
| Sleeping (l : loop) (username : string) (* in asyncio.sleep *)
| Finishing                             (* the finally clause of run *)
| Finished.                             (* run has returned *)

Module CheckerThread.

Record t : Type := {
  mode_ : mode;
  usernames_file : string;
  length : nat;
  use_digits : bool;
  use_underscore : bool;
  checked_usernames : pyvalue;
  running : bool;
  at_ : pc
}.

(** [__init__]: what [load_checked_usernames] returns is stored when the
    thread object is built. *)
Definition init (fs : FileSystem) (m : mode) (usernames_file : string)
  (length : nat) (use_digits use_underscore : bool) : t :=
  {| mode_ := m;
     usernames_file := usernames_file;
     length := length;
     use_digits := use_digits;
     use_underscore := use_underscore;
     checked_usernames := fst (load_checked_usernames fs);
     running := true;
     at_ := Started |}.

Definition goto (th : t) (p : pc) : t :=
  {| mode_ := mode_ th;
     usernames_file := usernames_file th;
     length := length th;
     use_digits := use_digits th;
     use_underscore := use_underscore th;
     checked_usernames := checked_usernames th;
     running := running th;
     at_ := p |}.

Definition set_checked_usernames (th : t) (l : pyvalue) : t :=
  {| mode_ := mode_ th;
     usernames_file := usernames_file th;
     length := length th;
     use_digits := use_digits th;
     use_underscore := use_underscore th;
     checked_usernames := l;
     running := running th;
     at_ := at_ th |}.

(** [stop()] *)
Definition stop (th : t) : t :=
  {| mode_ := mode_ th;
     usernames_file := usernames_file th;
     length := length th;
     use_digits := use_digits th;
     use_underscore := use_underscore th;
     checked_usernames := checked_usernames th;
     running := false;
     at_ := at_ th |}.

(** [check_username] from the arrival of the reply to the call of
    [asyncio.sleep]. *)
Definition check_username (fs : FileSystem) (username : string)
  (reply : result string) : FileSystem * list effect :=
  match reply with
  | Ok text =>
      if PyStr.contains error_ctn text then
        match available_open_a fs with
        | Ok _ =>
            (set_available_file fs
               (AVAILABLE_USERNAMES_FILE fs ++ username
                  ++ String PyStr.LF "")%string,
             [Emit (signal_update_available_log (Available username));
              Write username; Sleep])
        | Raise e =>
            (fs,
             [Emit (signal_update_available_log (Available username));
              Emit (signal_update_taken_log (Failed username e)); Sleep])
        end
      else (fs, [Emit (signal_update_taken_log (Taken username)); Sleep])
  | Raise e => (fs, [Emit (signal_update_taken_log (Failed username e)); Sleep])
  end.

Definition set_fs (w : World) (f : FileSystem) : World :=
  {| fs := f; rng := rng w |}.

Definition set_rng (w : World) (n : nat) : World :=
  {| fs := fs w; rng := n |}.

(** One atomic step of [run].  In the loop of
    [generate_and_check_usernames] the test [username not in
    self.checked_usernames] and the call of [append] raise on a value
    that does not support them; the exception leaves the loop and
    [run_checks], is printed by the [except] clause of [run], and the
    [finally] clause follows. *)
Definition step (env : Env) (w : World) (th : t) : World * t * list effect :=
  match at_ th with
  | Started =>
      match mode_ th with
      | file =>
          match read_text (fs w) (usernames_file th) with
          | Ok text =>
              match PyStr.splitlines text with
              | [] => (w, goto th Finishing,
                       [Emit (signal_update_taken_log NoUsernames)])
              | usernames => (w, goto th (LoopHead (FileLoop usernames 0)), [])
              end
          | Raise e => (w, goto th Finishing,
                        [Emit (signal_update_taken_log (ReadFailed e))])
          end
      | generate => (w, goto th (LoopHead GenerateLoop), [])
      end
  | LoopHead (FileLoop usernames i) =>
      match nth_error usernames i with
      | Some username =>
          if running th then (w, goto th (Calling (FileLoop usernames i) username), [])
          else (w, goto th Finishing, [])
      | None => (w, goto th Finishing, [])
      end
  | LoopHead GenerateLoop =>
      if running th then
        let '(username, pos) :=
          generate_username (random env) (rng w) (length th)
            (use_digits th) (use_underscore th) in
        if PyStr.truthy username then
          match PyValue.contains username (checked_usernames th) with
          | Ok false =>
              match PyValue.append (checked_usernames th) username with
              | Ok checked =>
                  let '(f, printed) := save_checked_usernames (fs w) checked in
                  ({| fs := f; rng := pos |},
                   goto (set_checked_usernames th (PyList checked))
                     (Calling GenerateLoop username),
                   Save checked :: printed)
              | Raise e =>
                  (set_rng w pos, goto th Finishing, [Print (RunWarning e)])
              end
          | Ok true => (set_rng w pos, th, [])
          | Raise e =>
              (set_rng w pos, goto th Finishing, [Print (RunWarning e)])
          end
        else (set_rng w pos, th, [])
      else (w, goto th Finishing, [])
  | Calling l username => (w, goto th (Waiting l username), [Get username])
  | Waiting l username =>
      let '(f, out) := check_username (fs w) username (http_get env username) in
      (set_fs w f, goto th (Sleeping l username), out)
  | Sleeping (FileLoop usernames i) _ =>
      match PyFloat.percent i (List.length usernames) with
      | Ok v => (w, goto th (LoopHead (FileLoop usernames (S i))),
                 [Emit (signal_update_progress v)])
      | Raise e => (w, goto th Finishing,
                    [Emit (signal_update_taken_log (ReadFailed e))])
      end
  | Sleeping GenerateLoop _ => (w, goto th (LoopHead GenerateLoop), [])
  | Finishing => (w, goto th Finished, [Emit signal_finished])
  | Finished => (w, th, [])
  end.

(** What happens to a thread: it is scheduled for a step, or [stop()]
    is called on it from the main thread. *)
Inductive request : Type := Step | Stop.

(** The thread under a schedule; the effects of all steps, in order. *)
Fixpoint run (env : Env) (sched : list request) (w : World) (th : t) :
  World * t * list effect :=
  match sched with
  | [] => (w, th, [])
  | Step :: sched' =>
      let '(w1, th1, out1) := step env w th in
      let '(w2, th2, out2) := run env sched' w1 th1 in
      (w2, th2, out1 ++ out2)
  | Stop :: sched' => run env sched' w (stop th)
  end.

Definition is_finished (th : t) : bool :=
  match at_ th with Finished => true | _ => false end.

(** [wait()]: the caller is blocked until [run] has returned. [None]:
    the thread was still running when the fuel ran out. *)
Fixpoint wait (fuel : nat) (env : Env) (w : World) (th : t) :
  option (World * t * list effect) :=
  if is_finished th then Some (w, th, [])
  else match fuel with
       | 0 => None
       | S fuel' =>
           let '(w1, th1, out1) := step env w th in
           match wait fuel' env w1 th1 with
           | Some (w2, th2, out2) => Some (w2, th2, out1 ++ out2)
           | None => None
           end
       end.

End CheckerThread.

(** The names probed, the progress values and the log lines among a list
    of effects. *)
Definition gets (out : list effect) : list string :=
  flat_map (fun e => match e with Get u => [u] | _ => [] end) out.

Definition progress_values (out : list effect) : list Z :=
  flat_map (fun e => match e with
                     | Emit (signal_update_progress v) => [v]
                     | _ => []
                     end) out.

Definition messages (out : list effect) : list message :=
  flat_map (fun e => match e with
                     | Emit (signal_update_taken_log m) => [m]
                     | Emit (signal_update_available_log m) => [m]
                     | _ => []
                     end) out.

Definition finished_signals (out : list effect) : nat :=
  List.length (filter (fun e => match e with
                                | Emit signal_finished => true
                                | _ => false
                                end) out).

(** The verdict of a probe: its first log line. *)
Definition verdict (out : list effect) : option message :=
  hd_error (messages out).

(* ===================================================================== *)
(** ** The main window *)
(* ===================================================================== *)

(** The entries of the speed box and the number of threads of each. *)
Inductive speed : Type := Slow | Normal | Fast.

Definition speed_mapping (s : speed) : nat :=
  match s with
  | Slow => 1
  | Normal => 3
  | Fast => 5
  end.

Module MainWindow.

Record t : Type := {
  threads : list CheckerThread.t;
  taken_log_text : list message;
  available_log_text : list message;
  progress_bar : Z;
  stop_button_enabled : bool;
  file_button_enabled : bool;
  generate_button_stops : bool;   (* the button reads "stop generation" *)
  information_boxes : nat         (* "checking is finished" boxes shown *)
}.

(** The window after [__init__]. *)
Definition init : t :=
  {| threads := [];
     taken_log_text := [];
     available_log_text := [];
     progress_bar := 0;
     stop_button_enabled := false;
     file_button_enabled := true;
     generate_button_stops := false;
     information_boxes := 0 |}.

Definition set_threads (win : t) (l : list CheckerThread.t) : t :=
  {| threads := l;
     taken_log_text := taken_log_text win;
     available_log_text := available_log_text win;
     progress_bar := progress_bar win;
     stop_button_enabled := stop_button_enabled win;
     file_button_enabled := file_button_enabled win;
     generate_button_stops := generate_button_stops win;
     information_boxes := information_boxes win |}.

Definition set_stop_button (win : t) (b : bool) : t :=
  {| threads := threads win;
     taken_log_text := taken_log_text win;
     available_log_text := available_log_text win;
     progress_bar := progress_bar win;
     stop_button_enabled := b;
     file_button_enabled := file_button_enabled win;
     generate_button_stops := generate_button_stops win;
     information_boxes := information_boxes win |}.

Definition set_mode_buttons (win : t) (file_enabled stops : bool) : t :=
  {| threads := threads win;
     taken_log_text := taken_log_text win;
     available_log_text := available_log_text win;
     progress_bar := progress_bar win;
     stop_button_enabled := stop_button_enabled win;
     file_button_enabled := file_enabled;
     generate_button_stops := stops;
     information_boxes := information_boxes win |}.

Definition update_taken_log (win : t) (m : message) : t :=
  {| threads := threads win;
     taken_log_text := taken_log_text win ++ [m];
     available_log_text := available_log_text win;
     progress_bar := progress_bar win;
     stop_button_enabled := stop_button_enabled win;
     file_button_enabled := file_button_enabled win;
     generate_button_stops := generate_button_stops win;
     information_boxes := information_boxes win |}.

Definition update_available_log (win : t) (m : message) : t :=
  {| threads := threads win;
     taken_log_text := taken_log_text win;
     available_log_text := available_log_text win ++ [m];
     progress_bar := progress_bar win;
     stop_button_enabled := stop_button_enabled win;
     file_button_enabled := file_button_enabled win;
     generate_button_stops := generate_button_stops win;
     information_boxes := information_boxes win |}.

Definition update_progress (win : t) (v : Z) : t :=
  {| threads := threads win;
     taken_log_text := taken_log_text win;
     available_log_text := available_log_text win;
     progress_bar := v;
     stop_button_enabled := stop_button_enabled win;
     file_button_enabled := file_button_enabled win;
     generate_button_stops := generate_button_stops win;
     information_boxes := information_boxes win |}.

(** The connections made by [start_checking]: the two logs and the
    progress bar.  [signal_finished] is left unconnected (the call to
    [connect] is commented out in the source), so the window does not
    see it. *)
Definition deliver (win : t) (e : effect) : t :=
  match e with
  | Emit (signal_update_taken_log m) => update_taken_log win m
  | Emit (signal_update_available_log m) => update_available_log win m
  | Emit (signal_update_progress v) => update_progress win v
  | _ => win
  end.

(** [checking_finished()] *)
Definition checking_finished (win : t) : t :=
  let win := match threads win with
             | [] => win
             | _ => set_threads win (removelast (threads win))
             end in
  match threads win with
  | [] =>
      {| threads := [];
         taken_log_text := taken_log_text win;
         available_log_text := available_log_text win;
         progress_bar := progress_bar win;
         stop_button_enabled := false;
         file_button_enabled := true;
         generate_button_stops := false;
         information_boxes := S (information_boxes win) |}
  | _ => win
  end.

End MainWindow.

(** The process: the shared state, the window, and the effects of the
    threads so far, each with the index its thread had in
    [MainWindow.threads]. *)
Record System : Type := {
  world : World;
  window : MainWindow.t;
  history : list (nat * effect)
}.

Definition boot (w : World) : System :=
  {| world := w; window := MainWindow.init; history := [] |}.

Definition tag (k : nat) (out : list effect) : list (nat * effect) :=
  map (fun e => (k, e)) out.

Fixpoint replace_nth {A : Type} (k : nat) (x : A) (l : list A) : list A :=
  match l, k with
  | [], _ => []
  | _ :: l', 0 => x :: l'
  | y :: l', S k' => y :: replace_nth k' x l'
  end.

(** [start_checking(mode, usernames_file, length, use_digits,
    use_underscore, num_threads)]: the threads are built and started one
    after the other; no condition is tested first.  The loop is taken as
    one action of the main thread: no thread takes a step between two
    turns of it, so that the threads of one call have loaded the same
    store.  In the program a thread started by an earlier turn can have
    saved a name before a later turn loads the store.  A call that starts
    one thread, as [choose_file] does, is not concerned; what depends on
    the value a thread loaded is stated thread by thread. *)
Definition start_checking (sys : System) (m : mode) (usernames_file : string)
  (length : nat) (use_digits use_underscore : bool) (num_threads : nat) :
  System :=
  let th := CheckerThread.init (fs (world sys)) m usernames_file length
              use_digits use_underscore in
  {| world := world sys;
     window := MainWindow.set_stop_button
                 (MainWindow.set_threads (window sys)
                    (MainWindow.threads (window sys) ++ repeat th num_threads))
                 true;
     history := history sys |}.

(** [choose_file()], [filename] being the answer of the file dialog. *)
Definition choose_file (sys : System) (filename : string) : System :=
  if PyStr.truthy filename then start_checking sys file filename 3 true true 1
  else sys.

(** The loop of [stop_checking]: each thread in turn is told to stop and
    waited for. [k] is the index of the first thread of [l].  The threads
    further down the list go on running during a wait; their steps are
    not interleaved here, they are taken when their own turn comes. *)
Fixpoint stop_and_wait (fuel : nat) (env : Env) (k : nat) (w : World)
  (l : list CheckerThread.t) :
  option (World * list CheckerThread.t * list (nat * effect)) :=
  match l with
  | [] => Some (w, [], [])
  | th :: l' =>
      match CheckerThread.wait fuel env w (CheckerThread.stop th) with
      | Some (w1, th1, out1) =>
          match stop_and_wait fuel env (S k) w1 l' with
          | Some (w2, l2, out2) => Some (w2, th1 :: l2, tag k out1 ++ out2)
          | None => None
          end
      | None => None
      end
  end.

(** [stop_checking()]. [None]: a thread did not finish within [fuel]
    steps of being stopped. *)
Definition stop_checking (fuel : nat) (env : Env) (sys : System) :
  option System :=
  match stop_and_wait fuel env 0 (world sys) (MainWindow.threads (window sys)) with
  | Some (w, _, out) =>
      let win := fold_left MainWindow.deliver (map snd out) (window sys) in
      let win := MainWindow.set_threads win [] in
      let win := MainWindow.set_stop_button win false in
      Some {| world := w;
              window := MainWindow.checking_finished win;
              history := history sys ++ out |}
  | None => None
  end.

(** [start_generation()], with the values of the widgets when the button
    is pressed. *)
Definition start_generation (fuel : nat) (env : Env) (sys : System)
  (length : nat) (use_digits use_underscore : bool) (s : speed) :
  option System :=
  match MainWindow.threads (window sys) with
  | [] =>
      let sys := start_checking sys generate "" length use_digits
                   use_underscore (speed_mapping s) in
      Some {| world := world sys;
              window := MainWindow.set_mode_buttons (window sys) false true;
              history := history sys |}
  | _ =>
      match stop_checking fuel env sys with
      | Some sys =>
          Some {| world := world sys;
                  window := MainWindow.set_mode_buttons (window sys) true false;
                  history := history sys |}
      | None => None
      end
  end.

(** What can happen next in the process. *)
Inductive action : Type :=
| Schedule (k : nat)              (* thread [k] of the list takes a step *)
| ClickFile (filename : string)   (* file button, then the dialog's answer *)
| ClickGenerate (length : nat) (use_digits use_underscore : bool) (s : speed)
| ClickStop.

(** One action.  A click on a disabled button and the scheduling of a
    thread that does not exist change nothing. *)
Definition act (fuel : nat) (env : Env) (a : action) (sys : System) :
  option System :=
  match a with
  | Schedule k =>
      match nth_error (MainWindow.threads (window sys)) k with
      | Some th =>
          let '(w, th', out) := CheckerThread.step env (world sys) th in
          let win := fold_left MainWindow.deliver out (window sys) in
          Some {| world := w;
                  window := MainWindow.set_threads win
                              (replace_nth k th' (MainWindow.threads win));
                  history := history sys ++ tag k out |}
      | None => Some sys
      end
  | ClickFile filename =>
      if MainWindow.file_button_enabled (window sys)
      then Some (choose_file sys filename)
      else Some sys
  | ClickGenerate length use_digits use_underscore s =>
      start_generation fuel env sys length use_digits use_underscore s
  | ClickStop =>
      if MainWindow.stop_button_enabled (window sys)
      then stop_checking fuel env sys
      else Some sys
  end.

Fixpoint acts (fuel : nat) (env : Env) (l : list action) (sys : System) :
  option System :=
  match l with
  | [] => Some sys
  | a :: l' =>
      match act fuel env a sys with
      | Some sys' => acts fuel env l' sys'
      | None => None
      end
  end.

(** The names probed by the process, in the order of the requests. *)
Definition probed (sys : System) : list string :=
  gets (map snd (history sys)).

(* ===================================================================== *)
(** ** Vocabulary of the properties and test fixtures *)
(* ===================================================================== *)

(** A server for tests: the error page for [abc], a profile page for
    [bob], no answer for anyone else. *)
Definition fake_transport : Env :=
  {| http_get := fun username =>
       if String.eqb username "abc"
       then Ok ("<html><body>" ++ error_ctn ++ "<h3>Error</h3></div></body></html>")%string
       else if String.eqb username "bob"
       then Ok "<html><body><div class=profile_page>bob</div></body></html>"
       else Raise "Cannot connect to host steamcommunity.com:443";
     random := fun _ => 0 |}.

(** A disk with no store yet, where every write succeeds and the only
    readable list of names is [names.txt]. *)
Definition fresh_disk (names : string) : FileSystem :=
  {| CHECKED_USERNAMES_FILE := NoFile;
     checked_open_w := Ok tt;
     AVAILABLE_USERNAMES_FILE := "";
     available_open_a := Ok tt;
     read_text := fun path =>
       if String.eqb path "names.txt" then Ok names
       else Raise "[Errno 2] No such file or directory" |}.

Definition fresh_world (names : string) : World :=
  {| fs := fresh_disk names; rng := 0 |}.

(** The same disk with a store that holds [text]. *)
Definition stored (text : string) : FileSystem :=
  set_checked_file (fresh_disk "") (Content text).

(** A thread whose request for [username] is in flight. *)
Definition in_flight (l : loop) (username : string) : CheckerThread.t :=
  {| CheckerThread.mode_ := file;
     CheckerThread.usernames_file := "names.txt";
     CheckerThread.length := 3;
     CheckerThread.use_digits := true;
     CheckerThread.use_underscore := true;
     CheckerThread.checked_usernames := PyList [];
     CheckerThread.running := true;
     CheckerThread.at_ := Waiting l username |}.

(** The effects of the step that receives the reply. *)
Definition reply_effects (env : Env) (w : World) (th : CheckerThread.t) :
  list effect :=
  snd (CheckerThread.step env w th).

(** The claim of the specification: the name is in the file before the
    window hears of it. *)
Definition recorded_before_reported (username : string) (out : list effect) :
  Prop :=
  exists o1 o2,
    out = o1 ++ Emit (signal_update_available_log (Available username)) :: o2
    /\ In (Write username) o1.

(** The number of steps a schedule grants. *)
Definition steps (sched : list CheckerThread.request) : nat :=
  List.length (filter (fun r => match r with
                                | CheckerThread.Step => true
                                | CheckerThread.Stop => false
                                end) sched).

(** The candidate a thread has chosen and not yet requested. *)
Definition pending (p : pc) : list string :=
  match p with
  | Calling _ username => [username]
  | _ => []
  end.

(** A bound on the steps a stopped thread still takes. *)
Definition rank (p : pc) : nat :=
  match p with
  | Started => 3
  | LoopHead _ => 2
  | Calling _ _ => 5
  | Waiting _ _ => 4
  | Sleeping _ _ => 3
  | Finishing => 1
  | Finished => 0
  end.

(** Three lines, the second one empty. *)
Definition names_with_gap : string :=
  String "a" (String PyStr.LF (String PyStr.LF (String "b" (String PyStr.LF "")))).

(** The thread [choose_file] starts on [names.txt]. *)
Definition file_thread (w : World) : CheckerThread.t :=
  CheckerThread.init (fs w) file "names.txt" 3 true true.

Definition done_count (p : pc) : nat :=
  match p with
  | Finished => 1
  | _ => 0
  end.

(** One name on one line. *)
Definition one_name : string :=
  String "b" (String "o" (String "b" (String PyStr.LF ""))).

(** Every request of [out] comes after a call of [save_checked_usernames]
    on a list that holds the requested name. *)
Definition saved_before_get (out : list effect) : Prop :=
  forall o1 username o2,
    out = o1 ++ Get username :: o2 ->
    exists l, In (Save l) o1 /\ In username l.

(** The program points of a thread in generate mode. *)
Definition generate_pc (p : pc) : Prop :=
  match p with
  | LoopHead (FileLoop _ _) | Calling (FileLoop _ _) _
  | Waiting (FileLoop _ _) _ | Sleeping (FileLoop _ _) _ => False
  | _ => True
  end.

(** The value [v] of a thread that loaded [loaded] and has chosen the
    names [chosen]: a list that was loaded has grown by these names;
    another value is as it was loaded, and no name was chosen. *)
Definition grown (loaded v : pyvalue) (chosen : list string) : Prop :=
  match loaded with
  | PyList l => v = PyList (l ++ chosen)
  | _ => v = loaded /\ chosen = []
  end.

(** What holds of a generating thread that loaded [loaded] and has had
    the effects [done]: its value is what it loaded, grown by the names
    it requested and the name it is about to request. *)
Definition generating (loaded : pyvalue) (th : CheckerThread.t)
  (done : list effect) : Prop :=
  CheckerThread.mode_ th = generate
  /\ generate_pc (CheckerThread.at_ th)
  /\ grown loaded (CheckerThread.checked_usernames th)
       (gets done ++ pending (CheckerThread.at_ th))
  /\ NoDup (gets done ++ pending (CheckerThread.at_ th))
  /\ (forall x, In x (gets done ++ pending (CheckerThread.at_ th)) ->
                ~ In x (PyValue.names loaded))
  /\ saved_before_get done
  /\ (forall x, In x (pending (CheckerThread.at_ th)) ->
                exists l, In (Save l) done /\ In x l).

(** The store on disk is the list of the thread. *)
Definition persisted (w : World) (th : CheckerThread.t) : Prop :=
  checked_open_w (fs w) = Ok tt
  /\ fst (load_checked_usernames (fs w)) = CheckerThread.checked_usernames th.

(** A float that is zero or whose leading bit is at most the second one
    left of the point: the quotients of the progress value are such. *)
Definition small (x : spec_float) : Prop :=
  match x with
  | S754_zero _ => True
  | S754_finite _ m e => (Zdigits2 (Zpos m) + e <= 2)%Z
  | _ => False
  end.

(* ===================================================================== *)
(** ** Vocabulary of the further properties *)
(* ===================================================================== *)

(** The characters [generate_username] draws from. *)
Definition alphabet (use_digits use_underscore : bool) : string :=
  (ascii_lowercase ++ (if use_digits then digits else "")
     ++ (if use_underscore then "_" else ""))%string.

(** The names appended to available.txt, the lists passed to
    [save_checked_usernames], the warnings of failed saves and the names
    reported as available, among a list of effects. *)
Definition writes (out : list effect) : list string :=
  flat_map (fun e => match e with Write u => [u] | _ => [] end) out.

Definition saves (out : list effect) : list (list string) :=
  flat_map (fun e => match e with Save l => [l] | _ => [] end) out.

Definition save_warnings (out : list effect) : list string :=
  flat_map (fun e => match e with Print (SaveWarning x) => [x] | _ => [] end) out.

Definition available_reports (out : list effect) : list string :=
  flat_map (fun e => match e with
                     | Emit (signal_update_available_log (Available u)) => [u]
                     | _ => []
                     end) out.

(** The lines sent on each of the two log signals. *)
Definition taken_lines (out : list effect) : list message :=
  flat_map (fun e => match e with
                     | Emit (signal_update_taken_log m) => [m]
                     | _ => []
                     end) out.

Definition available_lines (out : list effect) : list message :=
  flat_map (fun e => match e with
                     | Emit (signal_update_available_log m) => [m]
                     | _ => []
                     end) out.

(** The text of available.txt made of the given names, one per line. *)
Fixpoint as_lines (names : list string) : string :=
  match names with
  | [] => ""
  | u :: names' => (u ++ String PyStr.LF "" ++ as_lines names')%string
  end.

(** The program points of a thread in file mode. *)
Definition file_pc (p : pc) : Prop :=
  match p with
  | LoopHead GenerateLoop | Calling GenerateLoop _
  | Waiting GenerateLoop _ | Sleeping GenerateLoop _ => False
  | _ => True
  end.

(** A program point from which the thread goes on without being told to
    stop. *)
Definition in_loop (p : pc) : Prop :=
  match p with
  | Finishing | Finished => False
  | _ => True
  end.

(** The log lines of one answered request: the verdict, and the error
    line that follows when available.txt cannot be opened. *)
Definition reply_lines (appendable : result unit) (username : string)
  (reply : result string) : list message :=
  match reply with
  | Ok text =>
      if PyStr.contains error_ctn text then
        Available username ::
          match appendable with
          | Ok _ => []
          | Raise e => [Failed username e]
          end
      else [Taken username]
  | Raise e => [Failed username e]
  end.

(** What a thread in file mode finds when it opens its file: the lines to
    check, and the line it logs when there is nothing to check. *)
Definition file_lines (w : World) (th : CheckerThread.t) : list string :=
  match read_text (fs w) (CheckerThread.usernames_file th) with
  | Ok text => PyStr.splitlines text
  | Raise _ => []
  end.

Definition file_notice (w : World) (th : CheckerThread.t) : list message :=
  match read_text (fs w) (CheckerThread.usernames_file th) with
  | Ok text =>
      match PyStr.splitlines text with
      | [] => [NoUsernames]
      | _ => []
      end
  | Raise e => [ReadFailed e]
  end.

(** Where a file thread stands in the list [us]: how many names it has
    requested, how many replies it has handled, how many progress values
    it has sent. *)
Definition file_counts (us : list string) (p : pc) (rq an rp : nat) : Prop :=
  match p with
  | LoopHead (FileLoop us' i) =>
      us' = us /\ rq = i /\ an = i /\ rp = i /\ i <= List.length us
  | Calling (FileLoop us' i) u =>
      us' = us /\ rq = i /\ an = i /\ rp = i /\ nth_error us i = Some u
  | Waiting (FileLoop us' i) u =>
      us' = us /\ rq = S i /\ an = i /\ rp = i /\ nth_error us i = Some u
  | Sleeping (FileLoop us' i) u =>
      us' = us /\ rq = S i /\ an = S i /\ rp = i /\ nth_error us i = Some u
  | Finishing | Finished => rq = an /\ an = rp /\ rq <= List.length us
  | _ => False
  end.

(** What holds of a file thread that found the lines [us], logs [notice]
    when they are none, and has had the effects [done]. *)
Definition checking_file (env : Env) (us : list string) (notice : list message)
  (appendable : result unit) (w : World) (th : CheckerThread.t)
  (done : list effect) : Prop :=
  CheckerThread.mode_ th = file
  /\ available_open_a (fs w) = appendable
  /\ match CheckerThread.at_ th with
     | Started =>
         file_lines w th = us /\ file_notice w th = notice /\ done = []
     | p =>
         exists rq an rp,
           file_counts us p rq an rp
           /\ gets done = firstn rq us
           /\ List.length (progress_values done) = rp
           /\ messages done
              = notice ++ flat_map (fun u => reply_lines appendable u (http_get env u))
                            (firstn an us)
     end.

(** The index of a file thread at work points at a line of its list. *)
Definition index_in_range (p : pc) : Prop :=
  match p with
  | Calling (FileLoop us i) _ | Waiting (FileLoop us i) _
  | Sleeping (FileLoop us i) _ => i < List.length us
  | _ => True
  end.

(** The window shows what the threads have sent: the two panes hold the
    lines of the two log signals and the bar the last progress value. *)
Definition mirrored (sys : System) : Prop :=
  MainWindow.taken_log_text (window sys) = taken_lines (map snd (history sys))
  /\ MainWindow.available_log_text (window sys)
     = available_lines (map snd (history sys))
  /\ MainWindow.progress_bar (window sys)
     = last (progress_values (map snd (history sys))) 0%Z.

(** The buttons agree with the threads: the stop button is enabled when
    there are threads; while the generate button reads "stop" the file
    button is disabled and all threads generate, otherwise the file
    button is enabled and all threads check a file. *)
Definition coherent (win : MainWindow.t) : Prop :=
  (MainWindow.threads win <> [] -> MainWindow.stop_button_enabled win = true)
  /\ (if MainWindow.generate_button_stops win
      then MainWindow.file_button_enabled win = false
           /\ Forall (fun th => CheckerThread.mode_ th = generate)
                (MainWindow.threads win)
      else MainWindow.file_button_enabled win = true
           /\ Forall (fun th => CheckerThread.mode_ th = file)
                (MainWindow.threads win)).

(** The stop button is enabled only while there are threads. *)
Definition busy (win : MainWindow.t) : Prop :=
  MainWindow.stop_button_enabled win = true -> MainWindow.threads win <> [].



(** The files chosen by the clicks on the file button, among a list of
    actions; a dialog that was cancelled chooses none. *)
Definition chosen_files (l : list action) : list string :=
  flat_map (fun a => match a with
                     | ClickFile filename =>
                         if PyStr.truthy filename then [filename] else []
                     | _ => []
                     end) l.

(** Only clicks on the file button and steps of threads. *)
Definition file_session (l : list action) : Prop :=
  Forall (fun a => match a with
                   | ClickFile _ | Schedule _ => True
                   | ClickGenerate _ _ _ _ | ClickStop => False
                   end) l.

(** The program points of a generating thread that never gets to choose
    a name. *)
Definition idle_pc (p : pc) : Prop :=
  match p with
  | Started | LoopHead GenerateLoop | Finishing | Finished => True
  | _ => False
  end.

(** The texts a text starts with, itself included. *)
Fixpoint prefixes (s : string) : list string :=
  match s with
  | EmptyString => [EmptyString]
  | String c s' => EmptyString :: map (String c) (prefixes s')
  end.

(** The scanner of string literals finds no closing quote. *)
Definition unterminated (q : string) : bool :=
  match Json.scanstring q with
  | None => true
  | Some _ => false
  end.

(** The value is a list. *)
Definition is_list (v : pyvalue) : Prop :=
  match v with
  | PyList _ => True
  | PyDict _ | PyString _ | PyScalar => False
  end.

(** A name as [generate_username] makes them for the given settings, and
    that the loop accepts: not empty. *)
Definition well_formed (length : nat) (use_digits use_underscore : bool)
  (name : string) : Prop :=
  String.length name = length
  /\ name <> ""%string
  /\ Forall (fun c => In c (list_ascii_of_string (alphabet use_digits use_underscore)))
       (list_ascii_of_string name).

(** A float that is zero or positive and at most one. *)
Definition at_most_one (x : spec_float) : Prop :=
  match x with
  | S754_zero _ => True
  | S754_finite s m e => s = false /\ (e <= 0)%Z /\ (Zpos m <= 2 ^ (- e))%Z
  | _ => False
  end.

(** A disk like [fresh_disk] on which checked_usernames.json cannot be
    opened for writing. *)
Definition locked_disk (names : string) : FileSystem :=
  {| CHECKED_USERNAMES_FILE := NoFile;
     checked_open_w := Raise "[Errno 13] Permission denied";
     AVAILABLE_USERNAMES_FILE := "";
     available_open_a := Ok tt;
     read_text := read_text (fresh_disk names) |}.

Definition locked_world (names : string) : World :=
  {| fs := locked_disk names; rng := 0 |}.

(** The server of [fake_transport] with a generator that counts: the
    names drawn are abc, def, ghi and so on. *)
Definition counting_transport : Env :=
  {| http_get := http_get fake_transport; random := fun n => n |}.

(** The thread [start_generation] starts with the default settings. *)
Definition generate_thread (w : World) : CheckerThread.t :=
  CheckerThread.init (fs w) generate "" 3 true true.

(* ===================================================================== *)
(** * Properties *)
(* ===================================================================== *)

(** The ways through the head of the generating loop for the name [u]:
    the name is in the value; the name is appended; [append] raises;
    the test [in] raises; the name is empty. *)
Ltac generate_cases u th :=
  destruct (PyStr.truthy u) eqn:?Htruthy;
  [destruct (PyValue.contains u (CheckerThread.checked_usernames th))
     as [[|]|?e] eqn:?Hin;
   [|destruct (PyValue.append (CheckerThread.checked_usernames th) u)
       as [?checked|?e] eqn:?Happend|]|].

(* ===================================================================== *)
(** ** Examples *)
(* ===================================================================== *)

(** ** The model on a few inputs *)

Example splitlines_keeps_empty_lines :
  PyStr.splitlines names_with_gap = ["a"; ""; "b"]%string.
Proof. reflexivity. Qed.

Example splitlines_final_newline : PyStr.splitlines one_name = ["bob"%string].
Proof. reflexivity. Qed.

Example dumps_two_names :
  Json.dumps ["abc"; "x_1"]%string =
  ("[" ++ String Json.dquote "abc" ++ String Json.dquote ", "
       ++ String Json.dquote "x_1" ++ String Json.dquote "]")%string.
Proof. reflexivity. Qed.

Example loads_with_spaces_and_escape :
  Json.loads (" [ " ++ String Json.dquote "abc" ++ String Json.dquote " ,"
                ++ String Json.dquote "a\u0041\n" ++ String Json.dquote "] ")%string
  = Ok (PyList ["abc"%string; String "a" (String "A" (String PyStr.LF ""))]).
Proof. reflexivity. Qed.

Example loads_refuses_trailing_comma :
  Json.loads ("[" ++ String Json.dquote "abc" ++ String Json.dquote ",]")%string
  = Raise "JSONDecodeError".
Proof. reflexivity. Qed.

(** Documents of other shapes are values like any other: an object gives
    its keys, an array the strings among its items, a number a scalar. *)
Example loads_other_shapes :
  Json.loads "{}" = Ok (PyDict [])
  /\ Json.loads ("{" ++ String Json.dquote "abc" ++ String Json.dquote ": [1, {}]}")%string
     = Ok (PyDict ["abc"%string])
  /\ Json.loads "[1, 2]" = Ok (PyList [])
  /\ Json.loads ("[null, " ++ String Json.dquote "abc" ++ String Json.dquote ", -1.5e3]")%string
     = Ok (PyList ["abc"%string])
  /\ Json.loads (String Json.dquote "abc" ++ String Json.dquote "")%string
     = Ok (PyString "abc")
  /\ Json.loads "null" = Ok PyScalar
  /\ Json.loads " -0.5 " = Ok PyScalar
  /\ Json.loads "01" = Raise "JSONDecodeError"
  /\ Json.loads "" = Raise "JSONDecodeError".
Proof. repeat split. Qed.

(** Rounding to binary64 shows: 29/100*100 is just below 29. *)
Example percent_29_of_100 : PyFloat.percent 28 100 = Ok 28%Z.
Proof. reflexivity. Qed.

Example percent_by_sevenths :
  map (fun i => PyFloat.percent i 7) (seq 0 7)
  = map Ok [14; 28; 42; 57; 71; 85; 100]%Z.
Proof. reflexivity. Qed.

Example generate_username_all_zero :
  generate_username (fun _ => 0) 0 3 true true = ("aaa"%string, 3).
Proof. reflexivity. Qed.

Example generate_username_last_character :
  generate_username (fun _ => 36) 4 2 true true = ("__"%string, 6)
  /\ generate_username (fun _ => 36) 4 2 true false = ("aa"%string, 6).
Proof. split; reflexivity. Qed.

(** ** JSON: what was written is read back *)

Section JsonRoundTrip.
Import Json.
Local Open Scope string_scope.

Lemma append_assoc (a b c : string) : (a ++ b) ++ c = a ++ (b ++ c).
Proof. induction a as [|x a IH]; cbn; [reflexivity|now rewrite IH]. Qed.

Lemma append_empty_r (a : string) : a ++ "" = a.
Proof. induction a as [|x a IH]; cbn; [reflexivity|now rewrite IH]. Qed.

Lemma scanstring_encode_char c rest :
  scanstring (encode_char c ++ rest) = cons_char c (scanstring rest).
Proof.
  destruct c as [[] [] [] [] [] [] [] []]; reflexivity.
Qed.

Lemma scanstring_encode_chars s rest :
  scanstring (encode_chars s ++ String dquote rest) = Some (s, rest).
Proof.
  induction s as [|c s IH]; cbn [encode_chars].
  - reflexivity.
  - rewrite append_assoc, scanstring_encode_char, IH. reflexivity.
Qed.

Lemma encode_items_cons x l :
  exists t, encode_items (x :: l) = String dquote t.
Proof. destruct l; cbn; eexists; reflexivity. Qed.

Lemma skip_ws_encode_items x l rest :
  skip_ws (encode_items (x :: l) ++ rest) = encode_items (x :: l) ++ rest.
Proof. destruct (encode_items_cons x l) as [t ->]. reflexivity. Qed.

Lemma parse_items_encode l : forall fuel rest,
  l <> [] -> length l <= fuel ->
  parse_items fuel (encode_items l ++ String "]" rest) = Some (l, rest).
Proof.
  induction l as [|x l IH]; intros fuel rest Hne Hf; [congruence|].
  destruct fuel as [|fuel]; [cbn in Hf; lia|].
  destruct l as [|y l].
  - cbn [encode_items encode_string parse_items append].
    rewrite Ascii.eqb_refl.
    rewrite append_assoc. cbn [append].
    rewrite scanstring_encode_chars. reflexivity.
  - change (encode_items (x :: y :: l))
      with (encode_string x ++ ", " ++ encode_items (y :: l)).
    cbn [encode_string parse_items append].
    rewrite Ascii.eqb_refl.
    rewrite !append_assoc. cbn [append].
    rewrite scanstring_encode_chars.
    cbn [skip_ws].
    change (is_ws ",") with false. cbv iota.
    change (Ascii.eqb "," "]") with false.
    change (Ascii.eqb "," ",") with true. cbv iota.
    change (skip_ws (String " " ?s)) with (skip_ws s).
    rewrite skip_ws_encode_items.
    rewrite (IH fuel rest); [reflexivity|congruence|cbn in *; lia].
Qed.

Lemma length_append (a b : string) :
  String.length (a ++ b) = String.length a + String.length b.
Proof. induction a as [|x a IH]; cbn; [reflexivity|now rewrite IH]. Qed.

Lemma length_encode_items l rest :
  length l <= String.length (encode_items l ++ rest).
Proof.
  induction l as [|x [|y l] IH].
  - cbn. lia.
  - cbn. lia.
  - change (encode_items (x :: y :: l))
      with (encode_string x ++ ", " ++ encode_items (y :: l)).
    rewrite !append_assoc. unfold encode_string at 1.
    cbn [append String.length]. rewrite !length_append.
    cbn [String.length]. cbn [length] in *. lia.
Qed.

(** Reading back what [json.dump] wrote gives the list that was
    written. *)
Lemma loads_dumps l : loads (dumps l) = Ok (PyList l).
Proof.
  unfold dumps, loads. cbn [append skip_ws].
  change (is_ws "[") with false. cbv iota.
  rewrite Ascii.eqb_refl.
  destruct l as [|x l].
  - reflexivity.
  - rewrite skip_ws_encode_items.
    destruct (encode_items_cons x l) as [t Ht].
    rewrite Ht at 1. cbn [append].
    change (Ascii.eqb dquote "]") with false. cbv iota.
    rewrite parse_items_encode;
      [reflexivity|congruence|apply length_encode_items].
Qed.
(** *** A store that was cut short *)

Lemma append_split (a b q t : string) :
  a ++ b = q ++ t ->
  (exists m, a = q ++ m) \/ (exists m, q = a ++ m /\ b = m ++ t).
Proof.
  revert q. induction a as [|c a IH]; intros q H.
  - right. exists q. split; [reflexivity|exact H].
  - destruct q as [|d q].
    + left. exists (String c a). reflexivity.
    + cbn in H. inversion H as [[Hc Ht]]. subst d.
      destruct (IH q Ht) as [[m Hm]|[m [Hm1 Hm2]]].
      * left. exists m. cbn. now rewrite Hm.
      * right. exists m. cbn. now rewrite Hm1.
Qed.

Lemma prefixes_spec (a q m : string) : a = q ++ m -> In q (prefixes a).
Proof.
  revert a. induction q as [|c q IH]; intros a H.
  - destruct a; cbn; now left.
  - subst a. cbn. right. apply in_map. now apply (IH (q ++ m)).
Qed.

Lemma scanstring_encode_char_cut c q m :
  encode_char c = q ++ m -> scanstring q = None.
Proof.
  intros H. apply prefixes_spec in H.
  assert (Hall : forallb unterminated (prefixes (encode_char c)) = true)
    by (destruct c as [[] [] [] [] [] [] [] []]; reflexivity).
  rewrite forallb_forall in Hall. specialize (Hall q H).
  unfold unterminated in Hall. now destruct (scanstring q).
Qed.

(** A string literal that is cut before its closing quote is refused. *)
Lemma scanstring_cut x : forall q t,
  encode_chars x = q ++ t -> scanstring q = None.
Proof.
  induction x as [|c x IH]; intros q t H.
  - destruct q; [reflexivity|discriminate H].
  - cbn [encode_chars] in H. apply append_split in H.
    destruct H as [[m Hm]|[m [Hq Hm]]].
    + now apply scanstring_encode_char_cut with c m.
    + subst q. rewrite scanstring_encode_char, (IH m t Hm). reflexivity.
Qed.

Lemma parse_items_nil fuel : parse_items fuel "" = None.
Proof. destruct fuel; reflexivity. Qed.

Lemma encode_items_unfold x l :
  encode_items (x :: l)
  = String dquote
      (encode_chars x
         ++ String dquote (match l with
                           | [] => ""
                           | _ => ", " ++ encode_items l
                           end)).
Proof.
  destruct l; cbn [encode_items]; unfold encode_string; cbn [append];
    rewrite ?append_assoc; reflexivity.
Qed.

(** The items of an array that is cut before its closing bracket are
    refused. *)
Lemma parse_items_cut l : forall fuel q t,
  l <> [] -> encode_items l = q ++ t -> parse_items fuel q = None.
Proof.
  induction l as [|x l IH]; intros fuel q t Hne H; [congruence|].
  destruct fuel as [|fuel]; [reflexivity|].
  destruct q as [|c q1]; [reflexivity|].
  rewrite encode_items_unfold in H. cbn [append] in H.
  inversion H as [[Hc H1]]. subst c. clear H.
  cbn [parse_items]. rewrite Ascii.eqb_refl.
  apply append_split in H1. destruct H1 as [[m Hm]|[m [Hq Hm]]].
  - now rewrite (scanstring_cut x q1 m Hm).
  - destruct m as [|d m'].
    + rewrite (scanstring_cut x q1 "");
        [reflexivity|now rewrite Hq, !append_empty_r].
    + cbn [append] in Hm. inversion Hm as [[Hd Hm']]. subst d q1. clear Hm.
      rewrite scanstring_encode_chars.
      destruct l as [|y l].
      * destruct m'; [reflexivity|discriminate Hm'].
      * destruct (encode_items_cons y l) as [t' Ht']. rewrite Ht' in Hm'.
        destruct m' as [|c1 m1]; [reflexivity|].
        cbn [append] in Hm'. inversion Hm' as [[Hc1 Hm1]]. subst c1.
        cbn [skip_ws]. change (is_ws ",") with false. cbv iota.
        change (Ascii.eqb "," "]") with false. cbv iota.
        change (Ascii.eqb "," ",") with true. cbv iota.
        destruct m1 as [|c2 m2]; [cbn; now rewrite parse_items_nil|].
        cbn [append] in Hm1. inversion Hm1 as [[Hc2 Hm2]]. subst c2.
        change (skip_ws (String " " m2)) with (skip_ws m2).
        destruct m2 as [|c3 m3]; [cbn; now rewrite parse_items_nil|].
        cbn [append] in Hm2. inversion Hm2 as [[Hc3 Hm3]]. subst c3.
        change (skip_ws (String dquote m3)) with (String dquote m3).
        rewrite (IH fuel (String dquote m3) t); [reflexivity|congruence|].
        rewrite Ht'. cbn [append]. now rewrite Hm3.
Qed.

(** What [json.dump] wrote, cut anywhere before its end, is refused by
    the decoder. *)
Lemma loads_cut l p r :
  dumps l = p ++ r -> r <> "" -> loads p = Raise "JSONDecodeError".
Proof.
  unfold dumps. intros H Hr.
  destruct p as [|c p']; [reflexivity|].
  cbn [append] in H. inversion H as [[Hc H1]]. subst c. clear H.
  assert (Hp : exists m, encode_items l = p' ++ m).
  { apply append_split in H1. destruct H1 as [[m Hm]|[m [Hq Hm]]].
    - now exists m.
    - destruct m as [|d m].
      + exists "". now rewrite Hq, !append_empty_r.
      + cbn [append] in Hm. inversion Hm as [[Hd Hm']].
        destruct m; [|discriminate Hm'].
        cbn in Hm'. congruence. }
  destruct Hp as [m Hm].
  unfold loads. cbn [skip_ws]. change (is_ws "[") with false. cbv iota.
  rewrite Ascii.eqb_refl.
  destruct p' as [|c2 p'']; [reflexivity|].
  destruct l as [|x l]; [discriminate Hm|].
  destruct (encode_items_cons x l) as [t' Ht']. rewrite Ht' in Hm.
  cbn [append] in Hm. inversion Hm as [[Hc2 Hm2]]. subst c2.
  change (skip_ws (String dquote p'')) with (String dquote p'').
  cbv iota. change (Ascii.eqb dquote "]") with false. cbv iota.
  rewrite (parse_items_cut (x :: l) _ (String dquote p'') m);
    [reflexivity|congruence|].
  rewrite Ht'. cbn [append]. now rewrite Hm2.
Qed.

End JsonRoundTrip.

(** ** The progress value *)

Section Rounding64.
Local Open Scope Z_scope.

Lemma Zdigits2_log2 p : Zdigits2 (Zpos p) = Z.succ (Z.log2 (Zpos p)).
Proof.
  cbn [Zdigits2].
  assert (H : forall q, Zpos (digits2_pos q) = Zpos (Pos.size q)).
  { induction q; cbn [digits2_pos Pos.size]; congruence. }
  rewrite H. destruct p; cbn [Z.log2 Pos.size]; lia.
Qed.

Lemma Zdigits2_nonneg m : 0 <= Zdigits2 m.
Proof. destruct m; cbn; lia. Qed.

Lemma Zdigits2_le m k : 0 <= m -> 0 <= k -> m < 2 ^ k -> Zdigits2 m <= k.
Proof.
  intros Hm Hk Hlt. destruct m as [|p|p]; [cbn; lia| |lia].
  rewrite Zdigits2_log2.
  assert (Z.log2 (Zpos p) < k) by (apply Z.log2_lt_pow2; lia). lia.
Qed.

Lemma Zdigits2_gt m : 0 <= m -> m < 2 ^ Zdigits2 m.
Proof.
  intros Hm. destruct m as [|p|p]; [cbn; lia| |lia].
  rewrite Zdigits2_log2.
  apply Z.log2_spec. lia.
Qed.

Lemma Zdigits2_mono a b : 0 <= a <= b -> Zdigits2 a <= Zdigits2 b.
Proof.
  intros H. apply Zdigits2_le; [lia|apply Zdigits2_nonneg|].
  pose proof (Zdigits2_gt b). lia.
Qed.

Lemma shr_1_m mrs : 0 <= shr_m mrs -> shr_m (shr_1 mrs) = shr_m mrs / 2.
Proof.
  destruct mrs as [m r s]. cbn [shr_m shr_1]. intros Hm.
  destruct m as [|[p|p|]|p]; cbn [shr_m]; try reflexivity; try lia.
  - apply Z.div_unique with 1; lia.
  - apply Z.div_unique with 0; lia.
Qed.

Lemma iter_shr_1_m n : forall mrs,
  0 <= shr_m mrs ->
  shr_m (iter_pos shr_1 n mrs) = shr_m mrs / 2 ^ Zpos n.
Proof.
  assert (Hp : forall k, 0 < 2 ^ Zpos k) by (intros; apply Z.pow_pos_nonneg; lia).
  induction n as [n IH|n IH|]; intros mrs Hm; cbn [iter_pos].
  - assert (H0 : 0 <= shr_m (shr_1 mrs)).
    { rewrite shr_1_m by exact Hm. apply Z.div_pos; lia. }
    assert (H1 : 0 <= shr_m (iter_pos shr_1 n (shr_1 mrs))).
    { rewrite IH by exact H0. apply Z.div_pos; [exact H0|apply Hp]. }
    rewrite IH by exact H1. rewrite IH by exact H0. rewrite shr_1_m by exact Hm.
    pose proof (Hp n).
    rewrite !Z.div_div by lia. f_equal.
    replace (Zpos n~1) with (1 + Zpos n + Zpos n) by lia.
    rewrite !Z.pow_add_r by lia. ring.
  - assert (H1 : 0 <= shr_m (iter_pos shr_1 n mrs)).
    { rewrite IH by exact Hm. apply Z.div_pos; [exact Hm|apply Hp]. }
    rewrite IH by exact H1. rewrite IH by exact Hm.
    pose proof (Hp n).
    rewrite !Z.div_div by lia. f_equal.
    replace (Zpos n~0) with (Zpos n + Zpos n) by lia.
    rewrite !Z.pow_add_r by lia. ring.
  - rewrite shr_1_m by exact Hm. reflexivity.
Qed.

Lemma shr_record_of_loc_m m l : shr_m (shr_record_of_loc m l) = m.
Proof. destruct l as [|[]]; reflexivity. Qed.

Lemma fexp64 x : fexp PyFloat.prec PyFloat.emax x = Z.max (x - 53) (-1074).
Proof. reflexivity. Qed.

(** The shift of [shr_fexp]: the mantissa stays non-negative and the
    position of its leading bit does not grow, except that a mantissa
    shifted down to zero sits at the least exponent. *)
Lemma shr_fexp_bound m e l :
  0 <= m ->
  let r := shr_fexp PyFloat.prec PyFloat.emax m e l in
  0 <= shr_m (fst r) /\
  Zdigits2 (shr_m (fst r)) + snd r <= Z.max (Zdigits2 m + e) (-1074) /\
  snd r = Z.max e (Z.max (Zdigits2 m + e - 53) (-1074)).
Proof.
  intros Hm. unfold shr_fexp, shr. rewrite fexp64.
  pose proof (Zdigits2_nonneg m) as Hd.
  pose proof (Zdigits2_gt m Hm) as Hlt.
  destruct (Z.max (Zdigits2 m + e - 53) (-1074) - e) as [|p|p] eqn:En;
    cbn [fst snd]; rewrite ?shr_record_of_loc_m.
  - repeat split; lia.
  - rewrite iter_shr_1_m by (rewrite shr_record_of_loc_m; exact Hm).
    rewrite shr_record_of_loc_m.
    assert (Hp : 0 < 2 ^ Zpos p) by (apply Z.pow_pos_nonneg; lia).
    assert (Hq : 0 <= m / 2 ^ Zpos p) by (apply Z.div_pos; lia).
    split; [exact Hq|]. split; [|lia].
    destruct (Z.eq_dec (m / 2 ^ Zpos p) 0) as [Hz|Hnz].
    + rewrite Hz. cbn [Zdigits2]. lia.
    + assert (Hmul : 2 ^ Zpos p * (m / 2 ^ Zpos p) <= m)
        by (apply Z.mul_div_le; lia).
      assert (Hpd : Zpos p < Zdigits2 m).
      { apply Z.pow_lt_mono_r_iff with 2; [lia|lia|]. nia. }
      assert (Zdigits2 (m / 2 ^ Zpos p) <= Zdigits2 m - Zpos p).
      { apply Zdigits2_le; [lia|lia|].
        apply Z.mul_lt_mono_pos_l with (2 ^ Zpos p); [lia|].
        rewrite <- Z.pow_add_r by lia.
        replace (Zpos p + (Zdigits2 m - Zpos p)) with (Zdigits2 m) by lia.
        lia. }
      lia.
  - repeat split; lia.
Qed.

Lemma round_nearest_even_bound m l :
  m <= round_nearest_even m l <= m + 1.
Proof.
  destruct l as [|[]]; cbn [round_nearest_even]; try lia.
  destruct (Z.even m); lia.
Qed.

Lemma Zdigits2_succ m m' : 0 <= m' <= m + 1 -> 0 <= m -> Zdigits2 m' <= Zdigits2 m + 1.
Proof.
  intros H Hm. pose proof (Zdigits2_nonneg m). pose proof (Zdigits2_gt m Hm).
  apply Zdigits2_le; [lia|lia|].
  rewrite Z.pow_add_r by lia. lia.
Qed.

(** Rounding a non-negative mantissa whose leading bit is well below the
    overflow threshold gives zero or a finite number, about as large. *)
Lemma binary_round_aux_finite s mx ex lx :
  0 <= mx -> Zdigits2 mx + ex <= 900 ->
  match binary_round_aux PyFloat.prec PyFloat.emax s mx ex lx with
  | S754_zero _ => True
  | S754_finite _ m e =>
      Zdigits2 (Zpos m) + e <= Z.max (Zdigits2 mx + ex) (-1074) + 1
  | _ => False
  end.
Proof.
  intros Hm Hd. unfold binary_round_aux.
  pose proof (shr_fexp_bound mx ex lx Hm) as H1. cbv zeta in H1.
  destruct (shr_fexp PyFloat.prec PyFloat.emax mx ex lx) as [mrs1 e1].
  cbn [fst snd] in H1. destruct H1 as (H1a & H1b & H1c).
  pose proof (round_nearest_even_bound (shr_m mrs1) (loc_of_shr_record mrs1)) as Hr.
  set (m2 := round_nearest_even (shr_m mrs1) (loc_of_shr_record mrs1)) in *.
  assert (Hm2 : 0 <= m2) by lia.
  pose proof (shr_fexp_bound m2 e1 loc_Exact Hm2) as H2. cbv zeta in H2.
  destruct (shr_fexp PyFloat.prec PyFloat.emax m2 e1 loc_Exact) as [mrs2 e2].
  cbn [fst snd] in H2. destruct H2 as (H2a & H2b & H2c).
  pose proof (Zdigits2_succ (shr_m mrs1) m2 ltac:(lia) H1a) as Hs.
  pose proof (Zdigits2_nonneg mx) as Hdx.
  destruct (shr_m mrs2) as [|m|m] eqn:Em; [exact I| |lia].
  replace (e2 <=? PyFloat.emax - PyFloat.prec) with true.
  - lia.
  - symmetry. apply Z.leb_le. unfold PyFloat.emax, PyFloat.prec. lia.
Qed.

Lemma SFdiv_core_le k n :
  (k <= n)%positive ->
  exists q e l,
    SFdiv_core_binary PyFloat.prec PyFloat.emax (Zpos k) 0 (Zpos n) 0 = (q, e, l)
    /\ 0 <= q /\ Zdigits2 q + e <= 1.
Proof.
  intros Hkn. unfold SFdiv_core_binary. rewrite fexp64.
  assert (Hd : Zdigits2 (Zpos k) <= Zdigits2 (Zpos n))
    by (apply Zdigits2_mono; lia).
  rewrite !Z.add_0_r, Z.sub_diag.
  set (e' := Z.min _ _).
  assert (He : -1074 <= e' <= -53) by (unfold e'; lia).
  rewrite Z.sub_0_l.
  destruct (- e') as [|p|p] eqn:Es; try lia.
  rewrite Z.shiftl_mul_pow2 by lia.
  assert (Hp : 0 < 2 ^ Zpos p) by (apply Z.pow_pos_nonneg; lia).
  pose proof (Z_div_mod (Zpos k * 2 ^ Zpos p) (Zpos n) ltac:(lia)) as Hdm.
  destruct (Z.div_eucl (Zpos k * 2 ^ Zpos p) (Zpos n)) as [q r].
  destruct Hdm as [Heq Hr].
  assert (Hq0 : 0 <= q) by nia.
  assert (Hq1 : q <= 2 ^ Zpos p) by nia.
  assert (Hdq : Zdigits2 q <= Zpos p + 1).
  { apply Zdigits2_le; [lia|lia|]. rewrite Z.pow_add_r by lia. lia. }
  exists q, e', (new_location (Zpos n) r). repeat split; lia.
Qed.

(** The quotient of two positive integers [k <= n] is a float, at most
    one. *)
Lemma truediv_le k n :
  (k <= n)%positive ->
  exists q, PyFloat.truediv (Zpos k) (Zpos n) = Ok q /\ small q.
Proof.
  intros Hkn. unfold PyFloat.truediv.
  change (Zpos n =? 0) with false. cbv iota.
  cbn [PyFloat.exact SFdiv].
  destruct (SFdiv_core_le k n Hkn) as (q & e' & l & Hc & Hq0 & Hdq).
  rewrite Hc. cbn [xorb].
  pose proof (binary_round_aux_finite false q e' l Hq0 ltac:(lia)) as Hb.
  destruct (binary_round_aux PyFloat.prec PyFloat.emax false q e' l)
    as [sz| | |sf m e]; try contradiction.
  - eexists; split; [reflexivity|exact I].
  - eexists; split; [reflexivity|]. cbn [small]. lia.
Qed.

Lemma mul_100_small q :
  small q -> exists v, PyFloat.to_int (PyFloat.mul q (PyFloat.of_int 100)) = Ok v.
Proof.
  intros Hq. change (PyFloat.of_int 100) with (S754_finite false 7036874417766400 (-46)).
  destruct q as [sz| | |sf m e]; try contradiction.
  - eexists; reflexivity.
  - cbn [small] in Hq. unfold PyFloat.mul. cbn [SFmul].
    assert (Hdm : Zdigits2 (Zpos (m * 7036874417766400)) <= Zdigits2 (Zpos m) + 53).
    { pose proof (Zdigits2_gt (Zpos m) ltac:(lia)) as Hg.
      pose proof (Zdigits2_nonneg (Zpos m)).
      apply Zdigits2_le; [lia|lia|].
      rewrite Z.pow_add_r by lia. rewrite Pos2Z.inj_mul.
      assert (7036874417766400 < 2 ^ 53) by reflexivity. nia. }
    pose proof (binary_round_aux_finite (xorb sf false)
                  (Zpos (m * 7036874417766400)) (e + -46) loc_Exact
                  ltac:(lia) ltac:(lia)) as Hb.
    destruct (binary_round_aux PyFloat.prec PyFloat.emax (xorb sf false)
                (Zpos (m * 7036874417766400)) (e + -46) loc_Exact);
      try contradiction; eexists; reflexivity.
Qed.

(** The progress value never raises inside the loop. *)
Lemma percent_total (i total : nat) :
  (i < total)%nat -> exists v, PyFloat.percent i total = Ok v.
Proof.
  intros Hlt. unfold PyFloat.percent.
  destruct (i + 1)%nat as [|k] eqn:Ek; [lia|].
  destruct total as [|t]; [lia|].
  change (Z.of_nat (S k)) with (Zpos (Pos.of_succ_nat k)).
  change (Z.of_nat (S t)) with (Zpos (Pos.of_succ_nat t)).
  destruct (truediv_le (Pos.of_succ_nat k) (Pos.of_succ_nat t) ltac:(lia))
    as (q & Hq & Hs).
  rewrite Hq. apply mul_100_small, Hs.
Qed.

Lemma SFdiv_core_same p :
  SFdiv_core_binary PyFloat.prec PyFloat.emax (Zpos p) 0 (Zpos p) 0
  = (2 ^ 53, -53, loc_Exact).
Proof.
  unfold SFdiv_core_binary.
  rewrite !Z.add_0_r, !Z.sub_diag.
  change (Z.min (fexp PyFloat.prec PyFloat.emax 0) 0) with (-53).
  change (0 - -53) with 53.
  cbv iota.
  rewrite Z.shiftl_mul_pow2 by lia.
  assert (Hq : Zpos p * 2 ^ 53 / Zpos p = 2 ^ 53)
    by (rewrite Z.mul_comm; apply Z.div_mul; lia).
  assert (Hr : (Zpos p * 2 ^ 53) mod Zpos p = 0)
    by (rewrite Z.mul_comm; apply Z.mod_mul; lia).
  unfold Z.div, Z.modulo in Hq, Hr.
  destruct (Z.div_eucl (Zpos p * 2 ^ 53) (Zpos p)) as [q r].
  cbn [fst snd] in Hq, Hr. subst q r.
  unfold new_location, new_location_even, new_location_odd.
  destruct (Z.even (Zpos p)); reflexivity.
Qed.

(** The value after the last line is exactly 100. *)
Lemma percent_last (total : nat) :
  (0 < total)%nat -> PyFloat.percent (total - 1) total = Ok 100.
Proof.
  intros Hpos. unfold PyFloat.percent.
  replace (total - 1 + 1)%nat with total by lia.
  destruct total as [|t]; [lia|].
  change (Z.of_nat (S t)) with (Zpos (Pos.of_succ_nat t)).
  set (p := Pos.of_succ_nat t).
  unfold PyFloat.truediv. change (Zpos p =? 0) with false. cbv iota.
  cbn [PyFloat.exact SFdiv].
  rewrite SFdiv_core_same. reflexivity.
Qed.

End Rounding64.

(** ** Substring and membership tests *)

Section StringTests.
Local Open Scope string_scope.

Lemma prefix_iff sub : forall s,
  String.prefix sub s = true <-> exists b, s = sub ++ b.
Proof.
  induction sub as [|c sub IH]; intros s.
  - split; [intros _; exists s; reflexivity|destruct s; reflexivity].
  - destruct s as [|d s]; cbn [String.prefix].
    + split; [discriminate|intros [b Hb]; discriminate].
    + destruct (ascii_dec c d) as [->|Hne].
      * rewrite IH. split; intros [b Hb]; exists b.
        -- cbn. now rewrite Hb.
        -- cbn in Hb. now inversion Hb.
      * split; [discriminate|].
        intros [b Hb]. cbn in Hb. inversion Hb. congruence.
Qed.

Lemma contains_unfold sub s :
  PyStr.contains sub s =
  if String.prefix sub s then true
  else match s with
       | EmptyString => false
       | String _ s' => PyStr.contains sub s'
       end.
Proof. destruct s; reflexivity. Qed.

(** [sub in s] holds exactly when [sub] occurs somewhere in [s]. *)
Lemma contains_iff sub s :
  PyStr.contains sub s = true <-> exists a b, s = a ++ sub ++ b.
Proof.
  split.
  - induction s as [|c s IH]; rewrite contains_unfold;
      destruct (String.prefix sub _) eqn:Hp.
    + intros _. apply prefix_iff in Hp. destruct Hp as [b Hb].
      exists "", b. exact Hb.
    + discriminate.
    + intros _. apply prefix_iff in Hp. destruct Hp as [b Hb].
      exists "", b. exact Hb.
    + intros H. destruct (IH H) as (a & b & Hab).
      exists (String c a), b. cbn. now rewrite Hab.
  - intros (a & b & Hab). revert s Hab.
    induction a as [|c a IH]; intros s Hab; rewrite contains_unfold.
    + replace (String.prefix sub s) with true; [reflexivity|].
      symmetry. apply prefix_iff. exists b. exact Hab.
    + destruct (String.prefix sub s); [reflexivity|].
      subst s. cbn [append]. apply IH. reflexivity.
Qed.

Lemma mem_iff x l : PyStr.mem x l = true <-> In x l.
Proof.
  unfold PyStr.mem. rewrite existsb_exists. split.
  - intros (y & Hy & He). apply String.eqb_eq in He. now subst.
  - intros H. exists x. split; [exact H|apply String.eqb_refl].
Qed.

Lemma mem_false_iff x l : PyStr.mem x l = false <-> ~ In x l.
Proof.
  rewrite <- mem_iff. destruct (PyStr.mem x l); split; congruence.
Qed.

End StringTests.

(** ** The store of checked names *)

(** C9. Loading the store never fails.  A missing store gives the empty
    list and prints nothing; a store that cannot be read, or whose text
    the JSON decoder refuses, gives the empty list and prints one
    warning, and what a save wrote is such a text when it is cut anywhere
    before its end; a text the decoder accepts is returned silently as
    the value it denotes, a list or not; and once a list has been saved,
    loading gives that list back. *)
Theorem load_checked_usernames_total_and_round_trip :
  (forall fs, CHECKED_USERNAMES_FILE fs = NoFile ->
     load_checked_usernames fs = (PyList [], []))
  /\ (forall fs text e, CHECKED_USERNAMES_FILE fs = Content text ->
        Json.loads text = Raise e ->
        load_checked_usernames fs = (PyList [], [Print (LoadWarning e)]))
  /\ (forall fs l p r, CHECKED_USERNAMES_FILE fs = Content p ->
        Json.dumps l = (p ++ r)%string -> r <> ""%string ->
        load_checked_usernames fs
        = (PyList [], [Print (LoadWarning "JSONDecodeError")]))
  /\ (forall fs e, CHECKED_USERNAMES_FILE fs = Unreadable e ->
        load_checked_usernames fs = (PyList [], [Print (LoadWarning e)]))
  /\ (forall fs text v, CHECKED_USERNAMES_FILE fs = Content text ->
        Json.loads text = Ok v ->
        load_checked_usernames fs = (v, []))
  /\ (forall fs l, checked_open_w fs = Ok tt ->
        load_checked_usernames (fst (save_checked_usernames fs l))
        = (PyList l, []))
  /\ (forall fs,
        snd (load_checked_usernames fs) = []
        \/ exists e, load_checked_usernames fs
                     = (PyList [], [Print (LoadWarning e)])).
Proof.
  repeat split.
  - intros fs H. unfold load_checked_usernames. now rewrite H.
  - intros fs text e H Hl. unfold load_checked_usernames. now rewrite H, Hl.
  - intros fs l p r H Hd Hr. unfold load_checked_usernames.
    now rewrite H, (loads_cut l p r Hd Hr).
  - intros fs e H. unfold load_checked_usernames. now rewrite H.
  - intros fs text v H Hl. unfold load_checked_usernames. now rewrite H, Hl.
  - intros fs l H. unfold save_checked_usernames. rewrite H.
    unfold load_checked_usernames.
    cbn [fst set_checked_file CHECKED_USERNAMES_FILE].
    now rewrite loads_dumps.
  - intros fs. unfold load_checked_usernames.
    destruct (CHECKED_USERNAMES_FILE fs) as [|e|text].
    + now left.
    + right. now exists e.
    + destruct (Json.loads text) as [v|e]; [now left|right; now exists e].
Qed.

Lemma load_checked_usernames_total_and_round_trip_witness :
  load_checked_usernames (fresh_disk "") = (PyList [], [])
  /\ load_checked_usernames (stored "[")
     = (PyList [], [Print (LoadWarning "JSONDecodeError")])
  /\ load_checked_usernames
       (stored ("[" ++ String Json.dquote "abc" ++ String Json.dquote ", "
                    ++ String Json.dquote "x_"))
     = (PyList [], [Print (LoadWarning "JSONDecodeError")])
  /\ load_checked_usernames (stored "{}") = (PyDict [], [])
  /\ load_checked_usernames
       (fst (save_checked_usernames (fresh_disk "") ["abc"; "x_1"]))
     = (PyList ["abc"; "x_1"], []).
Proof.
  destruct load_checked_usernames_total_and_round_trip
    as (H1 & H2 & H3 & _ & H4 & H5 & _).
  split; [|split; [|split; [|split]]].
  - apply (H1 (fresh_disk "")). reflexivity.
  - apply (H2 (stored "[") "["); reflexivity.
  - apply (H3 _ ["abc"; "x_1"]%string
             ("[" ++ String Json.dquote "abc" ++ String Json.dquote ", "
                  ++ String Json.dquote "x_")%string
             (String "1" (String Json.dquote "]"))).
    + reflexivity.
    + reflexivity.
    + discriminate.
  - apply (H4 (stored "{}") "{}"); reflexivity.
  - apply (H5 (fresh_disk "") ["abc"; "x_1"]). reflexivity.
Defined.

(** ** One probe *)

Lemma verdict_check_username fs username text :
  verdict (snd (CheckerThread.check_username fs username (Ok text))) =
  Some (if PyStr.contains error_ctn text
        then Available username else Taken username).
Proof.
  unfold CheckerThread.check_username.
  destruct (PyStr.contains error_ctn text); [|reflexivity].
  destruct (available_open_a fs); reflexivity.
Qed.

Lemma step_waiting env w th l username :
  CheckerThread.at_ th = Waiting l username ->
  CheckerThread.step env w th =
  (CheckerThread.set_fs w
     (fst (CheckerThread.check_username (fs w) username (http_get env username))),
   CheckerThread.goto th (Sleeping l username),
   snd (CheckerThread.check_username (fs w) username (http_get env username))).
Proof.
  intros H. unfold CheckerThread.step. rewrite H.
  destruct (CheckerThread.check_username _ _ _). reflexivity.
Qed.

(** C1. When the request is answered, the verdict is [Available] exactly
    when the marker of the error page occurs in the body, and [Taken]
    exactly when it does not; so the test server makes [abc] available
    and [bob] taken. *)
Theorem check_username_classifies :
  forall env w th l username text,
    CheckerThread.at_ th = Waiting l username ->
    http_get env username = Ok text ->
    (verdict (reply_effects env w th) = Some (Available username)
       <-> exists a b, text = (a ++ error_ctn ++ b)%string)
    /\ (verdict (reply_effects env w th) = Some (Taken username)
       <-> ~ exists a b, text = (a ++ error_ctn ++ b)%string)
    /\ (forall w' l', verdict (reply_effects fake_transport w' (in_flight l' "abc"))
                      = Some (Available "abc"))
    /\ (forall w' l', verdict (reply_effects fake_transport w' (in_flight l' "bob"))
                      = Some (Taken "bob")).
Proof.
  intros env w th l username text Hat Hget.
  assert (Hfake : forall w' l' u page,
             http_get fake_transport u = Ok page ->
             verdict (reply_effects fake_transport w' (in_flight l' u))
             = Some (if PyStr.contains error_ctn page
                     then Available u else Taken u)).
  { intros w' l' u page Hpage. unfold reply_effects.
    rewrite (step_waiting fake_transport w' (in_flight l' u) l' u eq_refl), Hpage.
    apply verdict_check_username. }
  unfold reply_effects at 1 2. rewrite (step_waiting _ _ _ _ _ Hat), Hget.
  cbn [snd]. rewrite verdict_check_username, <- contains_iff.
  split; [|split; [|split; intros; erewrite Hfake by reflexivity; reflexivity]];
    destruct (PyStr.contains error_ctn text); intuition congruence.
Qed.

Lemma check_username_classifies_witness :
  verdict (reply_effects fake_transport (fresh_world "") (in_flight GenerateLoop "abc"))
  = Some (Available "abc").
Proof.
  apply (proj1 (check_username_classifies fake_transport (fresh_world "")
                  (in_flight GenerateLoop "abc") GenerateLoop "abc"
                  ("<html><body>" ++ error_ctn ++ "<h3>Error</h3></div></body></html>")%string
                  eq_refl eq_refl)).
  exists "<html><body>"%string, "<h3>Error</h3></div></body></html>"%string.
  reflexivity.
Defined.

(** C3, as stated, fails: for the test server and a writable disk the name
    [abc] is reported available, and no write precedes the report. *)
Lemma available_reported_before_recorded :
  let out := reply_effects fake_transport (fresh_world "")
               (in_flight GenerateLoop "abc") in
  verdict out = Some (Available "abc")
  /\ out = [Emit (signal_update_available_log (Available "abc"));
            Write "abc"; Sleep]
  /\ ~ recorded_before_reported "abc" out.
Proof.
  cbv zeta.
  assert (E : reply_effects fake_transport (fresh_world "")
               (in_flight GenerateLoop "abc")
              = [Emit (signal_update_available_log (Available "abc"));
                 Write "abc"; Sleep]) by reflexivity.
  rewrite E. repeat split.
  intros (o1 & o2 & Heq & Hin).
  destruct o1 as [|x o1]; [exact Hin|].
  cbn in Heq. inversion Heq as [[Hx Hrest]]. subst x.
  cbn in Hin. destruct Hin as [Hin|Hin]; [discriminate|].
  destruct o1 as [|y o1]; [exact Hin|].
  cbn in Hrest. inversion Hrest as [[Hy Hrest']]. subst y.
  destruct o1 as [|z o1]; [discriminate Hrest'|].
  cbn in Hrest'. inversion Hrest' as [[Hz Hrest'']].
  destruct o1; discriminate Hrest''.
Qed.

(** C3, amended. A probe whose verdict is [Available] first emits the
    report, then appends the name to the file, then sleeps; when the file
    cannot be opened the report is followed by an error line and the file
    is left as it was. *)
Theorem check_username_reports_then_records :
  forall env w th l username,
    CheckerThread.at_ th = Waiting l username ->
    verdict (reply_effects env w th) = Some (Available username) ->
    let w' := fst (fst (CheckerThread.step env w th)) in
    (available_open_a (fs w) = Ok tt
     /\ reply_effects env w th =
          [Emit (signal_update_available_log (Available username));
           Write username; Sleep]
     /\ AVAILABLE_USERNAMES_FILE (fs w') =
          (AVAILABLE_USERNAMES_FILE (fs w) ++ username ++ String PyStr.LF "")%string)
    \/ (exists e, available_open_a (fs w) = Raise e
        /\ reply_effects env w th =
             [Emit (signal_update_available_log (Available username));
              Emit (signal_update_taken_log (Failed username e)); Sleep]
        /\ fs w' = fs w).
Proof.
  intros env w th l username Hat Hv. cbv zeta.
  unfold reply_effects in *. rewrite (step_waiting _ _ _ _ _ Hat) in *.
  cbn [fst snd] in *.
  destruct (http_get env username) as [text|e].
  - rewrite verdict_check_username in Hv.
    unfold CheckerThread.check_username.
    destruct (PyStr.contains error_ctn text); [|discriminate].
    destruct (available_open_a (fs w)) as [[]|e].
    + left. repeat split.
    + right. exists e. repeat split.
  - discriminate.
Qed.

Lemma check_username_reports_then_records_witness :
  AVAILABLE_USERNAMES_FILE
    (fs (fst (fst (CheckerThread.step fake_transport (fresh_world "")
                     (in_flight GenerateLoop "abc")))))
  = String "a" (String "b" (String "c" (String PyStr.LF ""))).
Proof.
  destruct (check_username_reports_then_records fake_transport (fresh_world "")
              (in_flight GenerateLoop "abc") GenerateLoop "abc" eq_refl eq_refl)
    as [(_ & _ & H)|(e & H & _)].
  - exact H.
  - discriminate H.
Defined.

(** ** Runs of one thread *)

Section Runs.
Variable env : Env.

Import CheckerThread.

Lemma steps_step sched : steps (Step :: sched) = S (steps sched).
Proof. reflexivity. Qed.


Lemma gets_app o1 o2 : gets (o1 ++ o2) = gets o1 ++ gets o2.
Proof. unfold gets. now rewrite flat_map_app. Qed.

Lemma progress_values_app o1 o2 :
  progress_values (o1 ++ o2) = progress_values o1 ++ progress_values o2.
Proof. unfold progress_values. now rewrite flat_map_app. Qed.

Lemma finished_signals_app o1 o2 :
  finished_signals (o1 ++ o2) = finished_signals o1 + finished_signals o2.
Proof. unfold finished_signals. now rewrite filter_app, length_app. Qed.

Lemma run_step sched w th :
  run env (Step :: sched) w th =
  let '(w1, th1, out1) := step env w th in
  let '(w2, th2, out2) := run env sched w1 th1 in
  (w2, th2, out1 ++ out2).
Proof. reflexivity. Qed.

Lemma run_app s1 s2 : forall w th,
  run env (s1 ++ s2) w th =
  let '(w1, th1, out1) := run env s1 w th in
  let '(w2, th2, out2) := run env s2 w1 th1 in
  (w2, th2, out1 ++ out2).
Proof.
  induction s1 as [|[] s1 IH]; intros w th; cbn [run app].
  - destruct (run env s2 w th) as [[w2 th2] out2]. reflexivity.
  - destruct (step env w th) as [[w1 th1] out1]. rewrite IH.
    destruct (run env s1 w1 th1) as [[w1' th1'] out1'].
    destruct (run env s2 w1' th1') as [[w2 th2] out2].
    now rewrite app_assoc.
  - apply IH.
Qed.

(** Once [run] has returned nothing happens any more. *)
Lemma run_from_finished sched : forall w th,
  at_ th = Finished ->
  exists th', run env sched w th = (w, th', []) /\ at_ th' = Finished.
Proof.
  induction sched as [|[] sched IH]; intros w th Hat.
  - exists th. split; [reflexivity|exact Hat].
  - rewrite run_step. unfold step. rewrite Hat.
    destruct (IH w th Hat) as (th' & Hrun & Hat'). rewrite Hrun.
    exists th'. split; [reflexivity|exact Hat'].
  - cbn [run]. apply IH. exact Hat.
Qed.

(** A thread that has left its loop emits [signal_finished] and is done. *)
Lemma run_from_finishing sched : forall w th,
  at_ th = Finishing -> 1 <= steps sched ->
  exists th', run env sched w th = (w, th', [Emit signal_finished])
              /\ at_ th' = Finished.
Proof.
  induction sched as [|[] sched IH]; intros w th Hat Hs.
  - cbn in Hs. lia.
  - rewrite run_step. unfold step. rewrite Hat.
    destruct (run_from_finished sched w (goto th Finished) eq_refl)
      as (th' & Hrun & Hat').
    rewrite Hrun. exists th'. split; [reflexivity|exact Hat'].
  - cbn [run]. apply IH; [exact Hat|exact Hs].
Qed.

(** A thread whose file yields nothing to check: one line on the log,
    then the end. *)
Lemma run_nothing_to_check m sched : forall w th,
  at_ th = Started -> mode_ th = file ->
  step env w th = (w, goto th Finishing, [Emit (signal_update_taken_log m)]) ->
  2 <= steps sched ->
  exists th', run env sched w th =
              (w, th', [Emit (signal_update_taken_log m); Emit signal_finished])
              /\ at_ th' = Finished.
Proof.
  induction sched as [|[] sched IH]; intros w th Hat Hmode Hstep Hs.
  - cbn in Hs. lia.
  - rewrite run_step, Hstep.
    destruct (run_from_finishing sched w (goto th Finishing) eq_refl)
      as (th' & Hrun & Hat'); [rewrite steps_step in Hs; lia|].
    rewrite Hrun. exists th'. split; [reflexivity|exact Hat'].
  - cbn [run]. apply IH; try assumption.
    unfold step in *. cbn [at_ mode_ stop usernames_file] in *.
    rewrite Hat, Hmode in *.
    destruct (read_text (fs w) (usernames_file th)) as [text|e].
    + destruct (PyStr.splitlines text); inversion Hstep. reflexivity.
    + inversion Hstep. reflexivity.
Qed.

End Runs.

(** C10. A list of names that opens and holds no line at all: whatever
    the schedule, the thread writes the notice once on the log of taken
    names, sends no request and no progress value, and ends with
    [signal_finished]. *)
Theorem empty_file_is_reported_once :
  forall env sched w th text,
    CheckerThread.mode_ th = file ->
    CheckerThread.at_ th = Started ->
    read_text (fs w) (CheckerThread.usernames_file th) = Ok text ->
    PyStr.splitlines text = [] ->
    2 <= steps sched ->
    exists th',
      CheckerThread.run env sched w th =
        (w, th', [Emit (signal_update_taken_log NoUsernames); Emit signal_finished])
      /\ CheckerThread.at_ th' = Finished
      /\ gets [Emit (signal_update_taken_log NoUsernames); Emit signal_finished] = []
      /\ progress_values
           [Emit (signal_update_taken_log NoUsernames); Emit signal_finished] = [].
Proof.
  intros env sched w th text Hmode Hat Hread Hlines Hs.
  destruct (run_nothing_to_check env NoUsernames sched w th Hat Hmode)
    as (th' & Hrun & Hat'); [|exact Hs|].
  - unfold CheckerThread.step. now rewrite Hat, Hmode, Hread, Hlines.
  - exists th'. repeat split; assumption.
Qed.

Lemma splitlines_from_nil s : forall cur,
  PyStr.splitlines_from cur s = [] -> s = ""%string /\ cur = ""%string.
Proof.
  induction s as [|c s IH]; intros cur H.
  - destruct cur; [split; reflexivity|discriminate H].
  - exfalso. cbn [PyStr.splitlines_from] in H.
    destruct (Ascii.eqb c PyStr.CR).
    + destruct s as [|c' s']; [discriminate|].
      destruct (Ascii.eqb c' PyStr.LF); discriminate.
    + destruct (PyStr.is_linebreak c); [discriminate|].
      apply IH in H. destruct H as [_ H]. destruct cur; discriminate H.
Qed.

(** A text has no line exactly when it is empty. *)
Lemma splitlines_nil_iff text : PyStr.splitlines text = [] <-> text = ""%string.
Proof.
  split.
  - intros H. apply splitlines_from_nil in H. apply H.
  - intros ->. reflexivity.
Qed.

(** ** Stopping a thread *)

Section Stopping.
Variable env : Env.

Import CheckerThread.

Lemma step_running w th :
  running (snd (fst (step env w th))) = running th.
Proof.
  unfold step.
  destruct (at_ th) as [|[us i|]|l u|l u|[us i|] u| |].
  - destruct (mode_ th); [|reflexivity].
    destruct (read_text (fs w) (usernames_file th)) as [text|e];
      [destruct (PyStr.splitlines text)|]; reflexivity.
  - destruct (nth_error us i); [destruct (running th) eqn:Hr|];
      cbn; congruence.
  - destruct (running th) eqn:Hr; [|cbn; exact Hr].
    destruct (generate_username _ _ _ _ _) as [u pos].
    generate_cases u th; try (cbn; exact Hr).
    destruct (save_checked_usernames _ _). cbn. exact Hr.
  - reflexivity.
  - destruct (check_username _ _ _). reflexivity.
  - destruct (PyFloat.percent i (List.length us)); reflexivity.
  - reflexivity.
  - reflexivity.
  - reflexivity.
Qed.

(** A step of a stopped thread: it comes closer to its end, sends a
    request only if the candidate was already chosen, draws no new
    candidate and leaves the list of checked names alone. *)
Lemma step_stopped w th :
  running th = false ->
  rank (at_ (snd (fst (step env w th)))) <= pred (rank (at_ th))
  /\ gets (snd (step env w th)) = pending (at_ th)
  /\ pending (at_ (snd (fst (step env w th)))) = []
  /\ checked_usernames (snd (fst (step env w th))) = checked_usernames th
  /\ rng (fst (fst (step env w th))) = rng w.
Proof.
  intros Hr. unfold step. rewrite Hr.
  destruct (at_ th) as [|[us i|]|l u|l u|[us i|] u| |] eqn:Hat.
  - destruct (mode_ th); [|cbn; repeat split; lia].
    destruct (read_text (fs w) (usernames_file th)) as [text|e];
      [destruct (PyStr.splitlines text)|]; cbn; repeat split; lia.
  - destruct (nth_error us i); cbn; repeat split; lia.
  - cbn; repeat split; lia.
  - cbn; repeat split; lia.
  - unfold check_username.
    destruct (http_get env u) as [text|e];
      [destruct (PyStr.contains error_ctn text);
       [destruct (available_open_a (fs w))|]|];
      cbn; repeat split; lia.
  - destruct (PyFloat.percent i (List.length us)); cbn; repeat split; lia.
  - cbn; repeat split; lia.
  - cbn; repeat split; lia.
  - cbn; rewrite Hat; cbn; repeat split; lia.
Qed.


(** [stop()] does not touch a request in flight: the reply is handled
    as it would have been. *)
Lemma step_in_flight w th l username :
  at_ th = Waiting l username ->
  step env w (stop th) =
  (fst (fst (step env w th)), stop (snd (fst (step env w th))),
   snd (step env w th)).
Proof.
  intros Hat. unfold step. cbn [stop at_]. rewrite Hat.
  destruct (check_username _ _ _). reflexivity.
Qed.

(** [wait()] on a stopped thread returns within [rank] steps. *)
Lemma wait_stopped fuel : forall w th,
  running th = false -> rank (at_ th) <= fuel ->
  exists w' th' out,
    wait fuel env w th = Some (w', th', out) /\ at_ th' = Finished.
Proof.
  induction fuel as [|fuel IH]; intros w th Hr Hrank.
  - destruct (at_ th) eqn:Hat; cbn in Hrank; try lia.
    exists w, th, []. cbn. unfold is_finished. rewrite Hat. now split.
  - cbn [wait]. destruct (is_finished th) eqn:Hfin.
    + exists w, th, []. split; [reflexivity|].
      unfold is_finished in Hfin. destruct (at_ th); congruence.
    + pose proof (step_stopped w th Hr) as (Hrank' & _).
      pose proof (step_running w th) as Hrun. rewrite Hr in Hrun.
      destruct (step env w th) as [[w1 th1] out1]. cbn [fst snd] in *.
      destruct (IH w1 th1 Hrun ltac:(lia)) as (w' & th' & out & Hw & Hat').
      rewrite Hw. exists w', th', (out1 ++ out). now split.
Qed.

End Stopping.

(** ** A run over a file *)

Section FileRuns.
Variable env : Env.

Import CheckerThread.

Lemma check_username_quiet f username reply :
  gets (snd (check_username f username reply)) = []
  /\ progress_values (snd (check_username f username reply)) = []
  /\ finished_signals (snd (check_username f username reply)) = 0.
Proof.
  unfold check_username.
  destruct reply as [text|e];
    [destruct (PyStr.contains error_ctn text);
     [destruct (available_open_a f)|]|]; repeat split.
Qed.

(** One turn of the [for] loop: four steps, one request, one progress
    value. *)
Lemma file_iteration w th us i u :
  at_ th = LoopHead (FileLoop us i) ->
  running th = true ->
  nth_error us i = Some u ->
  exists w' th' out v,
    run env (repeat Step 4) w th = (w', th', out)
    /\ at_ th' = LoopHead (FileLoop us (S i))
    /\ running th' = true
    /\ gets out = [u]
    /\ PyFloat.percent i (List.length us) = Ok v
    /\ progress_values out = [v]
    /\ finished_signals out = 0.
Proof.
  intros Hat Hrun Hnth.
  assert (Hlt : i < List.length us)
    by (apply nth_error_Some; congruence).
  destruct (percent_total i (List.length us) Hlt) as [v Hv].
  cbn [repeat]. rewrite run_step. unfold step at 1.
  rewrite Hat, Hnth, Hrun.
  rewrite run_step. unfold step at 1. cbn [at_ goto].
  rewrite run_step. unfold step at 1. cbn [at_ goto].
  pose proof (check_username_quiet (fs w) u (http_get env u)) as (Hg & Hp & Hq).
  destruct (check_username (fs w) u (http_get env u)) as [f out].
  cbn [snd] in Hg, Hp, Hq.
  rewrite run_step. unfold step at 1. cbn [at_ goto]. rewrite Hv.
  cbn [run].
  eexists _, _, _, v. split; [reflexivity|].
  cbn [at_ goto running]. repeat split; try assumption.
  - rewrite !gets_app, Hg. reflexivity.
  - rewrite !progress_values_app, Hp. reflexivity.
  - rewrite !finished_signals_app, Hq. reflexivity.
Qed.

(** The rest of the loop from item [i]: every remaining line is
    requested, in order, and the last progress value is 100. *)
Lemma file_loop_rest us : forall k i w th extra,
  at_ th = LoopHead (FileLoop us i) ->
  running th = true ->
  i + k = List.length us ->
  exists w' th' out,
    run env (repeat Step (4 * k + 2 + extra)) w th = (w', th', out)
    /\ at_ th' = Finished
    /\ gets out = skipn i us
    /\ List.length (progress_values out) = k
    /\ (0 < k -> last (progress_values out) 0%Z = 100%Z)
    /\ finished_signals out = 1.
Proof.
  induction k as [|k IH]; intros i w th extra Hat Hrun Hlen.
  - assert (Hnth : nth_error us i = None) by (apply nth_error_None; lia).
    change (4 * 0 + 2 + extra) with (S (S extra)).
    cbn [repeat]. rewrite run_step. unfold step at 1. rewrite Hat, Hnth.
    destruct (run_from_finishing env (Step :: repeat Step extra) w
                (goto th Finishing) eq_refl) as (th' & Hr & Hat');
      [rewrite steps_step; lia|].
    rewrite Hr. exists w, th', [Emit signal_finished].
    repeat split; try assumption.
    + rewrite skipn_all2 by lia. reflexivity.
    + intros H. lia.
  - destruct (nth_error us i) as [u|] eqn:Hnth;
      [|apply nth_error_None in Hnth; lia].
    destruct (file_iteration w th us i u Hat Hrun Hnth)
      as (w1 & th1 & out1 & v & Hr1 & Hat1 & Hrun1 & Hg1 & Hv & Hp1 & Hf1).
    destruct (IH (S i) w1 th1 extra Hat1 Hrun1 ltac:(lia))
      as (w2 & th2 & out2 & Hr2 & Hat2 & Hg2 & Hl2 & Hlast2 & Hf2).
    replace (4 * S k + 2 + extra) with (4 + (4 * k + 2 + extra)) by lia.
    rewrite repeat_app, run_app, Hr1, Hr2.
    exists w2, th2, (out1 ++ out2). repeat split.
    + exact Hat2.
    + rewrite gets_app, Hg1, Hg2.
      symmetry. clear - Hnth. revert i Hnth.
      induction us as [|x us IHus]; intros [|i] H; cbn in *; try discriminate.
      * now inversion H.
      * now apply IHus.
    + rewrite progress_values_app, length_app, Hp1, Hl2. reflexivity.
    + intros _. rewrite progress_values_app, Hp1.
      destruct k as [|k].
      * destruct (progress_values out2); [|discriminate Hl2].
        cbn. replace i with (List.length us - 1) in Hv by lia.
        rewrite percent_last in Hv by lia. congruence.
      * destruct (progress_values out2) as [|p ps] eqn:Ep;
          [discriminate Hl2|].
        cbn [app last]. apply Hlast2. lia.
    + rewrite finished_signals_app, Hf1, Hf2. reflexivity.
Qed.

End FileRuns.

(** C4, as stated, fails: of the three lines of the file two are not
    empty, and three requests are sent, one of them for the empty name. *)
Lemma empty_line_is_probed :
  let w := fresh_world names_with_gap in
  let out := snd (CheckerThread.run fake_transport
                    (repeat CheckerThread.Step 15) w (file_thread w)) in
  filter PyStr.truthy (PyStr.splitlines names_with_gap) = ["a"; "b"]%string
  /\ gets out = ["a"; ""; "b"]%string
  /\ gets out <> filter PyStr.truthy (PyStr.splitlines names_with_gap)
  /\ List.length (gets out)
     <> List.length (filter PyStr.truthy (PyStr.splitlines names_with_gap)).
Proof.
  cbv zeta.
  assert (E : gets (snd (CheckerThread.run fake_transport
                           (repeat CheckerThread.Step 15)
                           (fresh_world names_with_gap)
                           (file_thread (fresh_world names_with_gap))))
              = ["a"; ""; "b"]%string) by (vm_compute; reflexivity).
  rewrite E.
  assert (F : filter PyStr.truthy (PyStr.splitlines names_with_gap)
              = ["a"; "b"]%string) by reflexivity.
  rewrite F. repeat split; discriminate.
Qed.

(** C4, amended. A run over a file that is not stopped sends one request
    for each line of the file, empty lines included, in the order of the
    file, then ends; it emits one progress value for each line and the
    last one is 100. *)
Theorem file_run_probes_every_line :
  forall env w th text extra,
    CheckerThread.mode_ th = file ->
    CheckerThread.at_ th = Started ->
    CheckerThread.running th = true ->
    read_text (fs w) (CheckerThread.usernames_file th) = Ok text ->
    PyStr.splitlines text <> [] ->
    let n := List.length (PyStr.splitlines text) in
    exists w' th' out,
      CheckerThread.run env (repeat CheckerThread.Step (4 * n + 3 + extra)) w th
        = (w', th', out)
      /\ CheckerThread.at_ th' = Finished
      /\ gets out = PyStr.splitlines text
      /\ List.length (progress_values out) = n
      /\ last (progress_values out) 0%Z = 100%Z.
Proof.
  intros env w th text extra Hmode Hat Hrun Hread Hne n.
  replace (4 * n + 3 + extra) with (S (4 * n + 2 + extra)) by lia.
  cbn [repeat]. rewrite run_step. unfold CheckerThread.step at 1.
  rewrite Hat, Hmode, Hread.
  destruct (PyStr.splitlines text) as [|u us] eqn:Hl; [congruence|].
  destruct (file_loop_rest env (u :: us) n 0 w
              (CheckerThread.goto th (LoopHead (FileLoop (u :: us) 0))) extra
              eq_refl Hrun eq_refl)
    as (w' & th' & out & Hr & Hat' & Hg & Hlen & Hlast & _).
  rewrite Hr. exists w', th', out. repeat split; try assumption.
  apply Hlast. subst n. cbn. lia.
Qed.

Lemma file_run_probes_every_line_witness :
  exists w' th' out,
    CheckerThread.run fake_transport (repeat CheckerThread.Step 15)
      (fresh_world names_with_gap) (file_thread (fresh_world names_with_gap))
      = (w', th', out)
    /\ CheckerThread.at_ th' = Finished
    /\ gets out = ["a"; ""; "b"]%string
    /\ List.length (progress_values out) = 3
    /\ last (progress_values out) 0%Z = 100%Z.
Proof.
  apply (file_run_probes_every_line fake_transport (fresh_world names_with_gap)
           (file_thread (fresh_world names_with_gap)) names_with_gap 0
           eq_refl eq_refl eq_refl eq_refl).
  discriminate.
Defined.

Lemma empty_file_is_reported_once_witness :
  exists th',
    CheckerThread.run fake_transport [CheckerThread.Step; CheckerThread.Step]
      (fresh_world "") (file_thread (fresh_world ""))
    = (fresh_world "", th',
       [Emit (signal_update_taken_log NoUsernames); Emit signal_finished])
    /\ CheckerThread.at_ th' = Finished
    /\ gets [Emit (signal_update_taken_log NoUsernames); Emit signal_finished] = []
    /\ progress_values
         [Emit (signal_update_taken_log NoUsernames); Emit signal_finished] = [].
Proof.
  apply (empty_file_is_reported_once fake_transport
           [CheckerThread.Step; CheckerThread.Step]
           (fresh_world "") (file_thread (fresh_world "")) ""
           eq_refl eq_refl eq_refl eq_refl).
  cbn. lia.
Defined.

(** ** The end of a run *)

Section Endings.
Variable env : Env.

Import CheckerThread.

(** Only the [finally] clause emits [signal_finished], and only it ends
    the thread. *)
Lemma step_finished_signal_only w th :
  finished_signals (snd (step env w th))
  = match at_ th with Finishing => 1 | _ => 0 end
  /\ done_count (at_ (snd (fst (step env w th))))
     = match at_ th with Finishing | Finished => 1 | _ => 0 end.
Proof.
  unfold step.
  destruct (at_ th) as [|[us i|]|l u|l u|[us i|] u| |] eqn:Hat.
  - destruct (mode_ th); [|split; reflexivity].
    destruct (read_text (fs w) (usernames_file th)) as [text|e];
      [destruct (PyStr.splitlines text)|]; split; reflexivity.
  - destruct (nth_error us i); [destruct (running th)|]; split; reflexivity.
  - destruct (running th); [|split; reflexivity].
    destruct (generate_username _ _ _ _ _) as [u pos].
    generate_cases u th;
      try (cbn; rewrite Hat; split; reflexivity); try (split; reflexivity).
    unfold save_checked_usernames.
    destruct (checked_open_w (fs w)); split; reflexivity.
  - split; reflexivity.
  - pose proof (check_username_quiet (fs w) u (http_get env u)) as (_ & _ & Hq).
    destruct (check_username _ _ _). cbn [snd fst] in *. now rewrite Hq.
  - destruct (PyFloat.percent i (List.length us)); split; reflexivity.
  - split; reflexivity.
  - split; reflexivity.
  - cbn. rewrite Hat. split; reflexivity.
Qed.

Lemma step_finished_signal w th :
  done_count (at_ th) + finished_signals (snd (step env w th))
  = done_count (at_ (snd (fst (step env w th)))).
Proof.
  destruct (step_finished_signal_only w th) as [H1 H2].
  rewrite H1, H2. destruct (at_ th); reflexivity.
Qed.

Lemma run_finished_signals sched : forall w th,
  done_count (at_ th) + finished_signals (snd (run env sched w th))
  = done_count (at_ (snd (fst (run env sched w th)))).
Proof.
  induction sched as [|[] sched IH]; intros w th.
  - cbn. lia.
  - rewrite run_step. pose proof (step_finished_signal w th) as Hs.
    destruct (step env w th) as [[w1 th1] out1]. cbn [fst snd] in Hs.
    specialize (IH w1 th1).
    destruct (run env sched w1 th1) as [[w2 th2] out2]. cbn [fst snd] in *.
    rewrite finished_signals_app. lia.
  - cbn [run]. apply (IH w (stop th)).
Qed.

Lemma done_count_le p : done_count p <= 1.
Proof. destruct p; cbn; lia. Qed.

Lemma done_count_finished p : done_count p = 1 <-> p = Finished.
Proof. destruct p; cbn; split; congruence. Qed.

(** The signal is the last thing a thread does. *)
Lemma run_finished_last sched : forall w th,
  at_ th <> Finished ->
  at_ (snd (fst (run env sched w th))) = Finished ->
  exists o, snd (run env sched w th) = o ++ [Emit signal_finished].
Proof.
  induction sched as [|[] sched IH]; intros w th Hne Hfin.
  - cbn in Hfin. congruence.
  - rewrite run_step in *.
    destruct (at_ th) eqn:Hat; try congruence.
    6: { unfold step in *. rewrite Hat in *.
         destruct (run_from_finished env sched w (goto th Finished) eq_refl)
           as (th' & Hr & _).
         rewrite Hr. exists []. reflexivity. }
    all: pose proof (proj2 (step_finished_signal_only w th)) as Hs;
      rewrite Hat in Hs;
      destruct (step env w th) as [[w1 th1] out1]; cbn [fst snd] in Hs;
      assert (Hne1 : at_ th1 <> Finished)
        by (intros E; rewrite E in Hs; discriminate Hs);
      specialize (IH w1 th1 Hne1);
      destruct (run env sched w1 th1) as [[w2 th2] out2]; cbn [fst snd] in *;
      destruct (IH Hfin) as [o Ho]; exists (out1 ++ o);
      rewrite Ho; apply app_assoc.
  - cbn [run] in *. apply IH; assumption.
Qed.

End Endings.

Section Window.

Lemma deliver_keeps win e :
  MainWindow.information_boxes (MainWindow.deliver win e)
    = MainWindow.information_boxes win
  /\ MainWindow.threads (MainWindow.deliver win e) = MainWindow.threads win
  /\ MainWindow.stop_button_enabled (MainWindow.deliver win e)
     = MainWindow.stop_button_enabled win
  /\ MainWindow.file_button_enabled (MainWindow.deliver win e)
     = MainWindow.file_button_enabled win.
Proof. destruct e as [[m|m|v|]|u|u|l|x|]; repeat split. Qed.

Lemma deliver_all_keeps out : forall win,
  MainWindow.information_boxes (fold_left MainWindow.deliver out win)
    = MainWindow.information_boxes win
  /\ MainWindow.threads (fold_left MainWindow.deliver out win)
     = MainWindow.threads win
  /\ MainWindow.stop_button_enabled (fold_left MainWindow.deliver out win)
     = MainWindow.stop_button_enabled win
  /\ MainWindow.file_button_enabled (fold_left MainWindow.deliver out win)
     = MainWindow.file_button_enabled win.
Proof.
  induction out as [|e out IH]; intros win; cbn [fold_left].
  - repeat split.
  - destruct (IH (MainWindow.deliver win e)) as (H1 & H2 & H3 & H4).
    destruct (deliver_keeps win e) as (K1 & K2 & K3 & K4).
    repeat split; congruence.
Qed.

(** The loop of [stop_checking] ends, and every thread of the list has
    ended when it does. *)
Lemma stop_and_wait_finishes env fuel l : forall k w,
  5 <= fuel ->
  exists w' l' out,
    stop_and_wait fuel env k w l = Some (w', l', out)
    /\ List.length l' = List.length l
    /\ Forall (fun th => CheckerThread.at_ th = Finished) l'.
Proof.
  induction l as [|th l IH]; intros k w Hfuel; cbn [stop_and_wait].
  - exists w, [], []. repeat split. constructor.
  - destruct (wait_stopped env fuel w (CheckerThread.stop th) eq_refl)
      as (w1 & th1 & out1 & Hw & Hat).
    { cbn [CheckerThread.stop CheckerThread.at_].
      destruct (CheckerThread.at_ th); cbn; lia. }
    rewrite Hw.
    destruct (IH (S k) w1 Hfuel) as (w2 & l2 & out2 & Hs & Hlen & Hall).
    rewrite Hs. exists w2, (th1 :: l2), (tag k out1 ++ out2).
    repeat split.
    + cbn. now rewrite Hlen.
    + constructor; assumption.
Qed.

End Window.

(** C5, as stated, fails: a run over a file of one name goes to its end,
    the thread emits [signal_finished], and the window, which is not
    connected to that signal, shows no completion box. *)
Lemma exhausted_run_is_not_announced :
  exists sys,
    acts 5 fake_transport (ClickFile "names.txt" :: repeat (Schedule 0) 7)
      (boot (fresh_world one_name)) = Some sys
    /\ List.length (MainWindow.threads (window sys)) = 1
    /\ Forall (fun th => CheckerThread.at_ th = Finished)
         (MainWindow.threads (window sys))
    /\ probed sys = ["bob"%string]
    /\ In (0, Emit signal_finished) (history sys)
    /\ MainWindow.progress_bar (window sys) = 100%Z
    /\ MainWindow.information_boxes (window sys) = 0.
Proof.
  eexists. split; [vm_compute; reflexivity|].
  repeat split.
  - repeat constructor.
  - cbn. tauto.
Qed.

(** C5, amended. Each thread emits [signal_finished] once, as the last
    thing it does, however its loop ended.  The window does not receive
    it: scheduling a thread never opens the completion box.  The box is
    opened once by [stop_checking], after every thread of the list was
    stopped and waited for. *)
Theorem finished_once_per_thread_box_once_per_stop :
  (forall env sched w th,
     CheckerThread.at_ th = Started ->
     let th' := snd (fst (CheckerThread.run env sched w th)) in
     let out := snd (CheckerThread.run env sched w th) in
     finished_signals out = done_count (CheckerThread.at_ th')
     /\ finished_signals out <= 1
     /\ (CheckerThread.at_ th' = Finished ->
         exists o, out = o ++ [Emit signal_finished]))
  /\ (forall fuel env k sys sys',
        act fuel env (Schedule k) sys = Some sys' ->
        MainWindow.information_boxes (window sys')
        = MainWindow.information_boxes (window sys))
  /\ (forall fuel env sys,
        5 <= fuel ->
        exists w l out sys',
          stop_and_wait fuel env 0 (world sys) (MainWindow.threads (window sys))
            = Some (w, l, out)
          /\ List.length l = List.length (MainWindow.threads (window sys))
          /\ Forall (fun th => CheckerThread.at_ th = Finished) l
          /\ stop_checking fuel env sys = Some sys'
          /\ MainWindow.information_boxes (window sys')
             = S (MainWindow.information_boxes (window sys))
          /\ MainWindow.threads (window sys') = []).
Proof.
  split; [|split].
  - intros env sched w th Hat. cbv zeta.
    pose proof (run_finished_signals env sched w th) as Hs.
    rewrite Hat in Hs. cbn [done_count plus] in Hs.
    split; [exact Hs|]. split.
    + rewrite Hs. apply done_count_le.
    + intros Hfin. apply run_finished_last; [congruence|exact Hfin].
  - intros fuel env k sys sys' Hact. unfold act in Hact.
    destruct (nth_error (MainWindow.threads (window sys)) k) as [th|];
      [|now inversion Hact].
    destruct (CheckerThread.step env (world sys) th) as [[w th'] out].
    inversion Hact. cbn.
    apply (deliver_all_keeps out (window sys)).
  - intros fuel env sys Hfuel.
    destruct (stop_and_wait_finishes env fuel (MainWindow.threads (window sys))
                0 (world sys) Hfuel) as (w & l & out & Hs & Hlen & Hall).
    unfold stop_checking. rewrite Hs.
    exists w, l, out. eexists. repeat split; try eassumption.
    cbn. f_equal. apply (deliver_all_keeps (map snd out) (window sys)).
Qed.

Lemma finished_once_per_thread_box_once_per_stop_witness :
  (exists o,
     snd (CheckerThread.run fake_transport (repeat CheckerThread.Step 7)
            (fresh_world one_name) (file_thread (fresh_world one_name)))
     = o ++ [Emit signal_finished])
  /\ (exists sys',
        act 5 counting_transport (Schedule 1)
          (start_checking (boot (fresh_world "")) generate "" 3 true true 3)
        = Some sys'
        /\ MainWindow.information_boxes (window sys') = 0)
  /\ (exists w l out sys',
        stop_and_wait 5 counting_transport 0 (fresh_world "")
          (repeat (generate_thread (fresh_world "")) 3) = Some (w, l, out)
        /\ List.length l = 3
        /\ Forall (fun th => CheckerThread.at_ th = Finished) l
        /\ stop_checking 5 counting_transport
             (start_checking (boot (fresh_world "")) generate "" 3 true true 3)
           = Some sys'
        /\ MainWindow.information_boxes (window sys') = 1
        /\ MainWindow.threads (window sys') = []).
Proof.
  destruct finished_once_per_thread_box_once_per_stop as (P1 & P2 & P3).
  split; [|split].
  - apply (P1 fake_transport (repeat CheckerThread.Step 7)
             (fresh_world one_name) (file_thread (fresh_world one_name)) eq_refl).
    vm_compute. reflexivity.
  - destruct (act 5 counting_transport (Schedule 1)
                (start_checking (boot (fresh_world "")) generate "" 3 true
                   true 3)) as [sys'|] eqn:H;
      [|vm_compute in H; discriminate H].
    exists sys'. split; [reflexivity|].
    apply (P2 5 counting_transport 1
             (start_checking (boot (fresh_world "")) generate "" 3 true true 3)
             sys' H).
  - apply (P3 5 counting_transport
             (start_checking (boot (fresh_world "")) generate "" 3 true true 3)
             (le_n 5)).
Defined.

(** C7, as stated, fails: while the thread of a first file is still
    running, choosing a file again is not refused and adds a thread. *)
Lemma second_start_spawns_a_thread :
  exists s1 s2,
    act 5 fake_transport (ClickFile "names.txt") (boot (fresh_world one_name))
      = Some s1
    /\ act 5 fake_transport (ClickFile "names.txt") s1 = Some s2
    /\ Forall (fun th => CheckerThread.at_ th = Started
                         /\ CheckerThread.running th = true)
         (MainWindow.threads (window s1))
    /\ List.length (MainWindow.threads (window s1)) = 1
    /\ List.length (MainWindow.threads (window s2)) = 2
    /\ MainWindow.threads (window s2) <> MainWindow.threads (window s1).
Proof.
  eexists. eexists. split; [vm_compute; reflexivity|].
  split; [vm_compute; reflexivity|].
  repeat split.
  - repeat constructor.
  - discriminate.
Qed.

(** C8, as stated, fails: the file is opened by the thread, not before it
    is started; choosing a file that cannot be opened starts a thread. *)
Lemma unreadable_file_still_starts_a_thread :
  exists e sys,
    read_text (fs (fresh_world "")) "missing.txt" = Raise e
    /\ act 5 fake_transport (ClickFile "missing.txt") (boot (fresh_world ""))
       = Some sys
    /\ List.length (MainWindow.threads (window sys)) = 1
    /\ Forall (fun th => CheckerThread.at_ th = Started
                         /\ CheckerThread.running th = true)
         (MainWindow.threads (window sys)).
Proof.
  eexists. eexists. split; [reflexivity|].
  split; [vm_compute; reflexivity|].
  split; [reflexivity|]. repeat constructor.
Qed.

(** C8, amended. When the file cannot be opened, [choose_file] still
    starts its thread; that thread writes the failure once on the log of
    taken names, sends no request, leaves the files alone and ends with
    [signal_finished]; the window shows the one line. *)
Theorem unreadable_file_is_reported_once :
  forall env sched sys filename e,
    PyStr.truthy filename = true ->
    read_text (fs (world sys)) filename = Raise e ->
    2 <= steps sched ->
    let th := CheckerThread.init (fs (world sys)) file filename 3 true true in
    MainWindow.threads (window (choose_file sys filename))
      = MainWindow.threads (window sys) ++ [th]
    /\ (exists th',
          CheckerThread.run env sched (world sys) th =
            (world sys, th',
             [Emit (signal_update_taken_log (ReadFailed e)); Emit signal_finished])
          /\ CheckerThread.at_ th' = Finished)
    /\ gets [Emit (signal_update_taken_log (ReadFailed e)); Emit signal_finished] = []
    /\ (forall fuel,
          MainWindow.threads (window sys) = [] ->
          exists sys',
            acts fuel env [Schedule 0; Schedule 0] (choose_file sys filename)
              = Some sys'
            /\ MainWindow.taken_log_text (window sys')
               = MainWindow.taken_log_text (window sys) ++ [ReadFailed e]
            /\ history sys'
               = history sys
                 ++ [(0, Emit (signal_update_taken_log (ReadFailed e)));
                     (0, Emit signal_finished)]
            /\ world sys' = world sys).
Proof.
  intros env sched sys filename e Ht Hread Hs th. subst th.
  split; [|split; [|split]].
  - unfold choose_file. rewrite Ht. reflexivity.
  - apply run_nothing_to_check; try reflexivity; try assumption.
    unfold CheckerThread.step. cbn [CheckerThread.at_ CheckerThread.init
      CheckerThread.mode_ CheckerThread.usernames_file].
    now rewrite Hread.
  - reflexivity.
  - intros fuel Hnil. unfold choose_file. rewrite Ht.
    unfold start_checking. rewrite Hnil.
    cbn [acts act window MainWindow.threads MainWindow.set_stop_button
         MainWindow.set_threads app repeat nth_error world].
    unfold CheckerThread.step at 1.
    cbn [CheckerThread.at_ CheckerThread.init CheckerThread.mode_
         CheckerThread.usernames_file].
    rewrite Hread.
    cbn [acts act window MainWindow.threads MainWindow.set_stop_button
         MainWindow.set_threads app repeat nth_error world fold_left
         MainWindow.deliver MainWindow.update_taken_log replace_nth
         CheckerThread.step CheckerThread.goto CheckerThread.at_ history tag map].
    eexists. split; [reflexivity|].
    cbn [window world history MainWindow.taken_log_text MainWindow.set_threads].
    repeat split. now rewrite <- app_assoc.
Qed.

Lemma unreadable_file_is_reported_once_witness :
  exists sys',
    acts 5 fake_transport [Schedule 0; Schedule 0]
      (choose_file (boot (fresh_world "")) "missing.txt") = Some sys'
    /\ MainWindow.taken_log_text (window sys')
       = MainWindow.taken_log_text (window (boot (fresh_world "")))
         ++ [ReadFailed "[Errno 2] No such file or directory"]
    /\ history sys'
       = history (boot (fresh_world ""))
         ++ [(0, Emit (signal_update_taken_log
                         (ReadFailed "[Errno 2] No such file or directory")));
             (0, Emit signal_finished)]
    /\ world sys' = world (boot (fresh_world "")).
Proof.
  apply (proj2 (proj2 (proj2
           (unreadable_file_is_reported_once fake_transport
              [CheckerThread.Step; CheckerThread.Step]
              (boot (fresh_world "")) "missing.txt"
              "[Errno 2] No such file or directory"
              eq_refl eq_refl (le_n 2)))) 5).
  reflexivity.
Defined.

(** ** Generated names *)

Section Generation.
Variable env : Env.

Import CheckerThread.

Lemma gets_nil_no_get out o1 u o2 :
  gets out = [] -> out <> o1 ++ Get u :: o2.
Proof.
  intros Hg E. rewrite E, gets_app in Hg. cbn in Hg.
  destruct (gets o1); discriminate.
Qed.

Lemma saved_before_get_quiet done out :
  saved_before_get done -> gets out = [] -> saved_before_get (done ++ out).
Proof.
  intros Hs Hq o1 u o2 E.
  apply app_eq_app in E. destruct E as [l [[E1 E2]|[E1 E2]]].
  - destruct l as [|x l].
    + cbn in E2. symmetry in E2. rewrite app_nil_r in E1. subst.
      exfalso. apply (gets_nil_no_get (Get u :: o2) [] u o2 Hq). reflexivity.
    + cbn in E2. inversion E2. subst. apply (Hs o1 u l). reflexivity.
  - exfalso. apply (gets_nil_no_get out l u o2 Hq). exact E2.
Qed.

Lemma saved_before_get_snoc done u :
  saved_before_get done ->
  (exists l, In (Save l) done /\ In u l) ->
  saved_before_get (done ++ [Get u]).
Proof.
  intros Hs Hu o1 u' o2 E.
  apply app_eq_app in E. destruct E as [l [[E1 E2]|[E1 E2]]].
  - destruct l as [|x l].
    + cbn in E2. inversion E2. rewrite app_nil_r in E1. subst. exact Hu.
    + cbn in E2. inversion E2. subst. apply (Hs o1 u' l). reflexivity.
  - destruct l as [|x l].
    + cbn in E2. inversion E2. rewrite app_nil_r in E1. subst. exact Hu.
    + cbn in E2. inversion E2. destruct l; discriminate.
Qed.

Lemma generating_stop loaded th done :
  generating loaded th done -> generating loaded (stop th) done.
Proof. intros H. exact H. Qed.

Lemma grown_append loaded v chosen checked u :
  grown loaded v chosen -> PyValue.append v u = Ok checked ->
  exists l, loaded = PyList l /\ v = PyList (l ++ chosen)
            /\ checked = (l ++ chosen) ++ [u].
Proof.
  unfold grown. destruct loaded as [l|ks|s|]; intros H Ha.
  - subst v. cbn in Ha. inversion Ha. exists l. repeat split.
  - destruct H as [-> _]. discriminate Ha.
  - destruct H as [-> _]. discriminate Ha.
  - destruct H as [-> _]. discriminate Ha.
Qed.

Lemma grown_names loaded v chosen :
  grown loaded v chosen ->
  PyValue.names v = PyValue.names loaded ++ chosen.
Proof.
  unfold grown. destruct loaded as [l|ks|s|].
  - intros ->. reflexivity.
  - intros [-> ->]. now rewrite app_nil_r.
  - intros [-> ->]. reflexivity.
  - intros [-> ->]. reflexivity.
Qed.

Lemma generating_step loaded w th done :
  generating loaded th done ->
  generating loaded (snd (fst (step env w th))) (done ++ snd (step env w th)).
Proof.
  intros (Hmode & Hpc & Hchk & Hnd & Hfresh & Hsaved & Hpend).
  unfold generating, step.
  destruct (at_ th) as [|[us i|]|[us i|] u|[us i|] u|[us i|] u| |] eqn:Hat;
    try contradiction; cbn [pending] in *; rewrite ?app_nil_r in *.
  - (* Started *)
    rewrite Hmode. cbn [fst snd at_ goto mode_ checked_usernames pending].
    rewrite ?app_nil_r. repeat split; assumption.
  - (* the head of the while loop *)
    destruct (running th).
    + destruct (generate_username _ _ _ _ _) as [u pos].
      generate_cases u th.
      * cbn [fst snd]. rewrite Hat. cbn [pending]. rewrite ?app_nil_r.
        repeat split; assumption.
      * destruct (grown_append _ _ _ _ _ Hchk Happend) as (l & -> & Hv & ->).
        assert (Hnew : ~ In u (l ++ gets done)).
        { rewrite Hv in Hin. cbn in Hin. inversion Hin as [Hm].
          now apply mem_false_iff in Hm. }
        destruct (save_checked_usernames (fs w) ((l ++ gets done) ++ [u]))
          as [f printed] eqn:Hsave.
        assert (Hq : gets (Save ((l ++ gets done) ++ [u]) :: printed) = []).
        { unfold save_checked_usernames in Hsave.
          destruct (checked_open_w (fs w)); inversion Hsave; reflexivity. }
        cbn [fst snd at_ goto mode_ checked_usernames set_checked_usernames
             pending].
        rewrite gets_app, Hq, app_nil_r. cbn [PyValue.names] in *.
        split; [exact Hmode|]. split; [exact I|].
        split; [cbn [grown]; rewrite <- app_assoc; reflexivity|].
        split; [|split; [|split]].
        -- apply NoDup_app; [exact Hnd|repeat constructor; intros []|].
           intros x Hx [<-|[]]. apply Hnew, in_or_app. now right.
        -- intros x Hx Hl. apply in_app_or in Hx. destruct Hx as [Hx|[<-|[]]].
           ++ now apply (Hfresh x).
           ++ apply Hnew, in_or_app. now left.
        -- now apply saved_before_get_quiet.
        -- intros x [<-|[]]. exists ((l ++ gets done) ++ [u]). split.
           ++ apply in_or_app. right. now left.
           ++ apply in_or_app. right. now left.
      * cbn [fst snd at_ goto mode_ checked_usernames pending].
        rewrite gets_app. cbn [gets flat_map app]. rewrite ?app_nil_r.
        split; [exact Hmode|]. split; [exact I|]. split; [exact Hchk|].
        split; [exact Hnd|]. split; [exact Hfresh|]. split.
        -- now apply saved_before_get_quiet.
        -- intros x [].
      * cbn [fst snd at_ goto mode_ checked_usernames pending].
        rewrite gets_app. cbn [gets flat_map app]. rewrite ?app_nil_r.
        split; [exact Hmode|]. split; [exact I|]. split; [exact Hchk|].
        split; [exact Hnd|]. split; [exact Hfresh|]. split.
        -- now apply saved_before_get_quiet.
        -- intros x [].
      * cbn [fst snd]. rewrite Hat. cbn [pending]. rewrite ?app_nil_r.
        repeat split; assumption.
    + cbn [fst snd at_ goto mode_ checked_usernames pending].
      rewrite ?app_nil_r. repeat split; assumption.
  - (* the request is sent *)
    cbn [fst snd at_ goto mode_ checked_usernames pending].
    rewrite gets_app. cbn [gets flat_map app]. rewrite ?app_nil_r.
    split; [exact Hmode|]. split; [exact I|]. split; [exact Hchk|].
    split; [exact Hnd|]. split; [exact Hfresh|]. split.
    + apply saved_before_get_snoc; [exact Hsaved|]. apply Hpend. now left.
    + intros x [].
  - (* the reply arrives *)
    pose proof (check_username_quiet (fs w) u (http_get env u)) as (Hq & _).
    destruct (check_username (fs w) u (http_get env u)) as [f out].
    cbn [fst snd] in *. cbn [at_ goto mode_ checked_usernames pending].
    rewrite gets_app, Hq, !app_nil_r.
    split; [exact Hmode|]. split; [exact I|]. split; [exact Hchk|].
    split; [exact Hnd|]. split; [exact Hfresh|]. split.
    + now apply saved_before_get_quiet.
    + intros x [].
  - (* the sleep is over *)
    cbn [fst snd at_ goto mode_ checked_usernames pending].
    rewrite ?app_nil_r. repeat split; assumption.
  - (* the finally clause *)
    cbn [fst snd at_ goto mode_ checked_usernames pending].
    rewrite gets_app. cbn [gets flat_map app]. rewrite ?app_nil_r.
    split; [exact Hmode|]. split; [exact I|]. split; [exact Hchk|].
    split; [exact Hnd|]. split; [exact Hfresh|]. split.
    + now apply saved_before_get_quiet.
    + intros x [].
  - cbn [fst snd]. rewrite Hat. cbn [pending]. rewrite ?app_nil_r.
    repeat split; assumption.
Qed.

Lemma generating_run sched : forall loaded w th done,
  generating loaded th done ->
  generating loaded (snd (fst (run env sched w th)))
    (done ++ snd (run env sched w th)).
Proof.
  induction sched as [|[] sched IH]; intros loaded w th done H.
  - cbn. now rewrite app_nil_r.
  - rewrite run_step. pose proof (generating_step loaded w th done H) as Hs.
    destruct (step env w th) as [[w1 th1] out1]. cbn [fst snd] in Hs.
    specialize (IH loaded w1 th1 (done ++ out1) Hs).
    destruct (run env sched w1 th1) as [[w2 th2] out2]. cbn [fst snd] in *.
    now rewrite app_assoc.
  - cbn [run]. apply IH. now apply generating_stop.
Qed.

Lemma persisted_step w th :
  persisted w th ->
  persisted (fst (fst (step env w th))) (snd (fst (step env w th))).
Proof.
  intros [Hw Hl]. unfold persisted, step.
  destruct (at_ th) as [|[us i|]|l u|l u|[us i|] u| |] eqn:Hat.
  - destruct (mode_ th); [|split; assumption].
    destruct (read_text (fs w) (usernames_file th)) as [text|e];
      [destruct (PyStr.splitlines text)|]; split; assumption.
  - destruct (nth_error us i); [destruct (running th)|]; split; assumption.
  - destruct (running th); [|split; assumption].
    destruct (generate_username _ _ _ _ _) as [u pos].
    generate_cases u th; try (split; assumption).
    unfold save_checked_usernames. rewrite Hw.
    cbn [fst snd fs checked_usernames goto set_checked_usernames].
    split; [exact Hw|].
    unfold load_checked_usernames.
    cbn [set_checked_file CHECKED_USERNAMES_FILE].
    now rewrite loads_dumps.
  - split; assumption.
  - unfold check_username.
    destruct (http_get env u) as [text|e];
      [destruct (PyStr.contains error_ctn text);
       [destruct (available_open_a (fs w))|]|];
      split; assumption.
  - destruct (PyFloat.percent i (List.length us)); split; assumption.
  - split; assumption.
  - split; assumption.
  - split; assumption.
Qed.

Lemma persisted_run sched : forall w th,
  persisted w th ->
  persisted (fst (fst (run env sched w th))) (snd (fst (run env sched w th))).
Proof.
  induction sched as [|[] sched IH]; intros w th H.
  - exact H.
  - rewrite run_step. pose proof (persisted_step w th H) as Hs.
    destruct (step env w th) as [[w1 th1] out1]. cbn [fst snd] in Hs.
    specialize (IH w1 th1 Hs).
    destruct (run env sched w1 th1) as [[w2 th2] out2]. exact IH.
  - cbn [run]. apply IH. exact H.
Qed.

Lemma generating_init f usernames_file n d u :
  generating (fst (load_checked_usernames f))
    (init f generate usernames_file n d u) [].
Proof.
  unfold generating.
  cbn [init mode_ at_ checked_usernames gets flat_map pending app generate_pc].
  split; [reflexivity|]. split; [exact I|]. split.
  - unfold grown. destruct (fst (load_checked_usernames f));
      [now rewrite app_nil_r|now split..].
  - repeat split; try constructor; try contradiction.
    intros o1 x o2 E. destruct o1; discriminate.
Qed.

End Generation.

(** C2, as stated, fails: at normal speed three threads are started, each
    with its own copy of the list; the first two both draw [aaa] and both
    request it. *)
Lemma two_threads_probe_the_same_name :
  exists sys,
    acts 5 fake_transport
      (ClickGenerate 3 true true Normal
         :: repeat (Schedule 0) 3 ++ repeat (Schedule 1) 3)
      (boot (fresh_world "")) = Some sys
    /\ probed sys = ["aaa"; "aaa"]%string
    /\ ~ NoDup (probed sys).
Proof.
  eexists. split; [vm_compute; reflexivity|].
  split; [reflexivity|].
  intros H. inversion H as [|x l Hin _]. apply Hin. now left.
Qed.

(** C2, amended. One generating thread rejects a drawn name that is in
    its own list, and requests a name only after appending it to the list
    and calling [save_checked_usernames] on the list: it never requests a
    name twice, nor a name it loaded.  When the store can be written, a
    thread started after the run of another one requests none of the
    names of that run. *)
Theorem generated_names_are_fresh :
  (forall env sched w length use_digits use_underscore,
     let th := CheckerThread.init (fs w) generate "" length use_digits
                 use_underscore in
     let out := snd (CheckerThread.run env sched w th) in
     NoDup (gets out)
     /\ (forall x, In x (gets out) ->
                   ~ In x (PyValue.names (CheckerThread.checked_usernames th)))
     /\ saved_before_get out)
  /\ (forall env1 env2 sched1 sched2 w length1 digits1 underscore1
             length2 digits2 underscore2,
        checked_open_w (fs w) = Ok tt ->
        let th1 := CheckerThread.init (fs w) generate "" length1 digits1
                     underscore1 in
        let r1 := CheckerThread.run env1 sched1 w th1 in
        let th2 := CheckerThread.init (fs (fst (fst r1))) generate "" length2
                     digits2 underscore2 in
        let r2 := CheckerThread.run env2 sched2 (fst (fst r1)) th2 in
        NoDup (gets (snd r1) ++ gets (snd r2))
        /\ (forall x, In x (gets (snd r1) ++ gets (snd r2)) ->
                      ~ In x (PyValue.names
                                (CheckerThread.checked_usernames th1)))).
Proof.
  assert (One : forall env sched w length use_digits use_underscore,
            let th := CheckerThread.init (fs w) generate "" length use_digits
                        use_underscore in
            generating (CheckerThread.checked_usernames th)
              (snd (fst (CheckerThread.run env sched w th)))
              (snd (CheckerThread.run env sched w th))).
  { intros env sched w n d u th.
    apply (generating_run env sched _ w th []).
    apply generating_init. }
  split.
  - intros env sched w n d u th out.
    destruct (One env sched w n d u) as (_ & _ & _ & Hnd & Hfresh & Hsaved & _).
    fold th in Hnd, Hfresh, Hsaved. fold out in Hnd, Hfresh, Hsaved.
    split; [|split].
    + apply NoDup_app_remove_r in Hnd. exact Hnd.
    + intros x Hx. apply Hfresh, in_or_app. now left.
    + exact Hsaved.
  - intros env1 env2 sched1 sched2 w n1 d1 u1 n2 d2 u2 Hw th1 r1 th2 r2.
    destruct (One env1 sched1 w n1 d1 u1) as (_ & _ & Hchk1 & Hnd1 & Hfresh1 & _).
    fold th1 in Hchk1, Hnd1, Hfresh1. fold r1 in Hchk1, Hnd1, Hfresh1.
    destruct (One env2 sched2 (fst (fst r1)) n2 d2 u2)
      as (_ & _ & _ & Hnd2 & Hfresh2 & _).
    fold th2 in Hnd2, Hfresh2. fold r2 in Hnd2, Hfresh2.
    assert (Hp : persisted (fst (fst r1)) (snd (fst r1))).
    { apply persisted_run. split; [exact Hw|reflexivity]. }
    destruct Hp as [_ Hload].
    assert (Hth2 : CheckerThread.checked_usernames th2
                   = CheckerThread.checked_usernames (snd (fst r1)))
      by exact Hload.
    split.
    + apply NoDup_app.
      * apply NoDup_app_remove_r in Hnd1. exact Hnd1.
      * apply NoDup_app_remove_r in Hnd2. exact Hnd2.
      * intros x H1 H2.
        apply (Hfresh2 x); [apply in_or_app; now left|].
        rewrite Hth2, (grown_names _ _ _ Hchk1). apply in_or_app. right.
        apply in_or_app. now left.
    + intros x Hx. apply in_app_or in Hx. destruct Hx as [Hx|Hx].
      * apply Hfresh1, in_or_app. now left.
      * intros Hl. apply (Hfresh2 x); [apply in_or_app; now left|].
        rewrite Hth2, (grown_names _ _ _ Hchk1). apply in_or_app. now left.
Qed.

Lemma generated_names_are_fresh_witness :
  NoDup
    (gets (snd (CheckerThread.run fake_transport (repeat CheckerThread.Step 3)
                  (fresh_world "")
                  (CheckerThread.init (fs (fresh_world "")) generate "" 3 true true)))
     ++ gets (snd (CheckerThread.run fake_transport (repeat CheckerThread.Step 9)
                     (fst (fst (CheckerThread.run fake_transport
                                  (repeat CheckerThread.Step 3) (fresh_world "")
                                  (CheckerThread.init (fs (fresh_world ""))
                                     generate "" 3 true true))))
                     (CheckerThread.init
                        (fs (fst (fst (CheckerThread.run fake_transport
                                         (repeat CheckerThread.Step 3)
                                         (fresh_world "")
                                         (CheckerThread.init (fs (fresh_world ""))
                                            generate "" 3 true true)))))
                        generate "" 3 true true)))).
Proof.
  apply (proj2 generated_names_are_fresh fake_transport fake_transport
           (repeat CheckerThread.Step 3) (repeat CheckerThread.Step 9)
           (fresh_world "") 3 true true 3 true true eq_refl).
Defined.

(* ===================================================================== *)
(** * Further properties *)
(* ===================================================================== *)

(** ** The progress value is a percentage *)

Section Percentage.
Local Open Scope Z_scope.

Lemma iter_shr_1_exact n : forall a,
  0 <= a ->
  iter_pos shr_1 n {| shr_m := a * 2 ^ Zpos n; shr_r := false; shr_s := false |}
  = {| shr_m := a; shr_r := false; shr_s := false |}.
Proof.
  assert (H1 : forall a, 0 <= a ->
             shr_1 {| shr_m := a * 2; shr_r := false; shr_s := false |}
             = {| shr_m := a; shr_r := false; shr_s := false |}).
  { intros a Ha. destruct a as [|p|p]; [reflexivity| |lia].
    replace (Zpos p * 2) with (Zpos p~0) by lia. reflexivity. }
  assert (Hp : forall k, 0 < 2 ^ Zpos k) by (intros; apply Z.pow_pos_nonneg; lia).
  induction n as [n IH|n IH|]; intros a Ha; cbn [iter_pos].
  - replace (a * 2 ^ Zpos n~1) with ((a * 2 ^ Zpos n * 2 ^ Zpos n) * 2).
    2:{ replace (Zpos n~1) with (1 + Zpos n + Zpos n) by lia.
        rewrite !Z.pow_add_r by lia. ring. }
    pose proof (Hp n).
    rewrite H1 by nia. rewrite IH by nia. apply IH. exact Ha.
  - replace (a * 2 ^ Zpos n~0) with ((a * 2 ^ Zpos n) * 2 ^ Zpos n).
    2:{ replace (Zpos n~0) with (Zpos n + Zpos n) by lia.
        rewrite !Z.pow_add_r by lia. ring. }
    pose proof (Hp n).
    rewrite IH by nia. apply IH. exact Ha.
  - change (2 ^ 1) with 2. apply H1. exact Ha.
Qed.

(** What [shr_fexp] does to a non-negative mantissa: it divides it by a
    power of two, and an exact mantissa that is a multiple of that power
    stays exact. *)
Lemma shr_fexp_value m e l :
  0 <= m ->
  let r := shr_fexp PyFloat.prec PyFloat.emax m e l in
  let n := snd r - e in
  0 <= n
  /\ snd r = Z.max e (Z.max (Zdigits2 m + e - 53) (-1074))
  /\ shr_m (fst r) = m / 2 ^ n
  /\ (l = loc_Exact -> m mod 2 ^ n = 0 ->
      loc_of_shr_record (fst r) = loc_Exact).
Proof.
  intros Hm. unfold shr_fexp, shr. rewrite fexp64.
  destruct (Z.max (Zdigits2 m + e - 53) (-1074) - e) as [|p|p] eqn:En;
    cbn [fst snd].
  - rewrite Z.sub_diag, shr_record_of_loc_m. change (2 ^ 0) with 1.
    rewrite Z.div_1_r. repeat split; try lia. intros -> _. reflexivity.
  - replace (e + Zpos p - e) with (Zpos p) by lia.
    rewrite iter_shr_1_m by (rewrite shr_record_of_loc_m; exact Hm).
    rewrite shr_record_of_loc_m. repeat split; try lia.
    intros -> Hmod. cbn [shr_record_of_loc].
    assert (Hp : 0 < 2 ^ Zpos p) by (apply Z.pow_pos_nonneg; lia).
    assert (Hd : m = (m / 2 ^ Zpos p) * 2 ^ Zpos p).
    { pose proof (Z.div_mod m (2 ^ Zpos p) ltac:(lia)). lia. }
    rewrite Hd at 1. rewrite iter_shr_1_exact; [reflexivity|].
    apply Z.div_pos; lia.
  - rewrite Z.sub_diag, shr_record_of_loc_m. change (2 ^ 0) with 1.
    rewrite Z.div_1_r. repeat split; try lia. intros -> _. reflexivity.
Qed.

(** Rounding does not step over a bound that the format holds at the
    exponent of the result. *)
Lemma binary_round_aux_le s mx ex lx M :
  0 <= mx -> Zdigits2 mx + ex <= 900 -> 0 <= M ->
  let e1 := Z.max ex (Z.max (Zdigits2 mx + ex - 53) (-1074)) in
  (mx < M * 2 ^ (e1 - ex) \/ (mx = M * 2 ^ (e1 - ex) /\ lx = loc_Exact)) ->
  match binary_round_aux PyFloat.prec PyFloat.emax s mx ex lx with
  | S754_zero _ => True
  | S754_finite s' m e => s' = s /\ e1 <= e /\ Zpos m * 2 ^ (e - e1) <= M
  | _ => False
  end.
Proof.
  intros Hm Hd HM e1 Hle. subst e1. unfold binary_round_aux.
  pose proof (shr_fexp_bound mx ex lx Hm) as B1.
  pose proof (shr_fexp_value mx ex lx Hm) as V1. cbv zeta in B1, V1.
  destruct (shr_fexp PyFloat.prec PyFloat.emax mx ex lx) as [mrs1 e1'].
  cbn [fst snd] in B1, V1.
  destruct B1 as (B1a & B1b & _). destruct V1 as (V1n & V1e & V1m & V1x).
  set (e1 := Z.max ex (Z.max (Zdigits2 mx + ex - 53) (-1074))) in *.
  assert (He1 : e1 <= 900) by (pose proof (Zdigits2_nonneg mx); lia).
  clearbody e1. subst e1'.
  assert (Hp1 : 0 < 2 ^ (e1 - ex)) by (apply Z.pow_pos_nonneg; lia).
  pose proof (round_nearest_even_bound (shr_m mrs1) (loc_of_shr_record mrs1)) as Hr.
  assert (Hm2 : round_nearest_even (shr_m mrs1) (loc_of_shr_record mrs1) <= M).
  { destruct Hle as [Hlt|[Heq Hx]].
    - assert (shr_m mrs1 < M).
      { rewrite V1m. apply Z.div_lt_upper_bound; [lia|]. lia. }
      lia.
    - rewrite V1x; [|exact Hx|rewrite Heq; apply Z.mod_mul; lia].
      cbn [round_nearest_even]. rewrite V1m, Heq, Z.div_mul by lia. lia. }
  set (m2 := round_nearest_even (shr_m mrs1) (loc_of_shr_record mrs1)) in *.
  assert (H0m2 : 0 <= m2) by lia.
  pose proof (shr_fexp_bound m2 e1 loc_Exact H0m2) as B2.
  pose proof (shr_fexp_value m2 e1 loc_Exact H0m2) as V2. cbv zeta in B2, V2.
  destruct (shr_fexp PyFloat.prec PyFloat.emax m2 e1 loc_Exact) as [mrs2 e2].
  cbn [fst snd] in B2, V2.
  destruct B2 as (B2a & B2b & B2c). destruct V2 as (V2n & _ & V2m & _).
  pose proof (Zdigits2_succ (shr_m mrs1) m2 ltac:(lia) B1a) as Hs.
  pose proof (Zdigits2_nonneg mx) as Hdx.
  destruct (shr_m mrs2) as [|m|m] eqn:Em; [exact I| |lia].
  replace (e2 <=? PyFloat.emax - PyFloat.prec) with true.
  - split; [reflexivity|]. split; [lia|].
    assert (Hp2 : 0 < 2 ^ (e2 - e1)) by (apply Z.pow_pos_nonneg; lia).
    pose proof (Z.mul_div_le m2 (2 ^ (e2 - e1)) Hp2) as Hmd.
    rewrite <- V2m in Hmd. lia.
  - symmetry. apply Z.leb_le. unfold PyFloat.emax, PyFloat.prec. lia.
Qed.

Lemma SFdiv_core_le_one k n :
  (k <= n)%positive ->
  exists q e l,
    SFdiv_core_binary PyFloat.prec PyFloat.emax (Zpos k) 0 (Zpos n) 0 = (q, e, l)
    /\ 0 <= q /\ -1074 <= e <= -53 /\ Zdigits2 q + e <= 1
    /\ (q < 2 ^ (- e) \/ (q = 2 ^ (- e) /\ l = loc_Exact)).
Proof.
  intros Hkn. unfold SFdiv_core_binary. rewrite fexp64.
  assert (Hd : Zdigits2 (Zpos k) <= Zdigits2 (Zpos n))
    by (apply Zdigits2_mono; lia).
  rewrite !Z.add_0_r, Z.sub_diag.
  set (e' := Z.min _ _).
  assert (He : -1074 <= e' <= -53) by (unfold e'; lia).
  clearbody e'.
  rewrite Z.sub_0_l.
  destruct (- e') as [|p|p] eqn:Es; try lia.
  rewrite Z.shiftl_mul_pow2 by lia.
  assert (Hp : 0 < 2 ^ Zpos p) by (apply Z.pow_pos_nonneg; lia).
  pose proof (Z_div_mod (Zpos k * 2 ^ Zpos p) (Zpos n) ltac:(lia)) as Hdm.
  destruct (Z.div_eucl (Zpos k * 2 ^ Zpos p) (Zpos n)) as [q r].
  destruct Hdm as [Heq Hr].
  assert (Hq0 : 0 <= q) by nia.
  assert (Hq1 : q <= 2 ^ Zpos p) by nia.
  assert (Hdq : Zdigits2 q <= Zpos p + 1).
  { apply Zdigits2_le; [lia|lia|]. rewrite Z.pow_add_r by lia. lia. }
  exists q, e', (new_location (Zpos n) r).
  split; [reflexivity|]. split; [exact Hq0|]. split; [exact He|].
  split; [lia|]. rewrite ?Es.
  destruct (Z.eq_dec q (2 ^ Zpos p)) as [Hq|Hq]; [right|left; lia].
  split; [exact Hq|].
  assert (r = 0) by nia. subst r.
  unfold new_location, new_location_even, new_location_odd.
  destruct (Z.even (Zpos n)); reflexivity.
Qed.

(** The quotient of two positive integers [k <= n] is a float, at most
    one. *)
Lemma truediv_le_one k n :
  (k <= n)%positive ->
  exists q, PyFloat.truediv (Zpos k) (Zpos n) = Ok q /\ at_most_one q.
Proof.
  intros Hkn. unfold PyFloat.truediv.
  change (Zpos n =? 0) with false. cbv iota.
  cbn [PyFloat.exact SFdiv].
  destruct (SFdiv_core_le_one k n Hkn)
    as (q & e' & l & Hc & Hq0 & He & Hdq & Hle).
  rewrite Hc. cbn [xorb].
  set (e1 := Z.max e' (Z.max (Zdigits2 q + e' - 53) (-1074))).
  assert (He1 : e' <= e1 <= -52) by (unfold e1; lia).
  assert (Hpow : 2 ^ (- e') = 2 ^ (- e1) * 2 ^ (e1 - e')).
  { rewrite <- Z.pow_add_r by lia. f_equal; lia. }
  pose proof (binary_round_aux_le false q e' l (2 ^ (- e1)) Hq0 ltac:(lia)
                ltac:(apply Z.pow_nonneg; lia)) as Hb.
  cbv zeta in Hb. fold e1 in Hb. rewrite <- Hpow in Hb. specialize (Hb Hle).
  destruct (binary_round_aux PyFloat.prec PyFloat.emax false q e' l)
    as [sz| | |sf m e]; try contradiction.
  - eexists; split; [reflexivity|exact I].
  - eexists; split; [reflexivity|]. destruct Hb as (Hs & Hee & Hm).
    cbn [at_most_one]. split; [exact Hs|].
    assert (Hp : 0 < 2 ^ (e - e1)) by (apply Z.pow_pos_nonneg; lia).
    assert (He0 : e <= 0).
    { destruct (Z_le_gt_dec e 0) as [H|H]; [exact H|exfalso].
      assert (2 ^ (- e1) < 2 ^ (e - e1))
        by (apply Z.pow_lt_mono_r; lia).
      nia. }
    split; [exact He0|].
    assert (Hsplit : 2 ^ (- e1) = 2 ^ (- e) * 2 ^ (e - e1)).
    { rewrite <- Z.pow_add_r by lia. f_equal; lia. }
    rewrite Hsplit in Hm.
    apply Z.mul_le_mono_pos_r in Hm; [exact Hm|exact Hp].
Qed.

Lemma mul_100_range q :
  at_most_one q ->
  exists v, PyFloat.to_int (PyFloat.mul q (PyFloat.of_int 100)) = Ok v
            /\ 0 <= v <= 100.
Proof.
  intros Hq. change (PyFloat.of_int 100) with (S754_finite false 7036874417766400 (-46)).
  destruct q as [sz| | |sf m e]; try contradiction.
  - exists 0. split; [reflexivity|lia].
  - cbn [at_most_one] in Hq. destruct Hq as (-> & He & Hm).
    unfold PyFloat.mul. cbn [SFmul xorb].
    assert (Hpe : 0 < 2 ^ (- e)) by (apply Z.pow_pos_nonneg; lia).
    assert (H100 : 7036874417766400 = 100 * 2 ^ 46) by reflexivity.
    set (mx := Zpos (m * 7036874417766400)).
    assert (Hmx : mx = Zpos m * (100 * 2 ^ 46))
      by (unfold mx; rewrite Pos2Z.inj_mul, H100; reflexivity).
    assert (Hdm : Zdigits2 mx + (e + -46) <= 8).
    { assert (Zdigits2 mx <= - e + 54); [|lia].
      apply Zdigits2_le; [lia|lia|].
      replace (- e + 54) with (- e + 7 + 47) by lia.
      rewrite !Z.pow_add_r by lia.
      change (2 ^ 7) with 128. rewrite Hmx.
      assert (0 < 2 ^ 46) by reflexivity.
      change (2 ^ 47) with (2 * 2 ^ 46). nia. }
    pose proof (Zdigits2_nonneg mx) as Hdn.
    set (e1 := Z.max (e + -46) (Z.max (Zdigits2 mx + (e + -46) - 53) (-1074))).
    assert (He1 : e + -46 <= e1 <= -45) by (unfold e1; lia).
    pose proof (binary_round_aux_le false mx (e + -46) loc_Exact (100 * 2 ^ (- e1))
                  ltac:(lia) ltac:(lia)
                  ltac:(assert (0 <= 2 ^ (- e1)) by (apply Z.pow_nonneg; lia); lia))
      as Hb.
    cbv zeta in Hb. fold e1 in Hb.
    assert (Hcond : mx <= 100 * 2 ^ (- e1) * 2 ^ (e1 - (e + -46))).
    { rewrite <- Z.mul_assoc, <- Z.pow_add_r by lia.
      replace (- e1 + (e1 - (e + -46))) with (- e + 46) by lia.
      rewrite Z.pow_add_r by lia. rewrite Hmx.
      assert (0 < 2 ^ 46) by reflexivity. nia. }
    assert (Hor : mx < 100 * 2 ^ (- e1) * 2 ^ (e1 - (e + -46)) \/
                  (mx = 100 * 2 ^ (- e1) * 2 ^ (e1 - (e + -46))
                   /\ loc_Exact = loc_Exact)).
    { destruct (Z.eq_dec mx (100 * 2 ^ (- e1) * 2 ^ (e1 - (e + -46))))
        as [E|E]; [right; split; [exact E|reflexivity]|left; lia]. }
    specialize (Hb Hor).
    destruct (binary_round_aux PyFloat.prec PyFloat.emax false mx (e + -46) loc_Exact)
      as [sz| | |sf m' e2]; try contradiction.
    + exists 0. split; [reflexivity|lia].
    + destruct Hb as (-> & Hee & Hm').
      cbn [PyFloat.to_int cond_Zopp]. eexists. split; [reflexivity|].
      assert (Hp : 0 < 2 ^ (e2 - e1)) by (apply Z.pow_pos_nonneg; lia).
      destruct (Z_le_gt_dec 0 e2) as [Hpos|Hneg].
      * rewrite Z.shiftl_mul_pow2 by lia.
        assert (Hsplit : 2 ^ (e2 - e1) = 2 ^ e2 * 2 ^ (- e1)).
        { rewrite <- Z.pow_add_r by lia. f_equal; lia. }
        assert (0 < 2 ^ e2) by (apply Z.pow_pos_nonneg; lia).
        assert (0 < 2 ^ (- e1)) by (apply Z.pow_pos_nonneg; lia).
        rewrite Hsplit in Hm'. split; [nia|].
        apply Z.mul_le_mono_pos_r with (2 ^ (- e1)); [lia|]. lia.
      * rewrite Z.shiftl_div_pow2 by lia.
        assert (Hsplit : 2 ^ (- e1) = 2 ^ (- e2) * 2 ^ (e2 - e1)).
        { rewrite <- Z.pow_add_r by lia. f_equal; lia. }
        assert (Hp2 : 0 < 2 ^ (- e2)) by (apply Z.pow_pos_nonneg; lia).
        rewrite Hsplit, Z.mul_assoc in Hm'.
        apply Z.mul_le_mono_pos_r in Hm'; [|exact Hp].
        split; [apply Z.div_pos; lia|].
        apply Z.div_le_upper_bound; [lia|]. lia.
Qed.

(** Inside the loop the progress value is a percentage. *)
Lemma percent_range (i total : nat) :
  (i < total)%nat ->
  exists v, PyFloat.percent i total = Ok v /\ 0 <= v <= 100.
Proof.
  intros Hlt. unfold PyFloat.percent.
  destruct (i + 1)%nat as [|k] eqn:Ek; [lia|].
  destruct total as [|t]; [lia|].
  change (Z.of_nat (S k)) with (Zpos (Pos.of_succ_nat k)).
  change (Z.of_nat (S t)) with (Zpos (Pos.of_succ_nat t)).
  destruct (truediv_le_one (Pos.of_succ_nat k) (Pos.of_succ_nat t) ltac:(lia))
    as (q & Hq & Hs).
  rewrite Hq. apply mul_100_range, Hs.
Qed.

End Percentage.

Local Open Scope nat_scope.
Local Open Scope list_scope.

Section GenerateUsername.
Local Open Scope string_scope.

Lemma get_in n : forall s c,
  String.get n s = Some c -> In c (list_ascii_of_string s).
Proof.
  induction n as [|n IH]; intros [|d s] c H; try discriminate.
  - cbn in H. inversion H. now left.
  - cbn in H. right. now apply IH.
Qed.

Lemma choice_in characters r :
  In "a"%char (list_ascii_of_string characters) ->
  In (choice characters r) (list_ascii_of_string characters).
Proof.
  intros Ha. unfold choice.
  destruct (String.get _ characters) as [c|] eqn:E;
    [now apply get_in in E|exact Ha].
Qed.

Lemma choices_shape characters random n : forall pos,
  In "a"%char (list_ascii_of_string characters) ->
  String.length (choices characters random pos n) = n
  /\ Forall (fun c => In c (list_ascii_of_string characters))
       (list_ascii_of_string (choices characters random pos n)).
Proof.
  induction n as [|n IH]; intros pos Ha; cbn [choices].
  - split; [reflexivity|constructor].
  - destruct (IH (S pos) Ha) as [Hl Hf]. split.
    + cbn. now rewrite Hl.
    + cbn. constructor; [now apply choice_in|exact Hf].
Qed.

End GenerateUsername.

Lemma generate_username_spec random pos length use_digits use_underscore :
  String.length
    (fst (generate_username random pos length use_digits use_underscore))
  = length
  /\ Forall (fun c => In c (list_ascii_of_string (alphabet use_digits use_underscore)))
       (list_ascii_of_string
          (fst (generate_username random pos length use_digits use_underscore)))
  /\ snd (generate_username random pos length use_digits use_underscore)
     = pos + length.
Proof.
  revert random pos length use_digits use_underscore.
  intros random pos n d u. unfold generate_username. cbn [fst snd].
  assert (E : (if u
               then ((if d then ascii_lowercase ++ digits else ascii_lowercase) ++ "_")%string
               else if d then (ascii_lowercase ++ digits)%string else ascii_lowercase)
              = alphabet d u) by (destruct d, u; reflexivity).
  rewrite E.
  destruct (choices_shape (alphabet d u) random n pos) as [Hl Hf].
  - destruct d, u; cbn; tauto.
  - repeat split; assumption.
Qed.

(** X1. A generated name has the requested length, is made of lowercase
    letters, of digits if they are allowed and of the underscore if it is
    allowed, and consumes one draw of the generator for each character. *)
Theorem generate_username_shape :
  forall random pos length use_digits use_underscore,
    let name := fst (generate_username random pos length use_digits use_underscore) in
    String.length name = length
    /\ Forall (fun c => In c (list_ascii_of_string (alphabet use_digits use_underscore)))
         (list_ascii_of_string name)
    /\ snd (generate_username random pos length use_digits use_underscore)
       = pos + length.
Proof.
  intros random pos n d u. cbv zeta. apply generate_username_spec.
Qed.

Section Effects.
Variable env : Env.
Import CheckerThread.

Lemma writes_app o1 o2 : writes (o1 ++ o2) = writes o1 ++ writes o2.
Proof. unfold writes. now rewrite flat_map_app. Qed.

Lemma saves_app o1 o2 : saves (o1 ++ o2) = saves o1 ++ saves o2.
Proof. unfold saves. now rewrite flat_map_app. Qed.

Lemma save_warnings_app o1 o2 :
  save_warnings (o1 ++ o2) = save_warnings o1 ++ save_warnings o2.
Proof. unfold save_warnings. now rewrite flat_map_app. Qed.

Lemma available_reports_app o1 o2 :
  available_reports (o1 ++ o2) = available_reports o1 ++ available_reports o2.
Proof. unfold available_reports. now rewrite flat_map_app. Qed.

Lemma as_lines_app l1 l2 :
  as_lines (l1 ++ l2) = (as_lines l1 ++ as_lines l2)%string.
Proof.
  induction l1 as [|u l1 IH]; cbn [as_lines app]; [reflexivity|].
  rewrite IH. now rewrite !append_assoc.
Qed.

(** What a step never changes: the parameters of the thread and the
    access rights on the disk. *)
Lemma step_static w th :
  mode_ (snd (fst (step env w th))) = mode_ th
  /\ usernames_file (snd (fst (step env w th))) = usernames_file th
  /\ checked_open_w (fs (fst (fst (step env w th)))) = checked_open_w (fs w)
  /\ available_open_a (fs (fst (fst (step env w th)))) = available_open_a (fs w)
  /\ read_text (fs (fst (fst (step env w th)))) = read_text (fs w).
Proof.
  unfold step.
  destruct (at_ th) as [|[us i|]|l u|l u|[us i|] u| |].
  - destruct (mode_ th) eqn:Hm; [|cbn; repeat split; congruence].
    destruct (read_text (fs w) (usernames_file th)) as [text|e];
      [destruct (PyStr.splitlines text)|]; cbn; repeat split; congruence.
  - destruct (nth_error us i); [destruct (running th)|]; repeat split.
  - destruct (running th); [|repeat split].
    destruct (generate_username _ _ _ _ _) as [u pos].
    generate_cases u th;
      try solve [repeat split|cbn; repeat split].
    unfold save_checked_usernames.
    destruct (checked_open_w (fs w)) eqn:Hw; cbn; repeat split; congruence.
  - repeat split.
  - unfold check_username.
    destruct (http_get env u) as [text|e];
      [destruct (PyStr.contains error_ctn text);
       [destruct (available_open_a (fs w)) eqn:Ha|]|];
      cbn; repeat split; congruence.
  - destruct (PyFloat.percent i (List.length us)); repeat split.
  - repeat split.
  - repeat split.
  - repeat split.
Qed.

(** The step and available.txt: the names of the [Write] effects are
    appended, one per line; they are the names reported available when
    the file can be opened, and there is none when it cannot. *)
Lemma step_available w th :
  AVAILABLE_USERNAMES_FILE (fs (fst (fst (step env w th))))
  = (AVAILABLE_USERNAMES_FILE (fs w) ++ as_lines (writes (snd (step env w th))))%string
  /\ (available_open_a (fs w) = Ok tt ->
      writes (snd (step env w th)) = available_reports (snd (step env w th)))
  /\ (forall e, available_open_a (fs w) = Raise e ->
      writes (snd (step env w th)) = []).
Proof.
  unfold step.
  destruct (at_ th) as [|[us i|]|l u|l u|[us i|] u| |].
  - destruct (mode_ th); [|cbn; rewrite append_empty_r; repeat split].
    destruct (read_text (fs w) (usernames_file th)) as [text|e];
      [destruct (PyStr.splitlines text)|];
      cbn; rewrite append_empty_r; repeat split.
  - destruct (nth_error us i); [destruct (running th)|];
      cbn; rewrite append_empty_r; repeat split.
  - destruct (running th); [|cbn; rewrite append_empty_r; repeat split].
    destruct (generate_username _ _ _ _ _) as [u pos].
    generate_cases u th;
      try solve [cbn; rewrite append_empty_r; repeat split|cbn; cbn; rewrite append_empty_r; repeat split].
    unfold save_checked_usernames.
    destruct (checked_open_w (fs w));
      cbn; rewrite append_empty_r; repeat split.
  - cbn; rewrite append_empty_r; repeat split.
  - unfold check_username.
    destruct (http_get env u) as [text|e];
      [destruct (PyStr.contains error_ctn text);
       [destruct (available_open_a (fs w)) as [[]|e'] eqn:Ha|]|];
      cbn; rewrite ?append_empty_r; repeat split; congruence.
  - destruct (PyFloat.percent i (List.length us));
      cbn; rewrite append_empty_r; repeat split.
  - cbn; rewrite append_empty_r; repeat split.
  - cbn; rewrite append_empty_r; repeat split.
  - cbn; rewrite append_empty_r; repeat split.
Qed.


Lemma run_available sched : forall w th,
  AVAILABLE_USERNAMES_FILE (fs (fst (fst (run env sched w th))))
  = (AVAILABLE_USERNAMES_FILE (fs w) ++ as_lines (writes (snd (run env sched w th))))%string
  /\ (available_open_a (fs w) = Ok tt ->
      writes (snd (run env sched w th)) = available_reports (snd (run env sched w th)))
  /\ (forall e, available_open_a (fs w) = Raise e ->
      writes (snd (run env sched w th)) = []).
Proof.
  induction sched as [|[] sched IH]; intros w th.
  - cbn. rewrite append_empty_r. repeat split.
  - rewrite run_step. pose proof (step_available w th) as Hs.
    pose proof (step_static w th) as (_ & _ & _ & Ha & _).
    destruct (step env w th) as [[w1 th1] out1]. cbn [fst snd] in Hs, Ha.
    specialize (IH w1 th1).
    destruct (run env sched w1 th1) as [[w2 th2] out2]. cbn [fst snd] in *.
    destruct Hs as (S1 & S2 & S3). destruct IH as (I1 & I2 & I3).
    split; [|split].
    + rewrite I1, S1, writes_app, as_lines_app. apply append_assoc.
    + intros H. rewrite writes_app, available_reports_app.
      rewrite S2 by exact H. rewrite I2 by congruence. reflexivity.
    + intros e H. rewrite writes_app, (S3 e H), (I3 e) by congruence.
      reflexivity.
  - cbn [run]. apply (IH w (stop th)).
Qed.

End Effects.

(** X2. available.txt is only ever appended to: after any run of a
    thread, under any schedule, its text is the text before followed by
    one line for each write of the run, in order. *)
Theorem available_file_is_append_only :
  forall env sched w th,
    AVAILABLE_USERNAMES_FILE (fs (fst (fst (CheckerThread.run env sched w th))))
    = (AVAILABLE_USERNAMES_FILE (fs w)
         ++ as_lines (writes (snd (CheckerThread.run env sched w th))))%string.
Proof. intros env sched w th. apply run_available. Qed.

(** X3. When available.txt can be opened, the names written to it during
    a run are exactly the names reported available during that run, in
    the same order; when it cannot be opened nothing is written and the
    file keeps its text. *)
Theorem available_file_records_the_reports :
  forall env sched w th,
    (available_open_a (fs w) = Ok tt ->
     writes (snd (CheckerThread.run env sched w th))
     = available_reports (snd (CheckerThread.run env sched w th)))
    /\ (forall e, available_open_a (fs w) = Raise e ->
        writes (snd (CheckerThread.run env sched w th)) = []
        /\ AVAILABLE_USERNAMES_FILE
             (fs (fst (fst (CheckerThread.run env sched w th))))
           = AVAILABLE_USERNAMES_FILE (fs w)).
Proof.
  intros env sched w th.
  destruct (run_available env sched w th) as (H1 & H2 & H3).
  split; [exact H2|]. intros e He. split; [now apply (H3 e)|].
  rewrite H1, (H3 e He). apply append_empty_r.
Qed.

Lemma available_file_records_the_reports_witness :
  writes (snd (CheckerThread.run counting_transport
                 (repeat CheckerThread.Step 9) (fresh_world "")
                 (generate_thread (fresh_world ""))))
  = available_reports
      (snd (CheckerThread.run counting_transport
              (repeat CheckerThread.Step 9) (fresh_world "")
              (generate_thread (fresh_world "")))).
Proof.
  destruct (available_file_records_the_reports counting_transport
              (repeat CheckerThread.Step 9) (fresh_world "")
              (generate_thread (fresh_world ""))) as [H _].
  apply H. reflexivity.
Defined.

Section Modes.
Variable env : Env.
Import CheckerThread.

(** A step of a thread in file mode: the store, the list of checked names
    and the random generator are left alone. *)
Lemma step_file_mode w th :
  mode_ th = file -> file_pc (at_ th) ->
  file_pc (at_ (snd (fst (step env w th))))
  /\ CHECKED_USERNAMES_FILE (fs (fst (fst (step env w th))))
     = CHECKED_USERNAMES_FILE (fs w)
  /\ checked_usernames (snd (fst (step env w th))) = checked_usernames th
  /\ rng (fst (fst (step env w th))) = rng w
  /\ saves (snd (step env w th)) = [].
Proof.
  intros Hm Hpc. unfold step. rewrite Hm.
  destruct (at_ th) as [|[us i|]|[us i|] u|[us i|] u|[us i|] u| |] eqn:Hat;
    try contradiction.
  - destruct (read_text (fs w) (usernames_file th)) as [text|e];
      [destruct (PyStr.splitlines text)|]; repeat split.
  - destruct (nth_error us i); [destruct (running th)|]; repeat split.
  - repeat split.
  - unfold check_username.
    destruct (http_get env u) as [text|e];
      [destruct (PyStr.contains error_ctn text);
       [destruct (available_open_a (fs w))|]|]; repeat split.
  - destruct (PyFloat.percent i (List.length us)); repeat split.
  - repeat split.
  - cbn. rewrite Hat. repeat split.
Qed.

Lemma run_file_mode sched : forall w th,
  mode_ th = file -> file_pc (at_ th) ->
  CHECKED_USERNAMES_FILE (fs (fst (fst (run env sched w th))))
  = CHECKED_USERNAMES_FILE (fs w)
  /\ checked_usernames (snd (fst (run env sched w th))) = checked_usernames th
  /\ rng (fst (fst (run env sched w th))) = rng w
  /\ saves (snd (run env sched w th)) = [].
Proof.
  induction sched as [|[] sched IH]; intros w th Hm Hpc.
  - repeat split.
  - rewrite run_step.
    pose proof (step_file_mode w th Hm Hpc) as (S1 & S2 & S3 & S4 & S5).
    pose proof (step_static env w th) as (Hm1 & _).
    destruct (step env w th) as [[w1 th1] out1]. cbn [fst snd] in *.
    destruct (IH w1 th1 ltac:(congruence) S1) as (I1 & I2 & I3 & I4).
    destruct (run env sched w1 th1) as [[w2 th2] out2]. cbn [fst snd] in *.
    rewrite saves_app, S5, I4. repeat split; congruence.
  - cbn [run]. apply (IH w (stop th)); assumption.
Qed.

(** A step of a thread in generate mode: no progress value, no line
    about a file, and the file of names is not read. *)
Lemma step_generate_mode w th :
  mode_ th = generate -> generate_pc (at_ th) ->
  generate_pc (at_ (snd (fst (step env w th))))
  /\ progress_values (snd (step env w th)) = [].
Proof.
  intros Hm Hpc. unfold step. rewrite Hm.
  destruct (at_ th) as [|[us i|]|[us i|] u|[us i|] u|[us i|] u| |] eqn:Hat;
    try contradiction.
  - repeat split.
  - destruct (running th) eqn:Hr; [|repeat split].
    destruct (generate_username _ _ _ _ _) as [u pos].
    generate_cases u th;
      try solve [repeat split|cbn; rewrite Hat; repeat split].
    unfold save_checked_usernames.
    destruct (checked_open_w (fs w)); repeat split.
  - repeat split.
  - pose proof (check_username_quiet (fs w) u (http_get env u)) as (_ & Hp & _).
    destruct (check_username _ _ _). cbn [fst snd] in *.
    repeat split; assumption.
  - repeat split.
  - repeat split.
  - cbn. rewrite Hat. repeat split.
Qed.

Lemma run_generate_mode sched : forall w th,
  mode_ th = generate -> generate_pc (at_ th) ->
  progress_values (snd (run env sched w th)) = [].
Proof.
  induction sched as [|[] sched IH]; intros w th Hm Hpc.
  - reflexivity.
  - rewrite run_step.
    pose proof (step_generate_mode w th Hm Hpc) as (S1 & S2).
    pose proof (step_static env w th) as (Hm1 & _).
    destruct (step env w th) as [[w1 th1] out1]. cbn [fst snd] in *.
    specialize (IH w1 th1 ltac:(congruence) S1).
    destruct (run env sched w1 th1) as [[w2 th2] out2]. cbn [fst snd] in *.
    now rewrite progress_values_app, S2, IH.
  - cbn [run]. apply (IH w (stop th)); assumption.
Qed.

(** A step in the [while] loop of a thread that holds a list and was not
    told to stop: nothing raises, the loop is not left and the thread
    still holds a list. *)
Lemma step_generate_forever w th :
  mode_ th = generate -> generate_pc (at_ th) ->
  running th = true -> in_loop (at_ th) ->
  is_list (checked_usernames th) ->
  in_loop (at_ (snd (fst (step env w th))))
  /\ is_list (checked_usernames (snd (fst (step env w th))))
  /\ finished_signals (snd (step env w th)) = 0.
Proof.
  intros Hm Hpc Hr Hin Hl. unfold step. rewrite Hm.
  destruct (at_ th) as [|[us i|]|[us i|] u|[us i|] u|[us i|] u| |] eqn:Hat;
    try contradiction.
  - repeat split; assumption.
  - rewrite Hr.
    destruct (generate_username _ _ _ _ _) as [u pos].
    destruct (checked_usernames th) as [l|ks|s|] eqn:Hv; try contradiction.
    destruct (PyStr.truthy u); [|cbn; rewrite Hat, Hv; repeat split].
    cbn [PyValue.contains PyValue.append].
    destruct (PyStr.mem u l); [cbn; rewrite Hat, Hv; repeat split|].
    unfold save_checked_usernames.
    destruct (checked_open_w (fs w)); repeat split.
  - repeat split; assumption.
  - pose proof (check_username_quiet (fs w) u (http_get env u)) as (_ & _ & Hf).
    destruct (check_username _ _ _). cbn [fst snd] in *.
    repeat split; assumption.
  - repeat split; assumption.
Qed.

(** Without [stop()] the [while] loop of a thread that holds a list is
    never left. *)
Lemma run_generate_forever k : forall w th,
  mode_ th = generate -> generate_pc (at_ th) ->
  running th = true -> in_loop (at_ th) ->
  is_list (checked_usernames th) ->
  in_loop (at_ (snd (fst (run env (repeat Step k) w th))))
  /\ running (snd (fst (run env (repeat Step k) w th))) = true
  /\ finished_signals (snd (run env (repeat Step k) w th)) = 0.
Proof.
  induction k as [|k IH]; intros w th Hm Hpc Hr Hin Hl.
  - repeat split; assumption.
  - cbn [repeat]. rewrite run_step.
    pose proof (step_generate_mode w th Hm Hpc) as (S1 & _).
    destruct (step_generate_forever w th Hm Hpc Hr Hin Hl) as (S3a & S3l & S3b).
    pose proof (step_static env w th) as (Hm1 & _).
    pose proof (step_running env w th) as Hr1.
    destruct (step env w th) as [[w1 th1] out1]. cbn [fst snd] in *.
    destruct (IH w1 th1 ltac:(congruence) S1 ltac:(congruence) S3a S3l)
      as (I1 & I2 & I3).
    destruct (run env (repeat Step k) w1 th1) as [[w2 th2] out2].
    cbn [fst snd] in *.
    rewrite finished_signals_app, S3b, I3. repeat split; assumption.
Qed.

End Modes.

(** X4. A thread in file mode never touches the store of checked names:
    under any schedule it leaves checked_usernames.json, its own list and
    the random generator as they were, and never calls
    [save_checked_usernames]. *)
Theorem file_mode_leaves_the_store_alone :
  forall env sched w th,
    CheckerThread.mode_ th = file ->
    CheckerThread.at_ th = Started ->
    let r := CheckerThread.run env sched w th in
    CHECKED_USERNAMES_FILE (fs (fst (fst r))) = CHECKED_USERNAMES_FILE (fs w)
    /\ CheckerThread.checked_usernames (snd (fst r))
       = CheckerThread.checked_usernames th
    /\ rng (fst (fst r)) = rng w
    /\ saves (snd r) = [].
Proof.
  intros env sched w th Hm Hat. cbv zeta.
  apply run_file_mode; [exact Hm|]. now rewrite Hat.
Qed.

Lemma file_mode_leaves_the_store_alone_witness :
  saves (snd (CheckerThread.run fake_transport (repeat CheckerThread.Step 20)
                (fresh_world names_with_gap)
                (file_thread (fresh_world names_with_gap)))) = [].
Proof.
  destruct (file_mode_leaves_the_store_alone fake_transport
              (repeat CheckerThread.Step 20) (fresh_world names_with_gap)
              (file_thread (fresh_world names_with_gap)) eq_refl eq_refl)
    as (_ & _ & _ & H).
  exact H.
Defined.

(** X5. A thread in generate mode never emits a progress value, under any
    schedule. *)
Theorem generate_mode_emits_no_progress :
  forall env sched w th,
    CheckerThread.mode_ th = generate ->
    CheckerThread.at_ th = Started ->
    progress_values (snd (CheckerThread.run env sched w th)) = [].
Proof.
  intros env sched w th Hm Hat.
  apply run_generate_mode; [exact Hm|]. now rewrite Hat.
Qed.

Lemma generate_mode_emits_no_progress_witness :
  progress_values
    (snd (CheckerThread.run counting_transport (repeat CheckerThread.Step 9)
            (fresh_world "") (generate_thread (fresh_world "")))) = [].
Proof.
  exact (generate_mode_emits_no_progress counting_transport
           (repeat CheckerThread.Step 9) (fresh_world "")
           (generate_thread (fresh_world "")) eq_refl eq_refl).
Defined.

(** X6. A generating thread that holds a list of checked names and is
    not told to stop never ends: however many steps it takes, it is still
    in its loop and has not emitted [signal_finished].  (A thread holds a
    list when the store was missing, unreadable, refused by the decoder,
    or held a JSON array.) *)
Theorem generation_only_ends_by_stop :
  forall env k w th,
    CheckerThread.mode_ th = generate ->
    CheckerThread.at_ th = Started ->
    CheckerThread.running th = true ->
    is_list (CheckerThread.checked_usernames th) ->
    let r := CheckerThread.run env (repeat CheckerThread.Step k) w th in
    CheckerThread.at_ (snd (fst r)) <> Finished
    /\ CheckerThread.at_ (snd (fst r)) <> Finishing
    /\ finished_signals (snd r) = 0.
Proof.
  intros env k w th Hm Hat Hr Hl. cbv zeta.
  destruct (run_generate_forever env k w th Hm) as (H1 & _ & H3);
    try (rewrite Hat; exact I); try assumption.
  repeat split; try assumption; intros E; rewrite E in H1; exact H1.
Qed.

Lemma generation_only_ends_by_stop_witness :
  finished_signals
    (snd (CheckerThread.run counting_transport (repeat CheckerThread.Step 40)
            (fresh_world "") (generate_thread (fresh_world "")))) = 0.
Proof.
  destruct (generation_only_ends_by_stop counting_transport 40 (fresh_world "")
              (generate_thread (fresh_world "")) eq_refl eq_refl eq_refl I)
    as (_ & _ & H).
  exact H.
Defined.

Section FileInvariant.
Variable env : Env.
Import CheckerThread.

Lemma messages_app o1 o2 : messages (o1 ++ o2) = messages o1 ++ messages o2.
Proof. unfold messages. now rewrite flat_map_app. Qed.

Lemma firstn_S_nth_error {A} (l : list A) : forall i x,
  nth_error l i = Some x -> firstn (S i) l = firstn i l ++ [x].
Proof.
  induction l as [|y l IH]; intros [|i] x H; try discriminate.
  - cbn in H. inversion H. reflexivity.
  - cbn in H. change (y :: firstn (S i) l = (y :: firstn i l) ++ [x]).
    rewrite (IH i x H). reflexivity.
Qed.

Lemma messages_check_username f u reply :
  messages (snd (check_username f u reply))
  = reply_lines (available_open_a f) u reply.
Proof.
  unfold check_username, reply_lines.
  destruct reply as [text|e]; [|reflexivity].
  destruct (PyStr.contains error_ctn text); [|reflexivity].
  destruct (available_open_a f); reflexivity.
Qed.

Lemma checking_file_stop us notice appendable w th done :
  checking_file env us notice appendable w th done ->
  checking_file env us notice appendable w (stop th) done.
Proof. intros H. exact H. Qed.

Lemma checking_file_step us notice appendable w th done :
  checking_file env us notice appendable w th done ->
  checking_file env us notice appendable
    (fst (fst (step env w th))) (snd (fst (step env w th)))
    (done ++ snd (step env w th)).
Proof.
  intros (Hm & Ha & Hpc).
  pose proof (step_static env w th) as (Hm1 & _ & _ & Ha1 & _).
  unfold checking_file. rewrite Hm1, Ha1. split; [exact Hm|]. split; [exact Ha|].
  clear Hm1 Ha1. unfold step.
  destruct (at_ th) as [|[us' i|]|[us' i|] u|[us' i|] u|[us' i|] u| |] eqn:Hat.
  - (* the file is opened *)
    destruct Hpc as (Hl & Hn & ->). rewrite Hm.
    unfold file_lines in Hl. unfold file_notice in Hn.
    destruct (read_text (fs w) (usernames_file th)) as [text|e].
    + destruct (PyStr.splitlines text) as [|x xs] eqn:Hs.
      * cbn [fst snd at_ goto app]. exists 0, 0, 0. subst us notice.
        repeat split. cbn. lia.
      * cbn [fst snd at_ goto app]. exists 0, 0, 0. subst us notice.
        repeat split. cbn. lia.
    + cbn [fst snd at_ goto app]. exists 0, 0, 0. subst us notice.
      repeat split. cbn. lia.
  - (* the head of the for loop *)
    destruct Hpc as (rq & an & rp & (-> & -> & -> & -> & Hle) & Hg & Hp & Hmsg).
    destruct (nth_error us i) as [u|] eqn:Hnth.
    + destruct (running th); cbn [fst snd at_ goto]; rewrite app_nil_r.
      * exists i, i, i. repeat split; assumption.
      * exists i, i, i. repeat split; try assumption; reflexivity.
    + cbn [fst snd at_ goto]. rewrite app_nil_r.
      exists i, i, i. repeat split; try assumption; reflexivity.
  - destruct Hpc as (rq & an & rp & [] & _).
  - (* the request is sent *)
    destruct Hpc as (rq & an & rp & (-> & -> & -> & -> & Hnth) & Hg & Hp & Hmsg).
    cbn [fst snd at_ goto]. exists (S i), i, i.
    rewrite gets_app, progress_values_app, messages_app.
    cbn [gets progress_values messages flat_map app]. rewrite !app_nil_r.
    repeat split; try assumption.
    rewrite Hg. symmetry. now apply firstn_S_nth_error.
  - destruct Hpc as (rq & an & rp & [] & _).
  - (* the reply arrives *)
    destruct Hpc as (rq & an & rp & (-> & -> & -> & -> & Hnth) & Hg & Hp & Hmsg).
    pose proof (check_username_quiet (fs w) u (http_get env u)) as (Hq1 & Hq2 & _).
    pose proof (messages_check_username (fs w) u (http_get env u)) as Hq3.
    destruct (check_username (fs w) u (http_get env u)) as [f out].
    cbn [fst snd] in *. cbn [at_ goto]. exists (S i), (S i), i.
    rewrite gets_app, progress_values_app, messages_app, Hq1, Hq2, Hq3.
    rewrite !app_nil_r. repeat split; try assumption.
    rewrite Hmsg, (firstn_S_nth_error us i u Hnth), flat_map_app, Ha.
    cbn [flat_map]. rewrite app_nil_r, app_assoc. reflexivity.
  - destruct Hpc as (rq & an & rp & [] & _).
  - (* the sleep is over *)
    destruct Hpc as (rq & an & rp & (-> & -> & -> & -> & Hnth) & Hg & Hp & Hmsg).
    assert (Hlt : i < List.length us) by (apply nth_error_Some; congruence).
    destruct (percent_total i (List.length us) Hlt) as [v Hv]. rewrite Hv.
    cbn [fst snd at_ goto]. exists (S i), (S i), (S i).
    rewrite gets_app, progress_values_app, messages_app.
    cbn [gets progress_values messages flat_map app]. rewrite !app_nil_r.
    repeat split; try assumption; try lia.
    rewrite length_app, Hp. cbn. lia.
  - destruct Hpc as (rq & an & rp & [] & _).
  - (* the finally clause *)
    destruct Hpc as (rq & an & rp & Hc & Hg & Hp & Hmsg).
    cbn [fst snd at_ goto]. exists rq, an, rp.
    rewrite gets_app, progress_values_app, messages_app.
    cbn [gets progress_values messages flat_map app]. rewrite !app_nil_r.
    repeat split; try assumption; apply Hc.
  - destruct Hpc as (rq & an & rp & Hc & Hg & Hp & Hmsg).
    cbn [fst snd]. rewrite Hat, app_nil_r. exists rq, an, rp.
    repeat split; try assumption; apply Hc.
Qed.

Lemma checking_file_run us notice appendable sched : forall w th done,
  checking_file env us notice appendable w th done ->
  checking_file env us notice appendable
    (fst (fst (run env sched w th))) (snd (fst (run env sched w th)))
    (done ++ snd (run env sched w th)).
Proof.
  induction sched as [|[] sched IH]; intros w th done H.
  - cbn. now rewrite app_nil_r.
  - rewrite run_step. pose proof (checking_file_step _ _ _ w th done H) as Hs.
    destruct (step env w th) as [[w1 th1] out1]. cbn [fst snd] in Hs.
    specialize (IH w1 th1 (done ++ out1) Hs).
    destruct (run env sched w1 th1) as [[w2 th2] out2]. cbn [fst snd] in *.
    now rewrite app_assoc.
  - cbn [run]. apply IH. now apply checking_file_stop.
Qed.

Lemma checking_file_init w th :
  mode_ th = file -> at_ th = Started ->
  checking_file env (file_lines w th) (file_notice w th)
    (available_open_a (fs w)) w th [].
Proof.
  intros Hm Hat. unfold checking_file. rewrite Hat. repeat split. exact Hm.
Qed.

End FileInvariant.

(** X7. Whatever the schedule, stops included, the names a file thread
    has requested are the first lines of its file, in file order: none is
    skipped, repeated or reordered; and it has sent one progress value
    for each of them, except possibly the last one requested. *)
Theorem file_run_requests_a_prefix :
  forall env sched w th,
    CheckerThread.mode_ th = file ->
    CheckerThread.at_ th = Started ->
    let out := snd (CheckerThread.run env sched w th) in
    exists k,
      k <= List.length (file_lines w th)
      /\ gets out = firstn k (file_lines w th)
      /\ List.length (progress_values out) <= k
      /\ k <= S (List.length (progress_values out)).
Proof.
  intros env sched w th Hm Hat out.
  pose proof (checking_file_run env _ _ _ sched w th []
                (checking_file_init env w th Hm Hat)) as (_ & _ & H).
  cbn [app] in H. fold out in H.
  destruct (CheckerThread.at_ (snd (fst (CheckerThread.run env sched w th))))
    as [|[us' i|]|[us' i|] u|[us' i|] u|[us' i|] u| |].
  - destruct H as (_ & _ & ->). exists 0. cbn. repeat split; lia.
  - destruct H as (rq & an & rp & (_ & -> & -> & -> & Hle) & Hg & Hp & _).
    exists i. repeat split; try assumption; lia.
  - destruct H as (rq & an & rp & [] & _).
  - destruct H as (rq & an & rp & (_ & -> & -> & -> & Hn) & Hg & Hp & _).
    assert (i < List.length (file_lines w th)) by (apply nth_error_Some; congruence).
    exists i. repeat split; try assumption; lia.
  - destruct H as (rq & an & rp & [] & _).
  - destruct H as (rq & an & rp & (_ & -> & -> & -> & Hn) & Hg & Hp & _).
    assert (i < List.length (file_lines w th)) by (apply nth_error_Some; congruence).
    exists (S i). repeat split; try assumption; lia.
  - destruct H as (rq & an & rp & [] & _).
  - destruct H as (rq & an & rp & (_ & -> & -> & -> & Hn) & Hg & Hp & _).
    assert (i < List.length (file_lines w th)) by (apply nth_error_Some; congruence).
    exists (S i). repeat split; try assumption; lia.
  - destruct H as (rq & an & rp & [] & _).
  - destruct H as (rq & an & rp & (-> & -> & Hle) & Hg & Hp & _).
    exists rp. repeat split; try assumption; lia.
  - destruct H as (rq & an & rp & (-> & -> & Hle) & Hg & Hp & _).
    exists rp. repeat split; try assumption; lia.
Qed.

Lemma file_run_requests_a_prefix_witness :
  exists k,
    k <= List.length (file_lines (fresh_world names_with_gap)
                        (file_thread (fresh_world names_with_gap)))
    /\ gets (snd (CheckerThread.run fake_transport
                    [CheckerThread.Step; CheckerThread.Step; CheckerThread.Step;
                     CheckerThread.Stop; CheckerThread.Step; CheckerThread.Step;
                     CheckerThread.Step]
                    (fresh_world names_with_gap)
                    (file_thread (fresh_world names_with_gap))))
       = firstn k (file_lines (fresh_world names_with_gap)
                     (file_thread (fresh_world names_with_gap))).
Proof.
  destruct (file_run_requests_a_prefix fake_transport
              [CheckerThread.Step; CheckerThread.Step; CheckerThread.Step;
               CheckerThread.Stop; CheckerThread.Step; CheckerThread.Step;
               CheckerThread.Step]
              (fresh_world names_with_gap)
              (file_thread (fresh_world names_with_gap)) eq_refl eq_refl)
    as (k & H1 & H2 & _).
  exists k. split; [exact H1|exact H2].
Defined.

(** X8. When a file thread has ended, its log lines are: the notice, if
    the file gave nothing to check; then, for every name it requested, in
    order, the lines of the reply to that name.  A request that raised
    left its error line and the names after it were still checked.  One
    progress value was sent for each name requested. *)
Theorem file_run_log_when_finished :
  forall env sched w th,
    CheckerThread.mode_ th = file ->
    CheckerThread.at_ th = Started ->
    let r := CheckerThread.run env sched w th in
    CheckerThread.at_ (snd (fst r)) = Finished ->
    messages (snd r)
    = file_notice w th
      ++ flat_map (fun u => reply_lines (available_open_a (fs w)) u (http_get env u))
           (gets (snd r))
    /\ List.length (progress_values (snd r)) = List.length (gets (snd r)).
Proof.
  intros env sched w th Hm Hat r Hfin.
  pose proof (checking_file_run env _ _ _ sched w th []
                (checking_file_init env w th Hm Hat)) as (_ & _ & H).
  cbn [app] in H. fold r in H. rewrite Hfin in H.
  destruct H as (rq & an & rp & (-> & -> & Hle) & Hg & Hp & Hmsg).
  rewrite Hg, Hmsg, Hp. split; [reflexivity|].
  rewrite length_firstn. lia.
Qed.

Lemma file_run_log_when_finished_witness :
  List.length
    (progress_values
       (snd (CheckerThread.run fake_transport (repeat CheckerThread.Step 20)
               (fresh_world names_with_gap)
               (file_thread (fresh_world names_with_gap)))))
  = List.length
      (gets (snd (CheckerThread.run fake_transport
                    (repeat CheckerThread.Step 20)
                    (fresh_world names_with_gap)
                    (file_thread (fresh_world names_with_gap))))).
Proof.
  destruct (file_run_log_when_finished fake_transport
              (repeat CheckerThread.Step 20) (fresh_world names_with_gap)
              (file_thread (fresh_world names_with_gap)) eq_refl eq_refl)
    as [_ H].
  - vm_compute. reflexivity.
  - exact H.
Defined.

Section Percentages.
Variable env : Env.
Import CheckerThread.

Lemma step_index_in_range w th :
  index_in_range (at_ th) ->
  index_in_range (at_ (snd (fst (step env w th))))
  /\ Forall (fun v => (0 <= v <= 100)%Z) (progress_values (snd (step env w th))).
Proof.
  intros Hi. unfold step.
  destruct (at_ th) as [|[us i|]|l u|l u|[us i|] u| |] eqn:Hat.
  - destruct (mode_ th); [|split; [exact I|constructor]].
    destruct (read_text (fs w) (usernames_file th)) as [text|e];
      [destruct (PyStr.splitlines text)|]; split; try exact I; constructor.
  - destruct (nth_error us i) as [u|] eqn:Hn;
      [destruct (running th)|]; split; try exact I; try constructor.
    cbn. apply nth_error_Some. congruence.
  - destruct (running th); [|split; [exact I|constructor]].
    destruct (generate_username _ _ _ _ _) as [u pos].
    generate_cases u th;
      try solve [split; [exact I|constructor]
                |cbn; rewrite Hat; split; [exact I|constructor]].
    unfold save_checked_usernames.
    destruct (checked_open_w (fs w)); split; try exact I; constructor.
  - split; [destruct l; exact Hi|constructor].
  - pose proof (check_username_quiet (fs w) u (http_get env u)) as (_ & Hp & _).
    destruct (check_username _ _ _). cbn [fst snd] in *. rewrite Hp.
    split; [destruct l; exact Hi|constructor].
  - cbn in Hi. destruct (percent_range i (List.length us) Hi) as (v & Hv & Hr).
    rewrite Hv. split; [exact I|]. cbn. constructor; [exact Hr|constructor].
  - split; [exact I|constructor].
  - split; [exact I|constructor].
  - cbn. rewrite Hat. split; [exact I|constructor].
Qed.

Lemma run_index_in_range sched : forall w th,
  index_in_range (at_ th) ->
  Forall (fun v => (0 <= v <= 100)%Z) (progress_values (snd (run env sched w th))).
Proof.
  induction sched as [|[] sched IH]; intros w th Hi.
  - constructor.
  - rewrite run_step. pose proof (step_index_in_range w th Hi) as [S1 S2].
    destruct (step env w th) as [[w1 th1] out1]. cbn [fst snd] in *.
    specialize (IH w1 th1 S1).
    destruct (run env sched w1 th1) as [[w2 th2] out2]. cbn [fst snd] in *.
    rewrite progress_values_app. apply Forall_app. now split.
  - cbn [run]. apply (IH w (stop th)). exact Hi.
Qed.

End Percentages.

(** X9. Every progress value a thread emits lies between 0 and 100. *)
Theorem progress_values_are_percentages :
  forall env sched w th,
    CheckerThread.at_ th = Started ->
    Forall (fun v => (0 <= v <= 100)%Z)
      (progress_values (snd (CheckerThread.run env sched w th))).
Proof.
  intros env sched w th Hat. apply run_index_in_range. now rewrite Hat.
Qed.

Lemma progress_values_are_percentages_witness :
  Forall (fun v => (0 <= v <= 100)%Z)
    (progress_values
       (snd (CheckerThread.run fake_transport (repeat CheckerThread.Step 20)
               (fresh_world names_with_gap)
               (file_thread (fresh_world names_with_gap))))).
Proof.
  exact (progress_values_are_percentages fake_transport
           (repeat CheckerThread.Step 20) (fresh_world names_with_gap)
           (file_thread (fresh_world names_with_gap)) eq_refl).
Defined.

Section WindowInvariants.
Variable fuel : nat.
Variable env : Env.

Lemma taken_lines_app o1 o2 : taken_lines (o1 ++ o2) = taken_lines o1 ++ taken_lines o2.
Proof. unfold taken_lines. now rewrite flat_map_app. Qed.

Lemma available_lines_app o1 o2 :
  available_lines (o1 ++ o2) = available_lines o1 ++ available_lines o2.
Proof. unfold available_lines. now rewrite flat_map_app. Qed.

Lemma last_default_irrelevant {A} (l : list A) x d d' :
  last (x :: l) d = last (x :: l) d'.
Proof.
  revert x. induction l as [|y l IH]; intros x; [reflexivity|].
  change (last (y :: l) d = last (y :: l) d'). apply IH.
Qed.

Lemma last_app {A} (l1 l2 : list A) d : last (l1 ++ l2) d = last l2 (last l1 d).
Proof.
  induction l1 as [|x l1 IH]; [reflexivity|].
  destruct l2 as [|z l2]; [now rewrite app_nil_r|].
  transitivity (last (l1 ++ z :: l2) d); [destruct l1; reflexivity|].
  rewrite IH. apply last_default_irrelevant.
Qed.

Lemma last_progress_cons v out d :
  last (progress_values (Emit (signal_update_progress v) :: out)) d
  = last (progress_values out) v.
Proof.
  change (progress_values (Emit (signal_update_progress v) :: out))
    with (v :: progress_values out).
  destruct (progress_values out) as [|z l]; [reflexivity|].
  change (last (z :: l) d = last (z :: l) v). apply last_default_irrelevant.
Qed.

Lemma deliver_all_logs out : forall win,
  MainWindow.taken_log_text (fold_left MainWindow.deliver out win)
  = MainWindow.taken_log_text win ++ taken_lines out
  /\ MainWindow.available_log_text (fold_left MainWindow.deliver out win)
     = MainWindow.available_log_text win ++ available_lines out
  /\ MainWindow.progress_bar (fold_left MainWindow.deliver out win)
     = last (progress_values out) (MainWindow.progress_bar win).
Proof.
  induction out as [|e out IH]; intros win; cbn [fold_left].
  - rewrite !app_nil_r. repeat split.
  - destruct (IH (MainWindow.deliver win e)) as (H1 & H2 & H3).
    rewrite H1, H2, H3. clear H1 H2 H3.
    destruct e as [[m|m|v|]|u|u|l|x|];
      cbn [MainWindow.deliver MainWindow.update_taken_log
           MainWindow.update_available_log MainWindow.update_progress
           MainWindow.taken_log_text MainWindow.available_log_text
           MainWindow.progress_bar];
      rewrite ?last_progress_cons, <- ?app_assoc; repeat split.
Qed.

Lemma map_snd_tag k out : map snd (tag k out) = out.
Proof.
  unfold tag. rewrite map_map. cbn. apply map_id.
Qed.

Lemma mirrored_deliver sys out tagged w ths :
  mirrored sys -> map snd tagged = out ->
  mirrored {| world := w;
              window := MainWindow.set_threads
                          (fold_left MainWindow.deliver out (window sys)) ths;
              history := history sys ++ tagged |}.
Proof.
  intros (H1 & H2 & H3) Ht. unfold mirrored. cbn [window history].
  destruct (deliver_all_logs out (window sys)) as (D1 & D2 & D3).
  cbn [MainWindow.set_threads MainWindow.taken_log_text
       MainWindow.available_log_text MainWindow.progress_bar].
  rewrite map_app, Ht, taken_lines_app, available_lines_app,
    progress_values_app, last_app.
  rewrite D1, D2, D3, H1, H2, H3. repeat split.
Qed.

Lemma mirrored_start sys m f n d u k :
  mirrored sys -> mirrored (start_checking sys m f n d u k).
Proof. intros H. exact H. Qed.

Lemma mirrored_stop sys sys' :
  mirrored sys -> stop_checking fuel env sys = Some sys' -> mirrored sys'.
Proof.
  intros H Hs. unfold stop_checking in Hs.
  destruct (stop_and_wait fuel env 0 (world sys) (MainWindow.threads (window sys)))
    as [[[w l] out]|]; [|discriminate].
  inversion Hs. clear Hs.
  pose proof (mirrored_deliver sys (map snd out) out w [] H eq_refl) as M.
  destruct M as (M1 & M2 & M3). unfold mirrored. cbn [window history] in *.
  cbn [MainWindow.set_threads MainWindow.set_stop_button
       MainWindow.checking_finished MainWindow.threads
       MainWindow.taken_log_text MainWindow.available_log_text
       MainWindow.progress_bar] in *.
  repeat split; assumption.
Qed.

Lemma mirrored_act a sys sys' :
  mirrored sys -> act fuel env a sys = Some sys' -> mirrored sys'.
Proof.
  intros H Ha. destruct a as [k|filename|n d u s|]; cbn [act] in Ha.
  - destruct (nth_error (MainWindow.threads (window sys)) k) as [th|];
      [|inversion Ha; subst; exact H].
    destruct (CheckerThread.step env (world sys) th) as [[w th'] out].
    inversion Ha. apply mirrored_deliver; [exact H|apply map_snd_tag].
  - destruct (MainWindow.file_button_enabled (window sys));
      inversion Ha; subst; [|exact H].
    unfold choose_file. destruct (PyStr.truthy filename); exact H.
  - unfold start_generation in Ha.
    destruct (MainWindow.threads (window sys)).
    + inversion Ha. exact H.
    + destruct (stop_checking fuel env sys) as [s1|] eqn:Hs; [|discriminate].
      inversion Ha. apply (mirrored_stop sys s1 H) in Hs. exact Hs.
  - destruct (MainWindow.stop_button_enabled (window sys)).
    + now apply (mirrored_stop sys).
    + inversion Ha; subst; exact H.
Qed.

Lemma mirrored_acts l : forall sys sys',
  mirrored sys -> acts fuel env l sys = Some sys' -> mirrored sys'.
Proof.
  induction l as [|a l IH]; intros sys sys' H Ha; cbn [acts] in Ha.
  - inversion Ha; subst; exact H.
  - destruct (act fuel env a sys) as [s1|] eqn:E; [|discriminate].
    apply (IH s1 sys'); [|exact Ha]. now apply (mirrored_act a sys).
Qed.

End WindowInvariants.

(** X10. The window shows exactly what the threads have sent: after any
    sequence of clicks and thread steps from start-up, once the signals
    sent have reached their slots, the pane of taken names holds the
    lines sent on the taken-log signal, the pane of available names those
    sent on the available-log signal, both in the order sent, and the
    progress bar shows the last progress value sent. *)
Theorem window_shows_what_was_sent :
  forall fuel env l w sys,
    acts fuel env l (boot w) = Some sys ->
    MainWindow.taken_log_text (window sys) = taken_lines (map snd (history sys))
    /\ MainWindow.available_log_text (window sys)
       = available_lines (map snd (history sys))
    /\ MainWindow.progress_bar (window sys)
       = last (progress_values (map snd (history sys))) 0%Z.
Proof.
  intros fuel env l w sys H.
  apply (mirrored_acts fuel env l (boot w) sys); [|exact H].
  repeat split.
Qed.

Lemma window_shows_what_was_sent_witness :
  exists sys,
    acts 5 fake_transport
      (ClickFile "names.txt" :: Schedule 0 :: Schedule 0 :: Schedule 0
         :: Schedule 0 :: [ClickStop])
      (boot (fresh_world one_name)) = Some sys
    /\ MainWindow.taken_log_text (window sys)
       = taken_lines (map snd (history sys)).
Proof.
  destruct (acts 5 fake_transport
              (ClickFile "names.txt" :: Schedule 0 :: Schedule 0 :: Schedule 0
                 :: Schedule 0 :: [ClickStop])
              (boot (fresh_world one_name))) as [sys|] eqn:E;
    [|vm_compute in E; discriminate E].
  exists sys. split; [reflexivity|].
  apply (window_shows_what_was_sent _ _ _ _ _ E).
Defined.

Section Buttons.
Variable fuel : nat.
Variable env : Env.

Lemma deliver_all_keeps_text out : forall win,
  MainWindow.generate_button_stops (fold_left MainWindow.deliver out win)
  = MainWindow.generate_button_stops win.
Proof.
  induction out as [|e out IH]; intros win; cbn [fold_left]; [reflexivity|].
  rewrite IH. destruct e as [[m|m|v|]|u|u|l|x|]; reflexivity.
Qed.

Lemma replace_nth_Forall {A} (P : A -> Prop) x : forall k l,
  Forall P l -> P x -> Forall P (replace_nth k x l).
Proof.
  induction k as [|k IH]; intros [|y l] Hl Hx; cbn [replace_nth];
    try constructor; inversion Hl; subst; auto.
Qed.

Lemma replace_nth_length {A} (x : A) : forall k l,
  List.length (replace_nth k x l) = List.length l.
Proof.
  induction k as [|k IH]; intros [|y l]; cbn [replace_nth]; try reflexivity.
  cbn. now rewrite IH.
Qed.

(** The window [stop_checking] leaves behind. *)
Lemma stop_checking_window sys sys' :
  stop_checking fuel env sys = Some sys' ->
  MainWindow.threads (window sys') = []
  /\ MainWindow.stop_button_enabled (window sys') = false
  /\ MainWindow.file_button_enabled (window sys') = true
  /\ MainWindow.generate_button_stops (window sys') = false
  /\ MainWindow.information_boxes (window sys')
     = S (MainWindow.information_boxes (window sys)).
Proof.
  unfold stop_checking.
  destruct (stop_and_wait fuel env 0 (world sys) (MainWindow.threads (window sys)))
    as [[[w l] out]|]; [|discriminate].
  intros H. inversion H. cbn. repeat split. f_equal.
  apply (deliver_all_keeps (map snd out) (window sys)).
Qed.

Lemma coherent_act a sys sys' :
  coherent (window sys) -> act fuel env a sys = Some sys' ->
  coherent (window sys').
Proof.
  intros H Ha. destruct a as [k|filename|n d u s|]; cbn [act] in Ha.
  - destruct (nth_error (MainWindow.threads (window sys)) k) as [th|] eqn:Hn;
      [|inversion Ha; subst; exact H].
    pose proof (step_static env (world sys) th) as (Hm & _).
    destruct (CheckerThread.step env (world sys) th) as [[w th'] out].
    cbn [fst snd] in Hm. inversion Ha. clear Ha. cbn [window].
    destruct (deliver_all_keeps out (window sys)) as (_ & K2 & K3 & K4).
    pose proof (deliver_all_keeps_text out (window sys)) as K5.
    destruct H as [Hs Hb]. unfold coherent.
    cbn [MainWindow.set_threads MainWindow.threads
         MainWindow.stop_button_enabled MainWindow.file_button_enabled
         MainWindow.generate_button_stops].
    rewrite K2, K3, K4, K5. split.
    + intros _. apply Hs. intros E. rewrite E in Hn. destruct k; discriminate.
    + assert (Hin : In th (MainWindow.threads (window sys)))
        by (eapply nth_error_In; exact Hn).
      destruct (MainWindow.generate_button_stops (window sys));
        destruct Hb as [Hf Hall]; (split; [exact Hf|]);
        (apply replace_nth_Forall; [exact Hall|]);
        rewrite Hm; rewrite Forall_forall in Hall; now apply Hall.
  - destruct (MainWindow.file_button_enabled (window sys)) eqn:Hf;
      [|inversion Ha; subst; exact H].
    inversion Ha. clear Ha. unfold choose_file.
    destruct (PyStr.truthy filename); [|exact H].
    destruct H as [Hs Hb]. unfold start_checking, coherent.
    cbn [window MainWindow.set_threads MainWindow.set_stop_button
         MainWindow.threads MainWindow.stop_button_enabled
         MainWindow.file_button_enabled MainWindow.generate_button_stops].
    split; [reflexivity|].
    destruct (MainWindow.generate_button_stops (window sys));
      destruct Hb as [Hf' Hall]; [congruence|].
    split; [exact Hf|]. apply Forall_app. split; [exact Hall|].
    repeat constructor.
  - unfold start_generation in Ha.
    destruct (MainWindow.threads (window sys)) eqn:Ht.
    + inversion Ha. clear Ha. unfold start_checking, coherent.
      cbn [window MainWindow.set_threads MainWindow.set_stop_button
           MainWindow.set_mode_buttons
           MainWindow.threads MainWindow.stop_button_enabled
           MainWindow.file_button_enabled MainWindow.generate_button_stops].
      rewrite Ht. cbn [app].
      split; [reflexivity|]. split; [reflexivity|].
      apply Forall_forall. intros th Hin. apply repeat_spec in Hin.
      subst th. reflexivity.
    + destruct (stop_checking fuel env sys) as [s1|] eqn:Hsc; [|discriminate].
      inversion Ha. clear Ha.
      destruct (stop_checking_window sys s1 Hsc) as (T1 & T2 & T3 & T4 & _).
      unfold coherent.
      cbn [window MainWindow.set_mode_buttons
           MainWindow.threads MainWindow.stop_button_enabled
           MainWindow.file_button_enabled MainWindow.generate_button_stops].
      rewrite T1. split; [congruence|].
      split; [reflexivity|constructor].
  - destruct (MainWindow.stop_button_enabled (window sys));
      [|inversion Ha; subst; exact H].
    destruct (stop_checking_window sys sys' Ha) as (T1 & T2 & T3 & T4 & _).
    unfold coherent. rewrite T1, T3, T4. split; [congruence|].
    split; [reflexivity|constructor].
Qed.

Lemma coherent_boot w : coherent (window (boot w)).
Proof. unfold coherent. cbn. split; [congruence|]. split; [reflexivity|constructor]. Qed.

Lemma coherent_acts l : forall sys sys',
  coherent (window sys) -> acts fuel env l sys = Some sys' ->
  coherent (window sys').
Proof.
  induction l as [|a l IH]; intros sys sys' H Ha; cbn [acts] in Ha.
  - inversion Ha; subst; exact H.
  - destruct (act fuel env a sys) as [s1|] eqn:E; [|discriminate].
    apply (IH s1 sys'); [|exact Ha]. now apply (coherent_act a sys).
Qed.

Lemma busy_stop sys sys' :
  stop_checking fuel env sys = Some sys' -> busy (window sys').
Proof.
  intros Hs.
  destruct (stop_checking_window sys sys' Hs) as (_ & T2 & _).
  unfold busy. rewrite T2. discriminate.
Qed.

Lemma busy_act a sys sys' :
  busy (window sys) -> act fuel env a sys = Some sys' -> busy (window sys').
Proof.
  intros H Ha. destruct a as [k|filename|n d u s|]; cbn [act] in Ha.
  - destruct (nth_error (MainWindow.threads (window sys)) k) as [th|] eqn:Hn;
      [|inversion Ha; subst; exact H].
    destruct (CheckerThread.step env (world sys) th) as [[w th'] out].
    inversion Ha. clear Ha. unfold busy. cbn [window].
    destruct (deliver_all_keeps out (window sys)) as (_ & K2 & _).
    cbn [MainWindow.set_threads MainWindow.threads
         MainWindow.stop_button_enabled].
    rewrite K2. intros _ E.
    apply (f_equal (@List.length _)) in E.
    rewrite replace_nth_length in E.
    destruct (MainWindow.threads (window sys)); [|discriminate E].
    destruct k; discriminate Hn.
  - destruct (MainWindow.file_button_enabled (window sys));
      [|inversion Ha; subst; exact H].
    inversion Ha. clear Ha. unfold choose_file.
    destruct (PyStr.truthy filename); [|exact H].
    unfold busy, start_checking.
    cbn [window MainWindow.set_threads MainWindow.set_stop_button
         MainWindow.threads MainWindow.stop_button_enabled].
    intros _ E. apply app_eq_nil in E. destruct E as [_ E]. discriminate E.
  - unfold start_generation in Ha.
    destruct (MainWindow.threads (window sys)) eqn:Ht.
    + inversion Ha. clear Ha. unfold busy, start_checking.
      cbn [window MainWindow.set_threads MainWindow.set_stop_button
           MainWindow.set_mode_buttons
           MainWindow.threads MainWindow.stop_button_enabled].
      rewrite Ht. cbn [app]. intros _ E. destruct s; discriminate E.
    + destruct (stop_checking fuel env sys) as [s1|] eqn:Hsc; [|discriminate].
      inversion Ha. clear Ha.
      destruct (stop_checking_window sys s1 Hsc) as (_ & T2 & _).
      unfold busy.
      cbn [window MainWindow.set_mode_buttons MainWindow.threads
           MainWindow.stop_button_enabled].
      rewrite T2. discriminate.
  - destruct (MainWindow.stop_button_enabled (window sys));
      [|inversion Ha; subst; exact H].
    now apply (busy_stop sys).
Qed.

Lemma busy_acts l : forall sys sys',
  busy (window sys) -> acts fuel env l sys = Some sys' -> busy (window sys').
Proof.
  induction l as [|a l IH]; intros sys sys' H Ha; cbn [acts] in Ha.
  - inversion Ha; subst; exact H.
  - destruct (act fuel env a sys) as [s1|] eqn:E; [|discriminate].
    apply (IH s1 sys'); [|exact Ha]. now apply (busy_act a sys).
Qed.

Lemma busy_boot w : busy (window (boot w)).
Proof. unfold busy. cbn. discriminate. Qed.

End Buttons.

(** X11. Threads of the two modes never run side by side: after any
    sequence of clicks and thread steps from start-up, either the file
    button is enabled, the generate button offers to start, and every
    thread checks a file; or the file button is disabled, the generate
    button offers to stop, and every thread generates. *)
Theorem modes_never_mix :
  forall fuel env l w sys,
    acts fuel env l (boot w) = Some sys ->
    (MainWindow.generate_button_stops (window sys) = false
     /\ MainWindow.file_button_enabled (window sys) = true
     /\ Forall (fun th => CheckerThread.mode_ th = file)
          (MainWindow.threads (window sys)))
    \/ (MainWindow.generate_button_stops (window sys) = true
        /\ MainWindow.file_button_enabled (window sys) = false
        /\ Forall (fun th => CheckerThread.mode_ th = generate)
             (MainWindow.threads (window sys))).
Proof.
  intros fuel env l w sys H.
  destruct (coherent_acts fuel env l (boot w) sys (coherent_boot w) H) as [_ Hb].
  destruct (MainWindow.generate_button_stops (window sys));
    [right|left]; destruct Hb; repeat split; assumption.
Qed.

Lemma modes_never_mix_witness :
  exists sys,
    acts 5 counting_transport
      (ClickGenerate 3 true true Normal :: Schedule 0 :: Schedule 2
         :: [ClickFile "names.txt"])
      (boot (fresh_world one_name)) = Some sys
    /\ Forall (fun th => CheckerThread.mode_ th = generate)
         (MainWindow.threads (window sys)).
Proof.
  destruct (acts 5 counting_transport
              (ClickGenerate 3 true true Normal :: Schedule 0 :: Schedule 2
                 :: [ClickFile "names.txt"])
              (boot (fresh_world one_name))) as [sys|] eqn:E;
    [|vm_compute in E; discriminate E].
  exists sys. split; [reflexivity|].
  destruct (modes_never_mix _ _ _ _ _ E) as [(H & _)|(_ & _ & H)];
    [|exact H].
  exfalso. revert H.
  replace sys with (match acts 5 counting_transport
                            (ClickGenerate 3 true true Normal :: Schedule 0
                               :: Schedule 2 :: [ClickFile "names.txt"])
                            (boot (fresh_world one_name)) with
                    | Some s => s
                    | None => sys
                    end) by (rewrite E; reflexivity).
  vm_compute. discriminate.
Defined.

(** X12. The stop button is enabled exactly while the window holds
    threads: after any sequence of clicks and thread steps from start-up,
    threads in the list can be stopped, and an enabled stop button has
    threads to stop. *)
Theorem stop_button_follows_the_threads :
  forall fuel env l w sys,
    acts fuel env l (boot w) = Some sys ->
    (MainWindow.threads (window sys) <> []
     <-> MainWindow.stop_button_enabled (window sys) = true).
Proof.
  intros fuel env l w sys H. split.
  - apply (coherent_acts fuel env l (boot w) sys (coherent_boot w) H).
  - apply (busy_acts fuel env l (boot w) sys (busy_boot w) H).
Qed.

Lemma stop_button_follows_the_threads_witness :
  exists sys,
    acts 5 fake_transport
      (ClickFile "names.txt" :: Schedule 0 :: Schedule 0 :: Schedule 0
         :: Schedule 0 :: Schedule 0 :: Schedule 0 :: [Schedule 0])
      (boot (fresh_world one_name)) = Some sys
    /\ (MainWindow.threads (window sys) <> []
        <-> MainWindow.stop_button_enabled (window sys) = true).
Proof.
  destruct (acts 5 fake_transport
              (ClickFile "names.txt" :: Schedule 0 :: Schedule 0 :: Schedule 0
                 :: Schedule 0 :: Schedule 0 :: Schedule 0 :: [Schedule 0])
              (boot (fresh_world one_name))) as [sys|] eqn:E;
    [|vm_compute in E; discriminate E].
  exists sys. split; [reflexivity|].
  apply (stop_button_follows_the_threads _ _ _ _ _ E).
Defined.

Section Toggle.
Variable fuel : nat.
Variable env : Env.

(** Scheduling threads changes neither their number nor the count of
    completion boxes. *)
Lemma schedule_keeps ks : forall sys sys',
  acts fuel env (map Schedule ks) sys = Some sys' ->
  List.length (MainWindow.threads (window sys'))
  = List.length (MainWindow.threads (window sys))
  /\ MainWindow.information_boxes (window sys')
     = MainWindow.information_boxes (window sys).
Proof.
  induction ks as [|k ks IH]; intros sys sys' H; cbn [map acts] in H.
  - inversion H. split; reflexivity.
  - destruct (act fuel env (Schedule k) sys) as [s1|] eqn:E; [|discriminate].
    destruct (IH s1 sys' H) as [I1 I2]. rewrite I1, I2. clear IH H I1 I2.
    cbn [act] in E.
    destruct (nth_error (MainWindow.threads (window sys)) k) as [th|];
      [|inversion E; split; reflexivity].
    destruct (CheckerThread.step env (world sys) th) as [[w th'] out].
    inversion E. cbn [window MainWindow.set_threads MainWindow.threads
                       MainWindow.information_boxes].
    destruct (deliver_all_keeps out (window sys)) as (K1 & K2 & _).
    rewrite replace_nth_length, K2. split; [reflexivity|exact K1].
Qed.

End Toggle.

(** X13. The generate button is a toggle.  Pressed when there is no
    thread, it starts as many generating threads as the speed says (1, 3
    or 5), each with the flag set.  Pressed again, whatever the threads
    did in between, it stops them all, shows the completion box once and
    leaves the window idle: no thread, stop button disabled, file button
    enabled, generate button offering to start. *)
Theorem generate_button_toggles :
  forall fuel env sys length use_digits use_underscore s,
    5 <= fuel ->
    MainWindow.threads (window sys) = [] ->
    exists s1,
      start_generation fuel env sys length use_digits use_underscore s = Some s1
      /\ List.length (MainWindow.threads (window s1)) = speed_mapping s
      /\ Forall (fun th => CheckerThread.mode_ th = generate
                           /\ CheckerThread.running th = true
                           /\ CheckerThread.at_ th = Started)
           (MainWindow.threads (window s1))
      /\ forall ks s2 length' use_digits' use_underscore' s',
           acts fuel env (map Schedule ks) s1 = Some s2 ->
           exists s3,
             start_generation fuel env s2 length' use_digits' use_underscore' s'
               = Some s3
             /\ MainWindow.threads (window s3) = []
             /\ MainWindow.stop_button_enabled (window s3) = false
             /\ MainWindow.file_button_enabled (window s3) = true
             /\ MainWindow.generate_button_stops (window s3) = false
             /\ MainWindow.information_boxes (window s3)
                = S (MainWindow.information_boxes (window sys)).
Proof.
  intros fuel env sys n d u s Hfuel Hnil.
  eexists. split; [unfold start_generation; rewrite Hnil; reflexivity|].
  cbn [window start_checking MainWindow.set_mode_buttons
       MainWindow.set_stop_button MainWindow.set_threads MainWindow.threads].
  rewrite Hnil. cbn [app]. split; [apply repeat_length|]. split.
  - apply Forall_forall. intros th Hin. apply repeat_spec in Hin. subst th.
    repeat split.
  - intros ks s2 n' d' u' s' Hacts.
    destruct (schedule_keeps fuel env ks _ s2 Hacts) as [Hlen Hbox].
    cbn [window start_checking MainWindow.set_mode_buttons
         MainWindow.set_stop_button MainWindow.set_threads MainWindow.threads
         MainWindow.information_boxes] in Hlen, Hbox.
    rewrite repeat_length in Hlen.
    destruct (stop_and_wait_finishes env fuel (MainWindow.threads (window s2))
                0 (world s2) Hfuel) as (w & l & out & Hsw & _).
    assert (Hsc : exists s3, stop_checking fuel env s2 = Some s3)
      by (unfold stop_checking; rewrite Hsw; eexists; reflexivity).
    destruct Hsc as [s3 Hsc].
    destruct (stop_checking_window fuel env s2 s3 Hsc) as (T1 & T2 & T3 & T4 & T5).
    unfold start_generation.
    destruct (MainWindow.threads (window s2)) as [|th ths] eqn:Ht.
    + cbn in Hlen. destruct s; discriminate Hlen.
    + rewrite Hsc. eexists. split; [reflexivity|].
      cbn [window MainWindow.set_mode_buttons MainWindow.threads
           MainWindow.stop_button_enabled MainWindow.file_button_enabled
           MainWindow.generate_button_stops MainWindow.information_boxes].
      repeat split; try assumption. congruence.
Qed.

Lemma generate_button_toggles_witness :
  exists s1,
    start_generation 5 fake_transport (boot (fresh_world "")) 3 true true Fast
      = Some s1
    /\ List.length (MainWindow.threads (window s1)) = speed_mapping Fast
    /\ Forall (fun th => CheckerThread.mode_ th = generate
                         /\ CheckerThread.running th = true
                         /\ CheckerThread.at_ th = Started)
         (MainWindow.threads (window s1))
    /\ forall ks s2 length' use_digits' use_underscore' s',
         acts 5 fake_transport (map Schedule ks) s1 = Some s2 ->
         exists s3,
           start_generation 5 fake_transport s2 length' use_digits'
             use_underscore' s' = Some s3
           /\ MainWindow.threads (window s3) = []
           /\ MainWindow.stop_button_enabled (window s3) = false
           /\ MainWindow.file_button_enabled (window s3) = true
           /\ MainWindow.generate_button_stops (window s3) = false
           /\ MainWindow.information_boxes (window s3)
              = S (MainWindow.information_boxes (window (boot (fresh_world "")))).
Proof.
  apply (generate_button_toggles 5 fake_transport (boot (fresh_world ""))
           3 true true Fast (le_n 5) eq_refl).
Defined.

Section GenerationEffects.
Variable env : Env.
Import CheckerThread.

Lemma step_parameters w th :
  length (snd (fst (step env w th))) = length th
  /\ use_digits (snd (fst (step env w th))) = use_digits th
  /\ use_underscore (snd (fst (step env w th))) = use_underscore th.
Proof.
  unfold step.
  destruct (at_ th) as [|[us i|]|l u|l u|[us i|] u| |].
  - destruct (mode_ th); [|repeat split].
    destruct (read_text (fs w) (usernames_file th)) as [text|e];
      [destruct (PyStr.splitlines text)|]; repeat split.
  - destruct (nth_error us i); [destruct (running th)|]; repeat split.
  - destruct (running th); [|repeat split].
    destruct (generate_username _ _ _ _ _) as [u pos].
    generate_cases u th;
      try solve [repeat split|cbn; repeat split].
    destruct (save_checked_usernames _ _). repeat split.
  - repeat split.
  - destruct (check_username _ _ _). repeat split.
  - destruct (PyFloat.percent i (List.length us)); repeat split.
  - repeat split.
  - repeat split.
  - repeat split.
Qed.

(** A step of a generating thread: what it saves it requests, what it
    requests is well formed, and a save that fails is only reported. *)
Lemma step_generation w th :
  mode_ th = generate -> generate_pc (at_ th) ->
  Forall (well_formed (length th) (use_digits th) (use_underscore th))
    (pending (at_ th)) ->
  Forall (well_formed (length th) (use_digits th) (use_underscore th))
    (gets (snd (step env w th)) ++ pending (at_ (snd (fst (step env w th)))))
  /\ List.length (saves (snd (step env w th))) + List.length (pending (at_ th))
     = List.length (gets (snd (step env w th)))
       + List.length (pending (at_ (snd (fst (step env w th))))).
Proof.
  intros Hm Hpc Hwf. unfold step. rewrite Hm.
  destruct (at_ th) as [|[us i|]|[us i|] u|[us i|] u|[us i|] u| |] eqn:Hat;
    try contradiction.
  - split; [constructor|reflexivity].
  - destruct (running th); [|split; [constructor|reflexivity]].
    pose proof (generate_username_spec (random env) (rng w) (length th)
                  (use_digits th) (use_underscore th)) as Hshape.
    cbv zeta in Hshape.
    destruct (generate_username _ _ _ _ _) as [u pos]. cbn [fst snd] in Hshape.
    generate_cases u th;
      try solve [split; [constructor|reflexivity]
                |cbn; rewrite Hat; split; [constructor|reflexivity]].
    unfold save_checked_usernames.
    destruct (checked_open_w (fs w)); cbn; (split; [|reflexivity]);
      (constructor; [|constructor]);
      (split; [apply Hshape
              |split; [intros ->; discriminate Htruthy|apply Hshape]]).
  - cbn. split; [|reflexivity]. exact Hwf.
  - pose proof (check_username_quiet (fs w) u (http_get env u)) as (Hq & _).
    assert (Hs : saves (snd (check_username (fs w) u (http_get env u))) = []).
    { unfold check_username.
      destruct (http_get env u) as [text|e];
        [destruct (PyStr.contains error_ctn text);
         [destruct (available_open_a (fs w))|]|]; reflexivity. }
    destruct (check_username _ _ _). cbn [fst snd] in *. cbn [at_ goto pending].
    rewrite Hq, Hs. split; [constructor|reflexivity].
  - split; [constructor|reflexivity].
  - split; [constructor|reflexivity].
  - cbn. rewrite Hat. split; [constructor|reflexivity].
Qed.

Lemma run_generation sched : forall w th,
  mode_ th = generate -> generate_pc (at_ th) ->
  Forall (well_formed (length th) (use_digits th) (use_underscore th))
    (pending (at_ th)) ->
  Forall (well_formed (length th) (use_digits th) (use_underscore th))
    (gets (snd (run env sched w th))
       ++ pending (at_ (snd (fst (run env sched w th)))))
  /\ List.length (saves (snd (run env sched w th))) + List.length (pending (at_ th))
     = List.length (gets (snd (run env sched w th)))
       + List.length (pending (at_ (snd (fst (run env sched w th))))).
Proof.
  induction sched as [|[] sched IH]; intros w th Hm Hpc Hwf.
  - cbn. split; [exact Hwf|reflexivity].
  - rewrite run_step.
    pose proof (step_generation w th Hm Hpc Hwf) as [S1 S2].
    pose proof (step_generate_mode env w th Hm Hpc) as (Hpc1 & _).
    pose proof (step_static env w th) as (Hm1 & _).
    pose proof (step_parameters w th) as (P1 & P2 & P3).
    destruct (step env w th) as [[w1 th1] out1]. cbn [fst snd] in *.
    apply Forall_app in S1. destruct S1 as [S1a S1b].
    rewrite <- P1, <- P2, <- P3 in S1b.
    destruct (IH w1 th1 ltac:(congruence) Hpc1 S1b) as [I1 I2].
    destruct (run env sched w1 th1) as [[w2 th2] out2]. cbn [fst snd] in *.
    rewrite P1, P2, P3 in I1.
    rewrite gets_app, saves_app, !length_app. split.
    + rewrite <- app_assoc. apply Forall_app. split; assumption.
    + lia.
  - cbn [run]. apply (IH w (stop th)); assumption.
Qed.

(** A step and the store: when it cannot be written it keeps its
    content and each save prints the error. *)
Lemma step_failed_save w th e :
  checked_open_w (fs w) = Raise e ->
  CHECKED_USERNAMES_FILE (fs (fst (fst (step env w th))))
  = CHECKED_USERNAMES_FILE (fs w)
  /\ save_warnings (snd (step env w th))
     = map (fun _ => e) (saves (snd (step env w th))).
Proof.
  intros Hw. unfold step.
  destruct (at_ th) as [|[us i|]|l u|l u|[us i|] u| |].
  - destruct (mode_ th); [|repeat split].
    destruct (read_text (fs w) (usernames_file th)) as [text|e'];
      [destruct (PyStr.splitlines text)|]; repeat split.
  - destruct (nth_error us i); [destruct (running th)|]; repeat split.
  - destruct (running th); [|repeat split].
    destruct (generate_username _ _ _ _ _) as [u pos].
    generate_cases u th;
      try solve [repeat split|cbn; repeat split].
    unfold save_checked_usernames. rewrite Hw. repeat split.
  - repeat split.
  - unfold check_username.
    destruct (http_get env u) as [text|e'];
      [destruct (PyStr.contains error_ctn text);
       [destruct (available_open_a (fs w))|]|]; repeat split.
  - destruct (PyFloat.percent i (List.length us)); repeat split.
  - repeat split.
  - repeat split.
  - repeat split.
Qed.

Lemma run_failed_save e sched : forall w th,
  checked_open_w (fs w) = Raise e ->
  CHECKED_USERNAMES_FILE (fs (fst (fst (run env sched w th))))
  = CHECKED_USERNAMES_FILE (fs w)
  /\ save_warnings (snd (run env sched w th))
     = map (fun _ => e) (saves (snd (run env sched w th))).
Proof.
  induction sched as [|[] sched IH]; intros w th Hw.
  - repeat split.
  - rewrite run_step.
    pose proof (step_failed_save w th e Hw) as [S1 S2].
    pose proof (step_static env w th) as (_ & _ & Hw1 & _).
    destruct (step env w th) as [[w1 th1] out1]. cbn [fst snd] in *.
    destruct (IH w1 th1 ltac:(congruence)) as [I1 I2].
    destruct (run env sched w1 th1) as [[w2 th2] out2]. cbn [fst snd] in *.
    rewrite save_warnings_app, saves_app, map_app, S2, I2.
    split; [congruence|reflexivity].
  - cbn [run]. apply (IH w (stop th)). exact Hw.
Qed.

End GenerationEffects.

(** X14. With a store that can be written, after any run of a generating
    thread that has the disk to itself: if the thread loaded a list, the
    store holds that list, followed by every name the thread requested,
    followed by the name it is about to request; if it loaded another
    value, the store still holds that value and the thread has requested
    nothing. *)
Theorem store_holds_the_requested_names :
  forall env sched w length use_digits use_underscore,
    checked_open_w (fs w) = Ok tt ->
    let th := CheckerThread.init (fs w) generate "" length use_digits
                use_underscore in
    let r := CheckerThread.run env sched w th in
    (forall l,
       fst (load_checked_usernames (fs w)) = PyList l ->
       fst (load_checked_usernames (fs (fst (fst r))))
       = PyList (l ++ gets (snd r)
                   ++ pending (CheckerThread.at_ (snd (fst r)))))
    /\ (~ is_list (fst (load_checked_usernames (fs w))) ->
        fst (load_checked_usernames (fs (fst (fst r))))
        = fst (load_checked_usernames (fs w))
        /\ gets (snd r) = []
        /\ pending (CheckerThread.at_ (snd (fst r))) = []).
Proof.
  intros env sched w n d u Hw th r.
  assert (Hp : persisted (fst (fst r)) (snd (fst r)))
    by (apply persisted_run; split; [exact Hw|reflexivity]).
  destruct Hp as [_ Hload]. rewrite Hload.
  pose proof (generating_run env sched _ w th [] (generating_init (fs w) "" n d u))
    as (_ & _ & Hchk & _).
  cbn [app] in Hchk. fold r in Hchk. unfold grown in Hchk.
  split.
  - intros l Hl. rewrite Hl in Hchk. exact Hchk.
  - intros Hn.
    destruct (fst (load_checked_usernames (fs w))) as [l|ks|s|];
      [exfalso; apply Hn; exact I|..];
      destruct Hchk as [Hv He]; apply app_eq_nil in He;
      destruct He as [He1 He2]; repeat split; assumption.
Qed.

Lemma store_holds_the_requested_names_witness :
  fst (load_checked_usernames
         (fs (fst (fst (CheckerThread.run counting_transport
                          (repeat CheckerThread.Step 9) (fresh_world "")
                          (generate_thread (fresh_world "")))))))
  = PyList
      ([] ++ gets (snd (CheckerThread.run counting_transport
                          (repeat CheckerThread.Step 9) (fresh_world "")
                          (generate_thread (fresh_world ""))))
          ++ pending (CheckerThread.at_
                        (snd (fst (CheckerThread.run counting_transport
                                     (repeat CheckerThread.Step 9)
                                     (fresh_world "")
                                     (generate_thread (fresh_world ""))))))).
Proof.
  apply (proj1 (store_holds_the_requested_names counting_transport
                  (repeat CheckerThread.Step 9) (fresh_world "") 3 true true
                  eq_refl) []).
  reflexivity.
Defined.

(** X15. A save that fails does not stop the generation: when the store
    cannot be opened for writing, a run leaves it as it was and prints
    the error once for each save; and, writable store or not, every name
    saved is requested, or about to be. *)
Theorem failed_save_is_only_reported :
  forall env sched w th e,
    CheckerThread.mode_ th = generate ->
    CheckerThread.at_ th = Started ->
    checked_open_w (fs w) = Raise e ->
    let r := CheckerThread.run env sched w th in
    CHECKED_USERNAMES_FILE (fs (fst (fst r))) = CHECKED_USERNAMES_FILE (fs w)
    /\ save_warnings (snd r) = map (fun _ => e) (saves (snd r))
    /\ List.length (saves (snd r))
       = List.length (gets (snd r))
         + List.length (pending (CheckerThread.at_ (snd (fst r)))).
Proof.
  intros env sched w th e Hm Hat Hw r.
  destruct (run_failed_save env e sched w th Hw) as [H1 H2].
  destruct (run_generation env sched w th Hm) as [_ H3].
  - now rewrite Hat.
  - rewrite Hat. constructor.
  - rewrite Hat in H3. cbn [pending List.length] in H3.
    repeat split; try assumption. fold r in H3. lia.
Qed.

Lemma failed_save_is_only_reported_witness :
  CHECKED_USERNAMES_FILE
    (fs (fst (fst (CheckerThread.run counting_transport
                     (repeat CheckerThread.Step 9) (locked_world "")
                     (generate_thread (locked_world ""))))))
  = NoFile
  /\ List.length
       (saves (snd (CheckerThread.run counting_transport
                      (repeat CheckerThread.Step 9) (locked_world "")
                      (generate_thread (locked_world "")))))
     = List.length
         (save_warnings
            (snd (CheckerThread.run counting_transport
                    (repeat CheckerThread.Step 9) (locked_world "")
                    (generate_thread (locked_world ""))))).
Proof.
  destruct (failed_save_is_only_reported counting_transport
              (repeat CheckerThread.Step 9) (locked_world "")
              (generate_thread (locked_world ""))
              "[Errno 13] Permission denied" eq_refl eq_refl eq_refl)
    as (H1 & H2 & _).
  split; [exact H1|]. rewrite H2. now rewrite length_map.
Defined.

(** X16. Every name a generating thread requests was made by
    [generate_username] for the settings of the thread: it has the length
    asked for, is not empty, and uses only the characters allowed.  With
    length 0 every draw is the empty name, which the loop refuses, so
    nothing is ever requested. *)
Theorem requested_names_are_well_formed :
  forall env sched w th,
    CheckerThread.mode_ th = generate ->
    CheckerThread.at_ th = Started ->
    let out := snd (CheckerThread.run env sched w th) in
    Forall (well_formed (CheckerThread.length th) (CheckerThread.use_digits th)
              (CheckerThread.use_underscore th)) (gets out)
    /\ (CheckerThread.length th = 0 -> gets out = []).
Proof.
  intros env sched w th Hm Hat out.
  destruct (run_generation env sched w th Hm) as [H1 _].
  - now rewrite Hat.
  - rewrite Hat. constructor.
  - apply Forall_app in H1. destruct H1 as [H1 _]. fold out in H1.
    split; [exact H1|]. intros H0.
    destruct (gets out) as [|name rest]; [reflexivity|exfalso].
    inversion H1 as [|? ? (Hl & Hne & _) _]. rewrite H0 in Hl.
    destruct name; [now apply Hne|discriminate Hl].
Qed.

Lemma requested_names_are_well_formed_witness :
  Forall (well_formed 3 true true)
    (gets (snd (CheckerThread.run counting_transport
                  (repeat CheckerThread.Step 9) (fresh_world "")
                  (generate_thread (fresh_world ""))))).
Proof.
  destruct (requested_names_are_well_formed counting_transport
              (repeat CheckerThread.Step 9) (fresh_world "")
              (generate_thread (fresh_world "")) eq_refl eq_refl) as [H _].
  exact H.
Defined.

Section CountDown.

Lemma checking_finished_step win :
  MainWindow.threads (MainWindow.checking_finished win)
  = removelast (MainWindow.threads win)
  /\ MainWindow.information_boxes (MainWindow.checking_finished win)
     = MainWindow.information_boxes win
       + (if List.length (MainWindow.threads win) <=? 1 then 1 else 0)
  /\ MainWindow.taken_log_text (MainWindow.checking_finished win)
     = MainWindow.taken_log_text win
  /\ MainWindow.available_log_text (MainWindow.checking_finished win)
     = MainWindow.available_log_text win.
Proof.
  unfold MainWindow.checking_finished.
  destruct (MainWindow.threads win) as [|a [|b l]] eqn:Ht.
  - rewrite Ht. cbn. repeat split. lia.
  - cbn. repeat split. lia.
  - cbn [MainWindow.set_threads MainWindow.threads].
    destruct (removelast (a :: b :: l)) eqn:Hr; [discriminate Hr|].
    cbn. rewrite <- Hr. repeat split. lia.
Qed.

End CountDown.

(** X17. [checking_finished] counts the threads down: each call removes
    the last thread of the list, and the completion box is shown by the
    call that finds at most one thread left.  Called once for each thread
    of a list that is not empty, as it would be were [signal_finished]
    connected to it, it empties the list and shows the box exactly once;
    the logs are not touched. *)
Theorem checking_finished_counts_down :
  forall win,
    MainWindow.threads win <> [] ->
    let win' := Nat.iter (List.length (MainWindow.threads win))
                  MainWindow.checking_finished win in
    MainWindow.threads win' = []
    /\ MainWindow.information_boxes win' = S (MainWindow.information_boxes win)
    /\ MainWindow.taken_log_text win' = MainWindow.taken_log_text win
    /\ MainWindow.available_log_text win' = MainWindow.available_log_text win.
Proof.
  intros win. cbv zeta.
  remember (List.length (MainWindow.threads win)) as n eqn:Hn.
  revert win Hn. induction n as [|n IH]; intros win Hn Hne.
  - destruct (MainWindow.threads win); [congruence|discriminate].
  - rewrite Nat.iter_succ_r.
    destruct (checking_finished_step win) as (T & B & L1 & L2).
    destruct n as [|n].
    + unfold Nat.iter. cbn [nat_rect]. rewrite T, B, L1, L2, <- Hn. cbn.
      destruct (MainWindow.threads win) as [|a [|b l]]; try discriminate.
      repeat split. lia.
    + assert (Hlen : S n = List.length
                             (MainWindow.threads (MainWindow.checking_finished win))).
      { rewrite T.
        destruct (MainWindow.threads win) as [|a l] using rev_ind; [discriminate|].
        rewrite removelast_last. rewrite length_app in Hn. cbn in Hn. lia. }
      destruct (IH (MainWindow.checking_finished win) Hlen) as (I1 & I2 & I3 & I4).
      { intros E. rewrite E in Hlen. discriminate. }
      rewrite I1, I2, I3, I4, B, L1, L2, <- Hn. cbn. repeat split. lia.
Qed.

Lemma checking_finished_counts_down_witness :
  MainWindow.threads
    (Nat.iter 3 MainWindow.checking_finished
       (window (start_checking (boot (fresh_world "")) generate "" 3 true
                  true (speed_mapping Normal)))) = []
  /\ MainWindow.information_boxes
       (Nat.iter 3 MainWindow.checking_finished
          (window (start_checking (boot (fresh_world "")) generate "" 3 true
                     true (speed_mapping Normal)))) = 1.
Proof.
  destruct (checking_finished_counts_down
              (window (start_checking (boot (fresh_world "")) generate "" 3 true
                         true (speed_mapping Normal))))
    as (H1 & H2 & _).
  - cbn. discriminate.
  - split; [exact H1|exact H2].
Defined.

(** ** Stopping a thread that is at work *)

Section StoppedRuns.
Variable env : Env.
Import CheckerThread.




End StoppedRuns.




(** ** Starting while threads run *)

Section Starts.
Variable fuel : nat.
Variable env : Env.

Lemma map_replace_nth {A B} (f : A -> B) x y : forall k l,
  nth_error l k = Some y -> f x = f y ->
  map f (replace_nth k x l) = map f l.
Proof.
  induction k as [|k IH]; intros [|z l] Hn Hf; cbn in *; try discriminate.
  - inversion Hn. subst. now rewrite Hf.
  - f_equal. now apply IH.
Qed.

(** One action of a session on files, from a window whose file button is
    enabled: the button stays enabled, a chosen file gets a thread of its
    own at the end of the list, and no thread is stopped. *)
Lemma file_session_act a sys :
  match a with ClickFile _ | Schedule _ => True | _ => False end ->
  MainWindow.file_button_enabled (window sys) = true ->
  Forall (fun th => CheckerThread.running th = true)
    (MainWindow.threads (window sys)) ->
  exists sys',
    act fuel env a sys = Some sys'
    /\ MainWindow.file_button_enabled (window sys') = true
    /\ map CheckerThread.usernames_file (MainWindow.threads (window sys'))
       = map CheckerThread.usernames_file (MainWindow.threads (window sys))
         ++ chosen_files [a]
    /\ Forall (fun th => CheckerThread.running th = true)
         (MainWindow.threads (window sys'))
    /\ MainWindow.information_boxes (window sys')
       = MainWindow.information_boxes (window sys).
Proof.
  intros Ha He Hr. destruct a as [k|filename| |]; try contradiction;
    cbn [act chosen_files flat_map app].
  - rewrite app_nil_r.
    destruct (nth_error (MainWindow.threads (window sys)) k) as [th|] eqn:Hn;
      [|exists sys; repeat split; assumption].
    pose proof (step_static env (world sys) th) as (_ & Hf & _).
    pose proof (step_running env (world sys) th) as Hrun.
    destruct (CheckerThread.step env (world sys) th) as [[w th'] out].
    cbn [fst snd] in *.
    destruct (deliver_all_keeps out (window sys)) as (K1 & K2 & _ & K4).
    eexists. split; [reflexivity|].
    cbn [window MainWindow.set_threads MainWindow.threads
         MainWindow.file_button_enabled MainWindow.information_boxes].
    rewrite K1, K2, K4. split; [exact He|]. split; [|split; [|reflexivity]].
    + now apply map_replace_nth with th.
    + apply replace_nth_Forall; [exact Hr|].
      rewrite Hrun. rewrite Forall_forall in Hr. apply Hr.
      eapply nth_error_In. exact Hn.
  - rewrite He. unfold choose_file.
    destruct (PyStr.truthy filename).
    + eexists. split; [reflexivity|]. unfold start_checking.
      cbn [window MainWindow.set_threads MainWindow.set_stop_button
           MainWindow.threads MainWindow.file_button_enabled
           MainWindow.information_boxes repeat].
      split; [exact He|]. split; [now rewrite map_app|].
      split; [|reflexivity].
      apply Forall_app. split; [exact Hr|]. repeat constructor.
    + exists sys. rewrite app_nil_r. repeat split; assumption.
Qed.

Lemma file_session_acts l : forall sys,
  file_session l ->
  MainWindow.file_button_enabled (window sys) = true ->
  Forall (fun th => CheckerThread.running th = true)
    (MainWindow.threads (window sys)) ->
  exists sys',
    acts fuel env l sys = Some sys'
    /\ MainWindow.file_button_enabled (window sys') = true
    /\ map CheckerThread.usernames_file (MainWindow.threads (window sys'))
       = map CheckerThread.usernames_file (MainWindow.threads (window sys))
         ++ chosen_files l
    /\ Forall (fun th => CheckerThread.running th = true)
         (MainWindow.threads (window sys'))
    /\ MainWindow.information_boxes (window sys')
       = MainWindow.information_boxes (window sys).
Proof.
  induction l as [|a l IH]; intros sys Hl He Hr.
  - exists sys. cbn. rewrite app_nil_r. repeat split; assumption.
  - inversion Hl as [|? ? Ha Hl']. subst.
    destruct (file_session_act a sys Ha He Hr) as (s1 & A1 & A2 & A3 & A4 & A5).
    destruct (IH s1 Hl' A2 A4) as (s2 & B1 & B2 & B3 & B4 & B5).
    exists s2. cbn [acts]. rewrite A1. split; [exact B1|].
    split; [exact B2|]. split; [|split; [exact B4|congruence]].
    rewrite B3, A3, <- app_assoc. f_equal.
    unfold chosen_files. cbn [flat_map]. now rewrite app_nil_r.
Qed.

End Starts.

(** C7, amended. No start is refused.  In a session of clicks on the
    file button and steps of threads, every file that is chosen gets a
    thread of its own, however many threads are running: the threads of
    the list are, in order, those of the files chosen; none of them was
    stopped, the button is still enabled and no box was shown.  The
    guards are at the buttons: while the generate button offers to stop,
    a click on the file button does nothing; and a click on the generate
    button while there are threads stops them all and starts none. *)
Theorem start_checking_never_refuses :
  (forall fuel env l w,
     file_session l ->
     exists sys,
       acts fuel env l (boot w) = Some sys
       /\ map CheckerThread.usernames_file (MainWindow.threads (window sys))
          = chosen_files l
       /\ Forall (fun th => CheckerThread.running th = true)
            (MainWindow.threads (window sys))
       /\ MainWindow.file_button_enabled (window sys) = true
       /\ MainWindow.information_boxes (window sys) = 0)
  /\ (forall fuel env l w sys filename,
        acts fuel env l (boot w) = Some sys ->
        MainWindow.generate_button_stops (window sys) = true ->
        act fuel env (ClickFile filename) sys = Some sys)
  /\ (forall fuel env sys length use_digits use_underscore s,
        5 <= fuel ->
        MainWindow.threads (window sys) <> [] ->
        exists sys',
          start_generation fuel env sys length use_digits use_underscore s
          = Some sys'
          /\ MainWindow.threads (window sys') = []
          /\ MainWindow.generate_button_stops (window sys') = false
          /\ MainWindow.file_button_enabled (window sys') = true).
Proof.
  split; [|split].
  - intros fuel env l w Hl.
    destruct (file_session_acts fuel env l (boot w) Hl eq_refl)
      as (sys & H1 & H2 & H3 & H4 & H5); [constructor|].
    exists sys. repeat split; assumption.
  - intros fuel env l w sys filename Ha Hg.
    destruct (coherent_acts fuel env l (boot w) sys (coherent_boot w) Ha)
      as [_ Hb].
    rewrite Hg in Hb. destruct Hb as [Hf _]. cbn [act]. now rewrite Hf.
  - intros fuel env sys n d u s Hfuel Hne.
    destruct (stop_and_wait_finishes env fuel (MainWindow.threads (window sys))
                0 (world sys) Hfuel) as (w & l & out & Hsw & _).
    assert (Hsc : exists s1, stop_checking fuel env sys = Some s1)
      by (unfold stop_checking; rewrite Hsw; eexists; reflexivity).
    destruct Hsc as [s1 Hsc].
    destruct (stop_checking_window fuel env sys s1 Hsc) as (T1 & _).
    unfold start_generation.
    destruct (MainWindow.threads (window sys)); [congruence|].
    rewrite Hsc. eexists. split; [reflexivity|].
    cbn [window MainWindow.set_mode_buttons MainWindow.threads
         MainWindow.generate_button_stops MainWindow.file_button_enabled].
    repeat split. exact T1.
Qed.

Lemma start_checking_never_refuses_witness :
  exists sys,
    acts 5 fake_transport
      [ClickFile "names.txt"; Schedule 0; ClickFile "names.txt"; ClickFile "";
       Schedule 1; ClickFile "missing.txt"]
      (boot (fresh_world one_name)) = Some sys
    /\ map CheckerThread.usernames_file (MainWindow.threads (window sys))
       = ["names.txt"; "names.txt"; "missing.txt"]%string
    /\ Forall (fun th => CheckerThread.running th = true)
         (MainWindow.threads (window sys)).
Proof.
  destruct (proj1 start_checking_never_refuses 5 fake_transport
              [ClickFile "names.txt"; Schedule 0; ClickFile "names.txt";
               ClickFile ""; Schedule 1; ClickFile "missing.txt"]
              (fresh_world one_name))
    as (sys & H1 & H2 & H3 & _).
  - repeat constructor.
  - exists sys. split; [exact H1|]. split; [exact H2|exact H3].
Defined.

(** ** A store that holds no list *)

Section ForeignStore.
Variable env : Env.
Import CheckerThread.

Lemma step_without_list w th :
  mode_ th = generate -> idle_pc (at_ th) -> ~ is_list (checked_usernames th) ->
  idle_pc (at_ (snd (fst (step env w th))))
  /\ checked_usernames (snd (fst (step env w th))) = checked_usernames th
  /\ fs (fst (fst (step env w th))) = fs w
  /\ gets (snd (step env w th)) = []
  /\ saves (snd (step env w th)) = []
  /\ messages (snd (step env w th)) = [].
Proof.
  intros Hm Hpc Hl. unfold step. rewrite Hm.
  destruct (at_ th) as [|[us i|]|l u|l u|l u| |] eqn:Hat; try contradiction.
  - repeat split.
  - destruct (running th); [|repeat split].
    destruct (generate_username _ _ _ _ _) as [u pos].
    destruct (PyStr.truthy u); [|cbn; rewrite Hat; repeat split].
    destruct (checked_usernames th) as [l|ks|s|] eqn:Hv;
      [exfalso; apply Hl; exact I|..];
      cbn [PyValue.contains PyValue.append].
    + destruct (PyStr.mem u ks); cbn; rewrite ?Hat, ?Hv; repeat split.
    + destruct (PyStr.contains u s); cbn; rewrite ?Hat, ?Hv; repeat split.
    + cbn. rewrite ?Hv. repeat split.
  - repeat split.
  - cbn. rewrite Hat. repeat split.
Qed.

Lemma run_without_list sched : forall w th,
  mode_ th = generate -> idle_pc (at_ th) -> ~ is_list (checked_usernames th) ->
  checked_usernames (snd (fst (run env sched w th))) = checked_usernames th
  /\ fs (fst (fst (run env sched w th))) = fs w
  /\ gets (snd (run env sched w th)) = []
  /\ saves (snd (run env sched w th)) = []
  /\ messages (snd (run env sched w th)) = [].
Proof.
  induction sched as [|[] sched IH]; intros w th Hm Hpc Hl.
  - repeat split.
  - rewrite run_step.
    pose proof (step_without_list w th Hm Hpc Hl) as (S1 & S2 & S3 & S4 & S5 & S6).
    pose proof (step_static env w th) as (Hm1 & _).
    destruct (step env w th) as [[w1 th1] out1]. cbn [fst snd] in *.
    destruct (IH w1 th1 ltac:(congruence) S1 ltac:(congruence))
      as (I1 & I2 & I3 & I4 & I5).
    destruct (run env sched w1 th1) as [[w2 th2] out2]. cbn [fst snd] in *.
    rewrite gets_app, saves_app, messages_app, S4, S5, S6, I3, I4, I5.
    repeat split; congruence.
  - cbn [run]. apply (IH w (stop th)); assumption.
Qed.

End ForeignStore.

(** X18. A generating thread that holds a value that is not a list (the
    store held a JSON object, string, number or constant) chooses no
    name: whatever the schedule, it sends no request, saves nothing,
    writes no log line and leaves the files as they are.  When the first
    name drawn is not empty and is not found in the value, the test or
    the call of [append] raises: the thread prints the error and ends
    with [signal_finished] in three steps, without [stop()]. *)
Theorem value_that_is_no_list_ends_the_run :
  forall env w th,
    CheckerThread.mode_ th = generate ->
    CheckerThread.at_ th = Started ->
    ~ is_list (CheckerThread.checked_usernames th) ->
    (forall sched,
       gets (snd (CheckerThread.run env sched w th)) = []
       /\ saves (snd (CheckerThread.run env sched w th)) = []
       /\ messages (snd (CheckerThread.run env sched w th)) = []
       /\ fs (fst (fst (CheckerThread.run env sched w th))) = fs w)
    /\ (CheckerThread.running th = true ->
        let u := fst (generate_username (random env) (rng w)
                        (CheckerThread.length th) (CheckerThread.use_digits th)
                        (CheckerThread.use_underscore th)) in
        PyStr.truthy u = true ->
        PyValue.contains u (CheckerThread.checked_usernames th) <> Ok true ->
        exists e w' th',
          CheckerThread.run env
            [CheckerThread.Step; CheckerThread.Step; CheckerThread.Step] w th
          = (w', th', [Print (RunWarning e); Emit signal_finished])
          /\ CheckerThread.at_ th' = Finished).
Proof.
  intros env w th Hm Hat Hl. split.
  - intros sched.
    destruct (run_without_list env sched w th Hm) as (_ & H2 & H3 & H4 & H5);
      [rewrite Hat; exact I|exact Hl|].
    repeat split; assumption.
  - intros Hr u Ht Hin. subst u.
    cbn [CheckerThread.run]. unfold CheckerThread.step at 1.
    rewrite Hat, Hm.
    unfold CheckerThread.step at 1.
    cbn [CheckerThread.at_ CheckerThread.goto CheckerThread.running
         CheckerThread.length CheckerThread.use_digits
         CheckerThread.use_underscore CheckerThread.checked_usernames].
    rewrite Hr.
    destruct (generate_username _ _ _ _ _) as [u pos]. cbn [fst] in Ht, Hin.
    rewrite Ht.
    destruct (CheckerThread.checked_usernames th) as [l|ks|s|] eqn:Hv;
      [exfalso; apply Hl; exact I|..];
      cbn [PyValue.contains PyValue.append] in *.
    + destruct (PyStr.mem u ks); [congruence|].
      cbn. eexists. eexists. eexists. split; reflexivity.
    + destruct (PyStr.contains u s); [congruence|].
      cbn. eexists. eexists. eexists. split; reflexivity.
    + cbn. eexists. eexists. eexists. split; reflexivity.
Qed.

Lemma value_that_is_no_list_ends_the_run_witness :
  exists e w' th',
    CheckerThread.run counting_transport
      [CheckerThread.Step; CheckerThread.Step; CheckerThread.Step]
      {| fs := stored "{}"; rng := 0 |}
      (CheckerThread.init (stored "{}") generate "" 3 true true)
    = (w', th', [Print (RunWarning e); Emit signal_finished])
    /\ CheckerThread.at_ th' = Finished.
Proof.
  apply (proj2 (value_that_is_no_list_ends_the_run counting_transport
                  {| fs := stored "{}"; rng := 0 |}
                  (CheckerThread.init (stored "{}") generate "" 3 true true)
                  eq_refl eq_refl (fun H => H))).
  - reflexivity.
  - reflexivity.
  - discriminate.
Defined.
